(** * Harvesting scripts: [scripts/conf_jour_outputs.py] and [scripts/nust_authors.py]

    A shallow embedding of the two OpenAlex harvesting scripts and the
    properties of their retrying fetcher, cursor paginator, topic resolver,
    upsert layer and orchestrating [main] loops.

    Modelling conventions.
    - Python [str] values are [string]s of 8-bit code points (the Latin-1
      range); [lower] and [strip] follow Python on that range.
    - JSON payloads are records.  A field of type [option _] is [None] when
      the key is absent or null; a nested object fetched with
      [x.get(k) or {}] is [None] when it is absent, null or the empty dict.
      Where the code reads a key with a default ([a.get(k, d)]), the field
      holds the value read, so [None] is an explicit null.
    - SQLite tables are lists of rows in rowid order; a query answered
      from the index of a primary key gives the keys in sorted order.
    - [time.sleep] delays are Python floats, that is IEEE 754 binary64
      numbers: the kernel's [float], multiplied with its [PrimFloat.mul]
      as Python multiplies; every sleep and every HTTP request is logged
      in the world.
    - [while True] loops take fuel; running out of fuel is the outcome
      [OutOfFuel], which no terminating Python run produces. *)

#[local] Set Warnings "-inexact-float".
From Corelib Require Import PrimFloat.
From Stdlib Require Import SpecFloat FloatOps.
From Stdlib Require Import ZArith QArith Qpower Lia Ascii String List Bool.
From stdpp Require Import base option list gmap strings sorting.

Local Open Scope string_scope.
Local Open Scope list_scope.
Local Open Scope Z_scope.

(** ** Python string operations *)

Module PyStr.

Definition code (c : ascii) : N := N_of_ascii c.

(** [str.isspace] on one code point below 256. *)
Definition isspace (c : ascii) : bool :=
  let n := code c in
  ((9 <=? n) && (n <=? 13) || (28 <=? n) && (n <=? 32)
   || (n =? 133) || (n =? 160))%N.

(** [str.lower] on one code point below 256. *)
Definition lower_char (c : ascii) : ascii :=
  let n := code c in
  if ((65 <=? n) && (n <=? 90)
      || (192 <=? n) && (n <=? 222) && negb (n =? 215))%N
  then ascii_of_N (n + 32) else c.

Fixpoint lower (s : string) : string :=
  match s with
  | EmptyString => EmptyString
  | String c r => String (lower_char c) (lower r)
  end.

Fixpoint lstrip (s : string) : string :=
  match s with
  | EmptyString => EmptyString
  | String c r => if isspace c then lstrip r else s
  end.

(** Drops the trailing whitespace: a character is kept when it is not a
    space or when something is kept after it. *)
Fixpoint rstrip (s : string) : string :=
  match s with
  | EmptyString => EmptyString
  | String c r =>
      match rstrip r with
      | EmptyString => if isspace c then EmptyString else String c EmptyString
      | r' => String c r'
      end
  end.

Definition strip (s : string) : string := rstrip (lstrip s).

(** [needle in hay] *)
Fixpoint contains (needle hay : string) : bool :=
  String.prefix needle hay
  || match hay with
     | EmptyString => false
     | String _ r => contains needle r
     end.

(** [s.split(sep)[-1]]: the part after the last [sep]. *)
Fixpoint last_segment (sep : ascii) (s : string) : string :=
  match s with
  | EmptyString => EmptyString
  | String c r =>
      if existsb (Ascii.eqb sep) (list_ascii_of_string r) then last_segment sep r
      else if Ascii.eqb c sep then r else s
  end.

(** [s.replace(old, "")] for a non-empty [old]: every occurrence found
    scanning left to right is dropped; [skip] counts the characters of a
    match still to drop. *)
Fixpoint remove_from (old : string) (skip : nat) (s : string) : string :=
  match s with
  | EmptyString => EmptyString
  | String c r =>
      match skip with
      | S k => remove_from old k r
      | O => if String.prefix old s
             then remove_from old (Nat.pred (String.length old)) r
             else String c (remove_from old O r)
      end
  end.

Definition remove_all (old s : string) : string := remove_from old O s.

(** Python truthiness of an optional string: [None] and [""] are falsy. *)
Definition truthy (o : option string) : bool :=
  match o with
  | Some (String _ _) => true
  | _ => false
  end.

(** [o or ""] *)
Definition or_empty (o : option string) : string := default EmptyString o.


End PyStr.

(** ** JSON payloads *)

(** [primary_location.source] *)
Record source := { src_type : option string }.

Record location := { loc_source : option source }.

Record institution := { inst_id : option string }.

(** One entry of [authorships]; [au_author_id] is
    [(au.get("author") or {}).get("id")]. *)
Record authorship := {
  au_author_id : option string;
  au_author_position : option string;
  au_institutions : list institution
}.

(** A hierarchy level of a topic (a non-empty dict with its [id] and
    [display_name]). *)
Record level := { lv_id : option string; lv_name : option string }.

(** A topic as it appears inside a work ([primary_topic], [topics]). *)
Record topic_ref := {
  t_id : option string;
  t_display_name : option string;
  t_subfield : option level;
  t_field : option level;
  t_domain : option level;
  t_score : option Q
}.

(** The body of [GET /topics/{id}]; [to_field_domain] is
    [(obj.get("field") or {}).get("domain")]. *)
Record topic_obj := {
  to_id : option string;
  to_display_name : option string;
  to_subfield : option level;
  to_field : option level;
  to_field_domain : option level;
  to_domain : option level
}.

(** [w_display_name] is [w.get("display_name", "")]. *)
Record work := {
  w_id : string;
  w_display_name : option string;
  w_publication_year : option Z;
  w_doi : option string;
  w_authorships : list authorship;
  w_primary_location : option location;
  w_type : option string;
  w_type_crossref : option string;
  w_primary_topic : option topic_ref;
  w_topics : list topic_ref
}.

(** [a_display_name] is [a.get("display_name", "")], [a_works_count] is
    [a.get("works_count", 0)]; an institution is its [id] and
    [display_name]. *)
Record author := {
  a_id : string;
  a_display_name : option string;
  a_orcid : option string;
  a_works_count : option Z;
  a_last_known_institutions : list (option string * option string)
}.

(** A page of a cursor-paginated collection. *)
Record page (A : Type) := {
  results : list A;
  next_cursor : option string
}.
Arguments results {A} _.
Arguments next_cursor {A} _.

(** ** Venue classification ([conf_jour_outputs.py]) *)

Module Venue.
Import PyStr.

(** [primary_location.source.type], [None] when any step is missing. *)
Definition primary_source_type (w : work) : option string :=
  match w_primary_location w with
  | Some pl => match loc_source pl with
               | Some src => src_type src
               | None => None
               end
  | None => None
  end.

Definition source_type (w : work) : string :=
  strip (lower (or_empty (primary_source_type w))).

Definition classify_venue_type (w : work) : string :=
  let t := source_type w in
  if bool_decide (t = "journal") || bool_decide (t = "conference") then t
  else
    let wt := lower (or_empty (w_type w)) in
    let tcr := lower (or_empty (w_type_crossref w)) in
    if contains "proceedings" tcr || contains "proceedings" wt
       || contains "conference" tcr || contains "conference" wt
    then "conference"
    else if contains "journal" tcr || contains "journal" wt then "journal"
    else "other".

End Venue.

(** ** The world: HTTP requests, sleeps, printed warnings *)

Inductive request :=
  | GetAuthors (cursor : string)
  | GetWorks (author_id : string) (year : Z) (cursor : string)
  | GetTopic (short_id : string).

Record response (B : Type) := {
  status_code : Z;
  json : B
}.
Arguments status_code {B} _.
Arguments json {B} _.

(** The remote service.  Each endpoint answers from the requests received
    so far (newest first) and the parameters of the current one, so a
    service may answer the same request differently over time. *)
Record server := {
  authors_endpoint : list request -> string -> response (page author);
  works_endpoint : list request -> string -> Z -> string -> response (page work);
  topics_endpoint : list request -> string -> response topic_obj
}.

Inductive exn :=
  | HTTPError (retries_exceeded : bool) (status : Z)
  | IntegrityError (column : string).

Inductive message :=
  | WorksFetchFailed (author_id : string) (year : Z) (e : exn)
  | TopicEnrichFailed (topic_id : string) (e : exn).

Inductive event :=
  | EvRequest (rq : request)
  | EvSleep (delay : float)
  | EvPrint (msg : message).

(** [trace] is newest first; [store] holds the database and the Python
    variables of the running script. *)
Record world (D : Type) := {
  trace : list event;
  store : D
}.
Arguments trace {D} _.
Arguments store {D} _.

Inductive outcome (W X : Type) :=
  | Ok (x : X) (w : W)
  | Raise (e : exn) (w : W)
  | OutOfFuel.
Arguments Ok {W X} _ _.
Arguments Raise {W X} _ _.
Arguments OutOfFuel {W X}.

Module Eff.

Definition M (D X : Type) : Type := world D -> outcome (world D) X.

Definition ret {D X} (x : X) : M D X := fun w => Ok x w.

Definition bind {D X Y} (m : M D X) (k : X -> M D Y) : M D Y :=
  fun w => match m w with
           | Ok x w' => k x w'
           | Raise e w' => Raise e w'
           | OutOfFuel => OutOfFuel
           end.

Definition raise {D X} (e : exn) : M D X := fun w => Raise e w.

Definition log {D} (e : event) (w : world D) : world D :=
  {| trace := e :: trace w; store := store w |}.

Definition emit {D} (e : event) : M D unit := fun w => Ok tt (log e w).

Definition modify {D} (f : D -> D) : M D unit :=
  fun w => Ok tt {| trace := trace w; store := f (store w) |}.

Definition requests_of (tr : list event) : list request :=
  omap (fun e => match e with EvRequest rq => Some rq | _ => None end) tr.

Definition sleeps_of (tr : list event) : list float :=
  omap (fun e => match e with EvSleep d => Some d | _ => None end) tr.

Definition prints_of (tr : list event) : list message :=
  omap (fun e => match e with EvPrint m => Some m | _ => None end) tr.

Definition history {D} (w : world D) : list request := requests_of (trace w).

(** [for x in xs: body(x)] *)
Fixpoint for_each {D A} (body : A -> M D unit) (xs : list A) : M D unit :=
  match xs with
  | [] => ret tt
  | x :: rest => bind (body x) (fun _ => for_each body rest)
  end.

End Eff.

Declare Scope eff_scope.
Delimit Scope eff_scope with eff.
Notation "x <~ m ;; k" := (Eff.bind m (fun x => k))
  (at level 100, m at next level, right associativity) : eff_scope.
Notation "m ;;; k" := (Eff.bind m (fun _ => k))
  (at level 100, right associativity) : eff_scope.

(** ** Retrying fetcher (both scripts) *)

Module Fetcher.
Import Eff.

Definition RETRY_MAX : nat := 5.
Definition RETRY_BACKOFF : float := 1.6%float.

Definition permanent (s : Z) : bool := bool_decide (s ∈ [403; 404; 422]).
Definition transient (s : Z) : bool := bool_decide (s ∈ [429; 500; 502; 503; 504]).

(** The [while True] loop of [get_with_retry]; [ep] is the endpoint the
    URL and parameters select, [rq] names the request in the trace. *)
Fixpoint retry_loop {D B} (fuel : nat) (ep : list request -> response B)
    (rq : request) (delay : float) (tries : nat) : M D (response B) :=
  fun w =>
  match fuel with
  | O => OutOfFuel
  | S fuel' =>
      let resp := ep (history w) in
      let w := log (EvRequest rq) w in
      if status_code resp =? 200 then Ok resp w
      else if permanent (status_code resp) then
        Raise (HTTPError false (status_code resp)) w
      else if transient (status_code resp) then
        let tries := S tries in
        if (RETRY_MAX <? tries)%nat then
          Raise (HTTPError true (status_code resp)) w
        else
          retry_loop fuel' ep rq (delay * RETRY_BACKOFF)%float tries
            (log (EvSleep delay) w)
      else Raise (HTTPError false (status_code resp)) w
  end.

(** The loop makes at most [RETRY_MAX + 1] requests, so this fuel is never
    used up ([get_with_retry_total]). *)
Definition get_with_retry {D B} (base : float) (ep : list request -> response B)
    (rq : request) : M D (response B) :=
  retry_loop (S RETRY_MAX) ep rq base 0.

(** The fused form of a paginating generator and the [for] loop that
    drains it: [body] runs on each record of a page before the next page
    is requested. *)
Fixpoint paginate {D A} (fuel : nat)
    (get : string -> M D (response (page A))) (pause : float)
    (body : A -> M D unit) (cursor : string) : M D unit :=
  match fuel with
  | O => fun _ => OutOfFuel
  | S fuel' =>
      (resp <~ get cursor ;;
       for_each body (results (json resp)) ;;;
       match next_cursor (json resp) with
       | Some (String c r) =>
           emit (EvSleep pause) ;;;
           paginate fuel' get pause body (String c r)
       | _ => ret tt
       end)%eff
  end.

End Fetcher.

(** ** SQLite statements on a table *)

Module Sql.

Section Table.
Context {R K : Type} `{EqDecision K} (key : R -> K).

(** [INSERT ... ON CONFLICT(key) DO UPDATE SET ...]: the row with the key
    of [new] is replaced in place by [merge old new]; a new key is
    appended. *)
Fixpoint upsert (merge : R -> R -> R) (new : R) (tbl : list R) : list R :=
  match tbl with
  | [] => [new]
  | r :: rest =>
      if decide (key r = key new) then merge r new :: rest
      else r :: upsert merge new rest
  end.

(** [INSERT OR IGNORE] under [UNIQUE(key)] *)
Fixpoint insert_or_ignore (new : R) (tbl : list R) : list R :=
  match tbl with
  | [] => [new]
  | r :: rest =>
      if decide (key r = key new) then tbl
      else r :: insert_or_ignore new rest
  end.

Definition rows_with (k : K) (tbl : list R) : list R :=
  filter (fun r => key r = k) tbl.

Definition select (k : K) (tbl : list R) : option R := head (rows_with k tbl).

Definition has_key (k : K) (tbl : list R) : Prop := k ∈ map key tbl.

(** The [UNIQUE] / [PRIMARY KEY] constraint *)
Definition unique (tbl : list R) : Prop := NoDup (map key tbl).

End Table.

(** [COALESCE(a, b)] *)
Definition coalesce {A} (a b : option A) : option A :=
  match a with Some _ => a | None => b end.

(** The order in which SQLite walks the index of a [TEXT PRIMARY KEY]:
    the keys sorted byte by byte. *)
Definition key_le (a b : string) : Prop := String.leb a b = true.

#[global] Instance key_le_dec : RelDecision key_le :=
  fun a b => decide (String.leb a b = true).

Definition index_order (ks : list string) : list string :=
  merge_sort key_le ks.

(** Table [authors], the same in both scripts. *)
Record author_row := {
  ar_author_id : string;
  ar_display_name : string;
  ar_orcid : string;
  ar_works_count : option Z;
  ar_last_known_institution_id : option string;
  ar_last_known_institution_name : option string
}.

End Sql.

(** ** [conf_jour_outputs.py] *)

Module ConfJour.
Import Eff Fetcher Sql.

Definition PAGE_SLEEP : float := 0.2%float.
Definition BASE_DELAY : float := 0.6%float.

Record work_row := {
  wr_work_id : string;
  wr_title : option string;
  wr_publication_year : option Z;
  wr_doi : option string;
  wr_venue_type : string
}.

Record fact_row := {
  fr_author_id : string;
  fr_work_id : string;
  fr_year : option Z;
  fr_venue_type : string
}.

Definition fact_key (f : fact_row) : string * string :=
  (fr_author_id f, fr_work_id f).

Record database := {
  authors : list author_row;
  works : list work_row;
  fact_authorships_works : list fact_row
}.

(** The database behind the cursor and the variables of [main]. *)
Record state := {
  db : database;
  author_ids : list string;
  seen_works : gset string
}.

Definition on_db (f : database -> database) (s : state) : state :=
  {| db := f (db s); author_ids := author_ids s; seen_works := seen_works s |}.

Definition years (year_start year_end : Z) : list Z :=
  map (fun i => year_start + Z.of_nat i)
      (seq 0 (Z.to_nat (year_end + 1 - year_start))).

Definition upsert_author (a : author) : M state unit :=
  let lkis := a_last_known_institutions a in
  let inst_id := match lkis with i :: _ => fst i | [] => None end in
  let inst_nm := match lkis with i :: _ => snd i | [] => None end in
  match a_display_name a with
  | None => raise (IntegrityError "authors.display_name")
  | Some name =>
      let row := {| ar_author_id := a_id a;
                    ar_display_name := name;
                    ar_orcid := PyStr.remove_all "https://orcid.org/"
                                  (PyStr.or_empty (a_orcid a));
                    ar_works_count := a_works_count a;
                    ar_last_known_institution_id := inst_id;
                    ar_last_known_institution_name := inst_nm |} in
      modify (on_db (fun d =>
        {| authors := upsert ar_author_id (fun _ new => new) row (authors d);
           works := works d;
           fact_authorships_works := fact_authorships_works d |}))
  end.

Definition work_row_of (w : work) : work_row :=
  {| wr_work_id := w_id w;
     wr_title := w_display_name w;
     wr_publication_year := w_publication_year w;
     wr_doi := w_doi w;
     wr_venue_type := Venue.classify_venue_type w |}.

Definition upsert_work_db (w : work) (d : database) : database :=
  {| authors := authors d;
     works := upsert wr_work_id (fun _ new => new) (work_row_of w) (works d);
     fact_authorships_works := fact_authorships_works d |}.

Definition upsert_work (w : work) : M state unit :=
  modify (on_db (upsert_work_db w)).

(** One turn of the loop of [upsert_fact] on the fact table. *)
Definition insert_fact (w : work) (tbl : list fact_row) (au : authorship)
    : list fact_row :=
  if PyStr.truthy (au_author_id au) then
    insert_or_ignore fact_key
      {| fr_author_id := PyStr.or_empty (au_author_id au);
         fr_work_id := w_id w;
         fr_year := w_publication_year w;
         fr_venue_type := Venue.classify_venue_type w |} tbl
  else tbl.

Definition upsert_fact_db (w : work) (d : database) : database :=
  {| authors := authors d;
     works := works d;
     fact_authorships_works :=
       fold_left (insert_fact w) (w_authorships w) (fact_authorships_works d) |}.

Definition upsert_fact (w : work) : M state unit :=
  modify (on_db (upsert_fact_db w)).

Section Run.
Variable srv : server.
Variables YEAR_START YEAR_END : Z.

Definition get_with_retry {B} (ep : list request -> response B) (rq : request)
    : M state (response B) :=
  Fetcher.get_with_retry BASE_DELAY ep rq.

Definition iter_authors (fuel : nat) (body : author -> M state unit)
    : M state unit :=
  paginate fuel
    (fun cursor =>
       get_with_retry (fun h => authors_endpoint srv h cursor) (GetAuthors cursor))
    PAGE_SLEEP body "*".

Definition iter_author_works_year (fuel : nat) (author_id : string) (year : Z)
    (body : work -> M state unit) : M state unit :=
  paginate fuel
    (fun cursor =>
       get_with_retry (fun h => works_endpoint srv h author_id year cursor)
         (GetWorks author_id year cursor))
    PAGE_SLEEP body "*".

(** The body of [for w in iter_author_works_year(aid, yr)] *)
Definition work_body (w : work) : M state unit :=
  (upsert_work w ;;;
   upsert_fact w ;;;
   modify (fun s => {| db := db s; author_ids := author_ids s;
                       seen_works := {[ w_id w ]} ∪ seen_works s |}))%eff.

(** The [try] ... [except r.HTTPError] around one author and year *)
Definition author_year (fuel : nat) (aid : string) (yr : Z) : M state unit :=
  fun w =>
    match iter_author_works_year fuel aid yr work_body w with
    | Raise (HTTPError b s) w' =>
        Ok tt (log (EvPrint (WorksFetchFailed aid yr (HTTPError b s))) w')
    | o => o
    end.

(** Step 2 of [main] *)
Definition harvest_works (fuel : nat) (ids : list string) : M state unit :=
  for_each (fun aid => for_each (author_year fuel aid) (years YEAR_START YEAR_END))
    ids.

(** The body of [for a in iter_authors()] *)
Definition author_body (a : author) : M state unit :=
  (upsert_author a ;;;
   modify (fun s => {| db := db s; author_ids := author_ids s ++ [a_id a];
                       seen_works := seen_works s |}))%eff.

(** [main], from the database found at [DB_PATH]; commits, the printed
    counts and the CSV export are left out. *)
Definition main (fuel : nat) : M state unit :=
  (modify (fun s => {| db := db s; author_ids := []; seen_works := ∅ |}) ;;;
   iter_authors fuel author_body ;;;
   fun w => harvest_works fuel (author_ids (store w)) w)%eff.

End Run.

End ConfJour.

(** ** [nust_authors.py] *)

Module NustAuthors.
Import Eff Fetcher Sql.

Definition SLEEP_BETWEEN : float := 0.2%float.
Definition BASE_DELAY : float := 0.5%float.

Record work_row := {
  wr_work_id : string;
  wr_title : option string;
  wr_publication_year : option Z;
  wr_doi : option string
}.

Record authorship_row := {
  as_work_id : string;
  as_author_id : string;
  as_author_position : option string;
  as_is_nust_affiliation : Z
}.

Definition authorship_key (r : authorship_row) : string * string :=
  (as_work_id r, as_author_id r).

Record topic_row := {
  tr_topic_id : string;
  tr_display_name : string;
  tr_subfield_id : option string;
  tr_subfield : option string;
  tr_field_id : option string;
  tr_field : option string;
  tr_domain_id : option string;
  tr_domain : option string
}.

Record work_topic_row := {
  wt_work_id : string;
  wt_topic_id : string;
  wt_score : option Q;
  wt_is_primary : Z
}.

Definition work_topic_key (r : work_topic_row) : string * string :=
  (wt_work_id r, wt_topic_id r).

Record database := {
  authors : list author_row;
  works_2025 : list work_row;
  authorships_2025 : list authorship_row;
  topics : list topic_row;
  work_topics_2025 : list work_topic_row
}.

(** What [get_topic_details] keeps of a topic; a level is [None] for the
    empty dict. *)
Record details := {
  d_id : option string;
  d_display_name : option string;
  d_subfield : option level;
  d_field : option level;
  d_domain : option level
}.

(** The database behind the cursor, the module's [_topic_cache] and the
    set [seen_work_ids] of [main]. *)
Record state := {
  db : database;
  topic_cache : gmap string details;
  seen_work_ids : gset string
}.

Definition on_db (f : database -> database) (s : state) : state :=
  {| db := f (db s); topic_cache := topic_cache s;
     seen_work_ids := seen_work_ids s |}.

Definition set_authors (t : list author_row) (d : database) : database :=
  {| authors := t; works_2025 := works_2025 d;
     authorships_2025 := authorships_2025 d; topics := topics d;
     work_topics_2025 := work_topics_2025 d |}.

Definition set_works (t : list work_row) (d : database) : database :=
  {| authors := authors d; works_2025 := t;
     authorships_2025 := authorships_2025 d; topics := topics d;
     work_topics_2025 := work_topics_2025 d |}.

Definition set_authorships (t : list authorship_row) (d : database) : database :=
  {| authors := authors d; works_2025 := works_2025 d;
     authorships_2025 := t; topics := topics d;
     work_topics_2025 := work_topics_2025 d |}.

Definition set_topics (t : list topic_row) (d : database) : database :=
  {| authors := authors d; works_2025 := works_2025 d;
     authorships_2025 := authorships_2025 d; topics := t;
     work_topics_2025 := work_topics_2025 d |}.

Definition set_work_topics (t : list work_topic_row) (d : database) : database :=
  {| authors := authors d; works_2025 := works_2025 d;
     authorships_2025 := authorships_2025 d; topics := topics d;
     work_topics_2025 := t |}.

(** [a or b] on optional strings and on optional dicts *)
Definition str_or (a b : option string) : option string :=
  if PyStr.truthy a then a else b.

Definition dict_or {A} (a b : option A) : option A :=
  match a with Some _ => a | None => b end.

Definition normalize (obj : topic_obj) : details :=
  {| d_id := to_id obj;
     d_display_name := to_display_name obj;
     d_subfield := to_subfield obj;
     d_field := to_field obj;
     d_domain := dict_or (to_field_domain obj) (to_domain obj) |}.

(** The parameters of the [INSERT INTO topics] statement *)
Record topic_params := {
  tp_topic_id : string;
  tp_display_name : option string;
  tp_subfield_id : option string;
  tp_subfield : option string;
  tp_field_id : option string;
  tp_field : option string;
  tp_domain_id : option string;
  tp_domain : option string
}.

(** The [ON CONFLICT(topic_id) DO UPDATE SET] clause; [new] is [excluded]. *)
Definition merge_topic (old new : topic_row) : topic_row :=
  {| tr_topic_id := tr_topic_id old;
     tr_display_name := tr_display_name new;
     tr_subfield_id := coalesce (tr_subfield_id new) (tr_subfield_id old);
     tr_subfield := coalesce (tr_subfield new) (tr_subfield old);
     tr_field_id := coalesce (tr_field_id new) (tr_field_id old);
     tr_field := coalesce (tr_field new) (tr_field old);
     tr_domain_id := coalesce (tr_domain_id new) (tr_domain_id old);
     tr_domain := coalesce (tr_domain new) (tr_domain old) |}.

(** The statement of [upsert_topic] on table [topics].  The [NOT NULL]
    constraint on [display_name] is checked on the values to insert, before
    the conflict clause applies; [None] is that failure.  The inserted
    display name is then non-null, so
    [COALESCE(excluded.display_name, topics.display_name)] is the new one. *)
Definition topic_row_of (p : topic_params) (name : string) : topic_row :=
  {| tr_topic_id := tp_topic_id p;
     tr_display_name := name;
     tr_subfield_id := tp_subfield_id p;
     tr_subfield := tp_subfield p;
     tr_field_id := tp_field_id p;
     tr_field := tp_field p;
     tr_domain_id := tp_domain_id p;
     tr_domain := tp_domain p |}.

Definition insert_topic (p : topic_params) (tbl : list topic_row)
    : option (list topic_row) :=
  match tp_display_name p with
  | None => None
  | Some name => Some (upsert tr_topic_id merge_topic (topic_row_of p name) tbl)
  end.

Definition level_id (l : option level) : option string := l ≫= lv_id.
Definition level_name (l : option level) : option string := l ≫= lv_name.

Definition topic_params_of (tid : string) (tdisp : option string)
    (sub fld dom : option level) : topic_params :=
  {| tp_topic_id := tid; tp_display_name := tdisp;
     tp_subfield_id := level_id sub; tp_subfield := level_name sub;
     tp_field_id := level_id fld; tp_field := level_name fld;
     tp_domain_id := level_id dom; tp_domain := level_name dom |}.

Definition exec_insert_topic (p : topic_params) : M state unit :=
  fun w =>
    match insert_topic p (topics (db (store w))) with
    | None => Raise (IntegrityError "topics.display_name") w
    | Some tbl => modify (on_db (set_topics tbl)) w
    end.

Definition upsert_author (a : author) : M state unit :=
  let lkis := a_last_known_institutions a in
  let inst_id := match lkis with i :: _ => fst i | [] => None end in
  let inst_name := match lkis with i :: _ => snd i | [] => None end in
  match a_display_name a with
  | None => raise (IntegrityError "authors.display_name")
  | Some name =>
      let row := {| ar_author_id := a_id a;
                    ar_display_name := name;
                    ar_orcid := PyStr.remove_all "https://orcid.org/"
                                  (PyStr.or_empty (a_orcid a));
                    ar_works_count := a_works_count a;
                    ar_last_known_institution_id := inst_id;
                    ar_last_known_institution_name := inst_name |} in
      modify (on_db (fun d =>
        set_authors (upsert ar_author_id (fun _ new => new) row (authors d)) d))
  end.

Definition work_row_of (wk : work) : work_row :=
  {| wr_work_id := w_id wk;
     wr_title := w_display_name wk;
     wr_publication_year := w_publication_year wk;
     wr_doi := w_doi wk |}.

Definition upsert_work (wk : work) : M state unit :=
  modify (on_db (fun d =>
    set_works (upsert wr_work_id (fun _ new => new) (work_row_of wk)
                 (works_2025 d)) d)).

Section Run.
Variable srv : server.
Variable NUST_INST_ID : string.
Variable YEAR : Z.

Definition get_with_retry {B} (ep : list request -> response B) (rq : request)
    : M state (response B) :=
  Fetcher.get_with_retry BASE_DELAY ep rq.

Definition get_topic_details (topic_id : string) : M state details :=
  fun w =>
    match topic_cache (store w) !! topic_id with
    | Some d => Ok d w
    | None =>
        let short := PyStr.last_segment "/" topic_id in
        (resp <~ get_with_retry (fun h => topics_endpoint srv h short)
                   (GetTopic short) ;;
         let d := normalize (json resp) in
         modify (fun s => {| db := db s;
                             topic_cache := <[topic_id := d]> (topic_cache s);
                             seen_work_ids := seen_work_ids s |}) ;;;
         ret d)%eff w
    end.

(** The hierarchy [upsert_topic] writes: the payload's own, with the gaps
    filled from the resolver when field or domain is missing and the
    resolver answers. *)
Definition enrich (tid : string) (t : topic_ref) : M state topic_params :=
  let tdisp := t_display_name t in
  let sub := t_subfield t in
  let fld := t_field t in
  let dom := t_domain t in
  if bool_decide (is_Some fld ∧ is_Some dom) then
    ret (topic_params_of tid tdisp sub fld dom)
  else
    fun w =>
      match get_topic_details tid w with
      | Ok full w' =>
          Ok (topic_params_of tid (str_or tdisp (d_display_name full))
                (dict_or sub (d_subfield full))
                (dict_or fld (d_field full))
                (dict_or dom (d_domain full))) w'
      | Raise (HTTPError b s) w' =>
          Ok (topic_params_of tid tdisp sub fld dom)
             (log (EvPrint (TopicEnrichFailed tid (HTTPError b s))) w')
      | Raise e w' => Raise e w'
      | OutOfFuel => OutOfFuel
      end.

Definition upsert_topic (t : topic_ref) : M state (option string) :=
  match t_id t with
  | None => ret None
  | Some tid =>
      (p <~ enrich tid t ;;
       exec_insert_topic p ;;;
       ret (Some tid))%eff
  end.

Definition link_topic (work_id : string) (is_primary : Z) (t : topic_ref)
    : M state unit :=
  match t_id t with
  | None => ret tt
  | Some _ =>
      (tid <~ upsert_topic t ;;
       modify (on_db (fun d =>
         set_work_topics
           (insert_or_ignore work_topic_key
              {| wt_work_id := work_id;
                 wt_topic_id := default EmptyString tid;
                 wt_score := t_score t;
                 wt_is_primary := is_primary |} (work_topics_2025 d)) d)))%eff
  end.

Definition attach_work_topics (work_id : string) (wk : work) : M state unit :=
  (match w_primary_topic wk with
   | Some pt => link_topic work_id 1 pt
   | None => ret tt
   end ;;;
   for_each (link_topic work_id 0) (w_topics wk))%eff.

Definition is_nust (au : authorship) : Z :=
  if existsb (fun i => bool_decide (inst_id i = Some NUST_INST_ID))
       (au_institutions au)
  then 1 else 0.

(** One turn of the loop of [attach_authorships] on the link table. *)
Definition insert_authorship (work_id : string) (tbl : list authorship_row)
    (au : authorship) : list authorship_row :=
  if PyStr.truthy (au_author_id au) then
    insert_or_ignore authorship_key
      {| as_work_id := work_id;
         as_author_id := PyStr.or_empty (au_author_id au);
         as_author_position := au_author_position au;
         as_is_nust_affiliation := is_nust au |} tbl
  else tbl.

Definition attach_authorships (work_id : string) (wk : work) : M state unit :=
  modify (on_db (fun d =>
    set_authorships
      (fold_left (insert_authorship work_id) (w_authorships wk)
         (authorships_2025 d)) d)).

Definition iter_authors (fuel : nat) (body : author -> M state unit)
    : M state unit :=
  paginate fuel
    (fun cursor =>
       get_with_retry (fun h => authors_endpoint srv h cursor) (GetAuthors cursor))
    SLEEP_BETWEEN body "*".

Definition iter_author_works_2025 (fuel : nat) (author_id : string)
    (body : work -> M state unit) : M state unit :=
  paginate fuel
    (fun cursor =>
       get_with_retry (fun h => works_endpoint srv h author_id YEAR cursor)
         (GetWorks author_id YEAR cursor))
    SLEEP_BETWEEN body "*".

(** The body of [for wk in iter_author_works_2025(aid)] *)
Definition work_body (wk : work) : M state unit :=
  (upsert_work wk ;;;
   attach_authorships (w_id wk) wk ;;;
   attach_work_topics (w_id wk) wk ;;;
   modify (fun s => {| db := db s; topic_cache := topic_cache s;
                       seen_work_ids := {[ w_id wk ]} ∪ seen_work_ids s |}))%eff.

(** The [try] ... [except r.HTTPError] around one author *)
Definition author_works (fuel : nat) (aid : string) : M state unit :=
  fun w =>
    match iter_author_works_2025 fuel aid work_body w with
    | Raise (HTTPError b s) w' =>
        Ok tt (log (EvPrint (WorksFetchFailed aid YEAR (HTTPError b s))) w')
    | o => o
    end.

(** Step 2 of [main] *)
Definition harvest_works (fuel : nat) (ids : list string) : M state unit :=
  for_each (author_works fuel) ids.

(** [main], from the database found at [DB_PATH]; the author ids of step 2
    are those of table [authors], in the order
    [SELECT author_id FROM authors] gives them: the query is answered from
    the index of the primary key.  Commits, the printed counts and the
    report are left out. *)
Definition main (fuel : nat) : M state unit :=
  (modify (fun s => {| db := db s; topic_cache := topic_cache s;
                       seen_work_ids := ∅ |}) ;;;
   iter_authors fuel upsert_author ;;;
   fun w =>
     harvest_works fuel
       (index_order (map ar_author_id (authors (db (store w))))) w)%eff.

End Run.

End NustAuthors.

(** ** The exported view ([conf_jour_outputs.py], [init_db] and
    [export_counts_csv]) *)

Module CountsView.
Import Sql.

(** A row of [v_counts_per_person_year]. *)
Record count_row := {
  cr_author_id : string;
  cr_display_name : string;
  cr_year : Z;
  cr_journal_count : nat;
  cr_conference_count : nat;
  cr_total_outputs : nat
}.

(** [fact_authorships_works f JOIN authors a ON a.author_id = f.author_id
    WHERE f.year IS NOT NULL]: each fact with a year, with every author row
    of its author id. *)
Definition joined (d : ConfJour.database)
    : list (author_row * ConfJour.fact_row * Z) :=
  flat_map
    (fun f =>
       match ConfJour.fr_year f with
       | Some y =>
           map (fun a => (a, f, y))
             (filter (fun a => ar_author_id a = ConfJour.fr_author_id f)
                (ConfJour.authors d))
       | None => []
       end)
    (ConfJour.fact_authorships_works d).

(** The [GROUP BY a.author_id, a.display_name, f.year] key of a joined
    row. *)
Definition group_of (j : author_row * ConfJour.fact_row * Z)
    : string * string * Z :=
  (ar_author_id (fst (fst j)), ar_display_name (fst (fst j)), snd j).

Definition in_group (d : ConfJour.database) (g : string * string * Z)
    : list (author_row * ConfJour.fact_row * Z) :=
  filter (fun j => group_of j = g) (joined d).

(** [SUM(CASE WHEN f.venue_type = v THEN 1 ELSE 0 END)] over a group *)
Definition count_venue (v : string)
    (rows : list (author_row * ConfJour.fact_row * Z)) : nat :=
  length (filter (fun j => ConfJour.fr_venue_type (snd (fst j)) = v) rows).

Definition count_row_of (d : ConfJour.database) (g : string * string * Z)
    : count_row :=
  {| cr_author_id := fst (fst g);
     cr_display_name := snd (fst g);
     cr_year := snd g;
     cr_journal_count := count_venue "journal" (in_group d g);
     cr_conference_count := count_venue "conference" (in_group d g);
     cr_total_outputs := length (in_group d g) |}.

(** The view: one row per group.  SQL leaves the order of the rows open;
    here the groups come in the order [remove_dups] gives them. *)
Definition v_counts_per_person_year (d : ConfJour.database) : list count_row :=
  map (count_row_of d) (remove_dups (map group_of (joined d))).

(** [export_counts_csv]: the header and the rows written to the file. *)
Definition export_counts_csv (d : ConfJour.database)
    : list string * list count_row :=
  (["author_id"; "display_name"; "year"; "journal_count"; "conference_count";
    "total_outputs"],
   v_counts_per_person_year d).

End CountsView.

(** ** Specification-side definitions *)

Module Spec.
Import Eff Fetcher.

(** The delay slept before retry number [k + 1]. *)
Definition delay_at (base : float) (k : nat) : float :=
  Nat.iter k (fun d => (d * RETRY_BACKOFF)%float) base.

(** What [n] failed attempts of one request add to the trace (newest
    first): each attempt is a request followed by a sleep. *)
Definition retried (rq : request) (base : float) (n : nat) : list event :=
  flat_map (fun k => [EvSleep (delay_at base k); EvRequest rq]) (rev (seq 0 n)).

(** The world after [n] failed attempts and one more request. *)
Definition after_attempts {D} (rq : request) (base : float) (n : nat)
    (w : world D) : world D :=
  {| trace := EvRequest rq :: retried rq base n ++ trace w; store := store w |}.

(** The answer to attempt number [k] (from 0) of a request first issued in
    world [w]: the service has then seen [k] more copies of it. *)
Definition answer {D B} (ep : list request -> response B) (rq : request)
    (w : world D) (k : nat) : response B :=
  ep (replicate k rq ++ history w).

(** One page request through the retrying fetcher. *)
Definition fetch_page {D A} (ep : list request -> string -> response (page A))
    (mkrq : string -> request) (base : float) (cursor : string)
    : M D (response (page A)) :=
  get_with_retry base (fun h => ep h cursor) (mkrq cursor).

(** A service that answers the cursors of a collection with the pages
    [ps], whatever it has seen before: page by page, each non-final page
    naming the cursor of the next one, the final page with no cursor. *)
Inductive serves {A} (ep : list request -> string -> response (page A))
    : string -> list (page A) -> Prop :=
  | serves_last c p :
      (forall h, ep h c = {| status_code := 200; json := p |}) ->
      PyStr.truthy (next_cursor p) = false ->
      serves ep c [p]
  | serves_more c p c' ps :
      (forall h, ep h c = {| status_code := 200; json := p |}) ->
      next_cursor p = Some c' ->
      PyStr.truthy (next_cursor p) = true ->
      serves ep c' ps ->
      serves ep c (p :: ps).

(** Draining the pages [ps] one request each: request, then the loop body
    on every record of the page, then (when a page follows) the pause. *)
Fixpoint drain {D A} (mkrq : string -> request) (pause : float)
    (body : A -> M D unit) (cursor : string) (ps : list (page A)) : M D unit :=
  match ps with
  | [] => ret tt
  | p :: rest =>
      (emit (EvRequest (mkrq cursor)) ;;;
       for_each body (results p) ;;;
       match rest with
       | [] => ret tt
       | _ :: _ =>
           emit (EvSleep pause) ;;;
           drain mkrq pause body (PyStr.or_empty (next_cursor p)) rest
       end)%eff
  end.

(** The cursors requested while draining [ps] from [cursor]. *)
Fixpoint cursors_of {A} (cursor : string) (ps : list (page A)) : list string :=
  match ps with
  | [] => []
  | p :: rest => cursor :: cursors_of (PyStr.or_empty (next_cursor p)) rest
  end.

(** A consumer that notes, with each record, how many requests had been
    made when it received it. *)
Definition recorder {A} (a : A) : M (list (A * nat)) unit :=
  fun w => Ok tt {| trace := trace w;
                    store := store w ++ [(a, length (history w))] |}.

(** Records of page number [k] (from 0), each stamped [n + k + 1]. *)
Fixpoint stamped {A} (n : nat) (ps : list (page A)) : list (A * nat) :=
  match ps with
  | [] => []
  | p :: rest => map (fun a => (a, S n)) (results p) ++ stamped (S n) rest
  end.

(** A set of cursors the service never leads out of: each is answered,
    whatever came before, by a page that names a non-empty cursor of the
    set again. *)
Definition cursor_trap {A} (ep : list request -> string -> response (page A))
    (S : string -> Prop) : Prop :=
  forall c, S c ->
    exists p c',
      (forall h, ep h c = {| status_code := 200; json := p |})
      /\ next_cursor p = Some c' /\ PyStr.truthy (Some c') = true /\ S c'.

(** A loop body that never raises. *)
Definition never_raises {D A} (body : A -> M D unit) : Prop :=
  forall a w, exists w', body a w = Ok tt w'.








(** The six hierarchy columns of table [topics], each with the parameter
    of the insert statement that feeds it. *)
Definition hierarchy_columns
    : list ((NustAuthors.topic_row -> option string)
            * (NustAuthors.topic_params -> option string)) :=
  [ (NustAuthors.tr_subfield_id, NustAuthors.tp_subfield_id);
    (NustAuthors.tr_subfield, NustAuthors.tp_subfield);
    (NustAuthors.tr_field_id, NustAuthors.tp_field_id);
    (NustAuthors.tr_field, NustAuthors.tp_field);
    (NustAuthors.tr_domain_id, NustAuthors.tp_domain_id);
    (NustAuthors.tr_domain, NustAuthors.tp_domain) ].

(** The domain the resolver reads in the body of [GET /topics/{id}]: the
    one inside the field when the field has one, else the body's own. *)
Definition body_domain (obj : topic_obj) : option level :=
  match to_field_domain obj with
  | Some l => Some l
  | None => to_domain obj
  end.

(** The six hierarchy columns of table [topics], each with the level it
    is read from in a topic payload, in a resolved record and in the body
    of [GET /topics/{id}], and the key read in that level. *)
Definition hierarchy_levels
    : list ((NustAuthors.topic_row -> option string)
            * (topic_ref -> option level)
            * (NustAuthors.details -> option level)
            * (topic_obj -> option level)
            * (level -> option string)) :=
  [ (NustAuthors.tr_subfield_id, t_subfield, NustAuthors.d_subfield,
     to_subfield, lv_id);
    (NustAuthors.tr_subfield, t_subfield, NustAuthors.d_subfield,
     to_subfield, lv_name);
    (NustAuthors.tr_field_id, t_field, NustAuthors.d_field, to_field, lv_id);
    (NustAuthors.tr_field, t_field, NustAuthors.d_field, to_field, lv_name);
    (NustAuthors.tr_domain_id, t_domain, NustAuthors.d_domain, body_domain,
     lv_id);
    (NustAuthors.tr_domain, t_domain, NustAuthors.d_domain, body_domain,
     lv_name) ].

(** The value one upsert of the payload [t] carries for a column: the
    payload's own when the payload has the level; else, when the payload
    lacks field or domain and the topic resolved to [full], the resolved
    one. *)
Definition carried (lvl : topic_ref -> option level)
    (dlv : NustAuthors.details -> option level) (key : level -> option string)
    (t : topic_ref) (resolved : option NustAuthors.details) : option string :=
  match lvl t with
  | Some l => key l
  | None =>
      if bool_decide (is_Some (t_field t) /\ is_Some (t_domain t)) then None
      else (resolved ≫= dlv) ≫= key
  end.

(** The field name a topic payload carries. *)
Definition level_name_of_field (t : topic_ref) : option string :=
  t_field t ≫= lv_name.

(** The row of topic [tid], if stored. *)
Definition topic_row_at (tid : string) (w : world NustAuthors.state)
    : option NustAuthors.topic_row :=
  Sql.select NustAuthors.tr_topic_id tid
    (NustAuthors.topics (NustAuthors.db (store w))).

(** Every cached entry is the normal form of a body the topics endpoint
    sent with status 200 for that topic. *)
Definition cache_sound (srv : server) (c : gmap string NustAuthors.details)
    : Prop :=
  forall tid d, c !! tid = Some d ->
    exists h,
      status_code (topics_endpoint srv h (PyStr.last_segment "/" tid)) = 200
      /\ d = NustAuthors.normalize
               (json (topics_endpoint srv h (PyStr.last_segment "/" tid))).

(** The authorship names author [a], whose id is not empty. *)
Definition lists_author (a : string) (au : authorship) : bool :=
  bool_decide (au_author_id au = Some a) && PyStr.truthy (Some a).

(** Work [w] has id [wid] and lists author [a]. *)
Definition observed (a wid : string) (w : work) : bool :=
  bool_decide (w_id w = wid) && existsb (lists_author a) (w_authorships w).

(** The fact rows one work adds, authorship by authorship. *)
Definition facts_of_work (w : work) (aus : list authorship)
    (tbl : list ConfJour.fact_row) : list ConfJour.fact_row :=
  fold_left (ConfJour.insert_fact w) aus tbl.

(** The first work of a stream that pairs author [a] with work [wid]. *)
Definition first_observation (a wid : string) (ws : list work) : option work :=
  List.find (observed a wid) ws.

(** The database after the loop body of [conf_jour_outputs.py] has run on
    the works [ws], in order. *)
Definition processed (ws : list work) (d : ConfJour.database)
    : ConfJour.database :=
  fold_left (fun d w => ConfJour.upsert_fact_db w (ConfJour.upsert_work_db w d))
    ws d.

(** The fact row work [w] gives author [a]. *)
Definition fact_of (a : string) (w : work) : ConfJour.fact_row :=
  {| ConfJour.fr_author_id := a;
     ConfJour.fr_work_id := w_id w;
     ConfJour.fr_year := w_publication_year w;
     ConfJour.fr_venue_type := Venue.classify_venue_type w |}.

(** What [upsert_work] and [attach_authorships] do to the database of
    [nust_authors.py] for one work. *)
Definition nust_links_of (inst : string) (wk : work) (d : NustAuthors.database)
    : NustAuthors.database :=
  let d1 := NustAuthors.set_works
              (Sql.upsert NustAuthors.wr_work_id (fun _ new => new)
                 (NustAuthors.work_row_of wk) (NustAuthors.works_2025 d)) d in
  NustAuthors.set_authorships
    (fold_left (NustAuthors.insert_authorship inst (w_id wk)) (w_authorships wk)
       (NustAuthors.authorships_2025 d1)) d1.

(** The service refuses the first page of the works of an author and
    year: no request for it is ever answered 200. *)
Definition refused (srv : server) (aid : string) (yr : Z) : Prop :=
  forall h, status_code (works_endpoint srv h aid yr "*") <> 200.

(** The service serves the works of an author and year as the pages [ps]. *)
Definition served (srv : server) (aid : string) (yr : Z)
    (ps : list (page work)) : Prop :=
  serves (fun h c => works_endpoint srv h aid yr c) "*" ps.

(** From [w] to [w']: no work row and no printed warning is lost. *)
Definition grows (w w' : world ConfJour.state) : Prop :=
  (forall k, Sql.has_key ConfJour.wr_work_id k (ConfJour.works (ConfJour.db (store w))) ->
             Sql.has_key ConfJour.wr_work_id k (ConfJour.works (ConfJour.db (store w'))))
  /\ (forall m, m ∈ prints_of (trace w) -> m ∈ prints_of (trace w')).

(** [m] never ends in an [HTTPError]. *)
Definition no_http_error {D X} (m : M D X) : Prop :=
  forall w b s w', m w <> Raise (HTTPError b s) w'.

(** [m] keeps the property [I] of the store, however it ends. *)
Definition preserves {D X} (I : D -> Prop) (m : M D X) : Prop :=
  forall w, I (store w) ->
    match m w with
    | Ok _ w' | Raise _ w' => I (store w')
    | OutOfFuel => True
    end.

(** Every fact row names a work of table [works]. *)
Definition facts_have_works (d : ConfJour.database) : Prop :=
  forall r, r ∈ ConfJour.fact_authorships_works d ->
    Sql.has_key ConfJour.wr_work_id (ConfJour.fr_work_id r) (ConfJour.works d).

(** Every fact row names an author of table [authors]. *)
Definition facts_have_authors (d : ConfJour.database) : Prop :=
  forall r, r ∈ ConfJour.fact_authorships_works d ->
    Sql.has_key Sql.ar_author_id (ConfJour.fr_author_id r) (ConfJour.authors d).

(** Every authorship link names a work of table [works_2025]. *)
Definition links_have_works (d : NustAuthors.database) : Prop :=
  forall r, r ∈ NustAuthors.authorships_2025 d ->
    Sql.has_key NustAuthors.wr_work_id (NustAuthors.as_work_id r)
      (NustAuthors.works_2025 d).

(** From [w] to [w'] in a run of [nust_authors.py]: no work row and no
    printed warning is lost. *)
Definition nust_grows (w w' : world NustAuthors.state) : Prop :=
  (forall k,
     Sql.has_key NustAuthors.wr_work_id k
       (NustAuthors.works_2025 (NustAuthors.db (store w))) ->
     Sql.has_key NustAuthors.wr_work_id k
       (NustAuthors.works_2025 (NustAuthors.db (store w'))))
  /\ (forall m, m ∈ prints_of (trace w) -> m ∈ prints_of (trace w')).

(** However [m] ends, the world it leaves is related by [R] to the world
    it started in. *)
Definition relates {D X} (R : world D -> world D -> Prop) (m : M D X) : Prop :=
  forall w,
    match m w with
    | Ok _ w' | Raise _ w' => R w w'
    | OutOfFuel => True
    end.

(** The only errors [m] raises are [HTTPError]s. *)
Definition raises_http_only {D X} (m : M D X) : Prop :=
  forall w e w', m w = Raise e w' -> exists b s, e = HTTPError b s.

(** A service that answers the cursors of a collection with the pages
    [ps], each naming the cursor of the next one, and never answers 200 to
    the cursor the last of them names (to the first cursor, when [ps] is
    empty). *)
Inductive serves_until {A} (ep : list request -> string -> response (page A))
    : string -> list (page A) -> Prop :=
  | until_refused c :
      (forall h, status_code (ep h c) <> 200) ->
      serves_until ep c []
  | until_more c p c' ps :
      (forall h, ep h c = {| status_code := 200; json := p |}) ->
      next_cursor p = Some c' ->
      PyStr.truthy (next_cursor p) = true ->
      serves_until ep c' ps ->
      serves_until ep c (p :: ps).

(** The service serves the pages [ps] of the works of an author and year
    and fails on the page after them. *)
Definition served_until (srv : server) (aid : string) (yr : Z)
    (ps : list (page work)) : Prop :=
  serves_until (fun h c => works_endpoint srv h aid yr c) "*" ps.

(** The listing of the works of an author and year ends within the fuel,
    in success or in error, whatever has happened before. *)
Definition cj_fetch_ends (srv : server) (fuel : nat) (aid : string) (yr : Z)
    : Prop :=
  forall w,
    ConfJour.iter_author_works_year srv fuel aid yr ConfJour.work_body w
    <> OutOfFuel.

(** The same for [nust_authors.py], where the loop body can also fail on
    the database (a topic without display name): the listing ends within
    the fuel, in success or in a fetch error. *)
Definition nust_fetch_settles (srv : server) (inst : string) (yr : Z)
    (fuel : nat) (aid : string) : Prop :=
  forall w,
    match NustAuthors.iter_author_works_2025 srv yr fuel aid
            (NustAuthors.work_body srv inst) w with
    | Ok _ _ | Raise (HTTPError _ _) _ => True
    | _ => False
    end.

(** Work [wk] has a row in table [works] / [works_2025]. *)
Definition cj_stored (wk : work) (w : world ConfJour.state) : Prop :=
  Sql.has_key ConfJour.wr_work_id (w_id wk)
    (ConfJour.works (ConfJour.db (store w))).

Definition nust_stored (wk : work) (w : world NustAuthors.state) : Prop :=
  Sql.has_key NustAuthors.wr_work_id (w_id wk)
    (NustAuthors.works_2025 (NustAuthors.db (store w))).

(** One author and year of step 2 of [conf_jour_outputs.py], seen from the
    world [w'] the run ends in.  The fetch ran, from some world [wa]; a
    fetch error was caught, the loop going on from the store the fetch had
    reached, and the warning naming the author and year is among those
    printed; no work row the loop had then is lost up to [w']. *)
Definition cj_isolated (srv : server) (fuel : nat) (aid : string) (yr : Z)
    (w' : world ConfJour.state) : Prop :=
  exists wa wb,
    ConfJour.author_year srv fuel aid yr wa = Ok tt wb
    /\ grows wb w'
    /\ match ConfJour.iter_author_works_year srv fuel aid yr
               ConfJour.work_body wa with
       | Ok _ w1 => wb = w1
       | Raise e w1 =>
           (exists b s, e = HTTPError b s)
           /\ store wb = store w1
           /\ WorksFetchFailed aid yr e ∈ prints_of (trace w')
       | OutOfFuel => False
       end.

Definition nust_isolated (srv : server) (inst : string) (yr : Z) (fuel : nat)
    (aid : string) (w' : world NustAuthors.state) : Prop :=
  exists wa wb,
    NustAuthors.author_works srv inst yr fuel aid wa = Ok tt wb
    /\ nust_grows wb w'
    /\ match NustAuthors.iter_author_works_2025 srv yr fuel aid
               (NustAuthors.work_body srv inst) wa with
       | Ok _ w1 => wb = w1
       | Raise e w1 =>
           (exists b s, e = HTTPError b s)
           /\ store wb = store w1
           /\ WorksFetchFailed aid yr e ∈ prints_of (trace w')
       | OutOfFuel => False
       end.

(** What step 2 of [conf_jour_outputs.py] has done for an author and year
    when the run ends in [w']: the fetch was isolated; when the service
    serves the works in pages, every work of every page has a row; when
    it serves some pages and fails on the next, the warning is printed
    and every work of the pages received has a row all the same. *)
Definition cj_harvested (srv : server) (fuel : nat) (aid : string) (yr : Z)
    (w' : world ConfJour.state) : Prop :=
  cj_isolated srv fuel aid yr w'
  /\ (forall ps, served srv aid yr ps -> (length ps <= fuel)%nat ->
        forall wk, wk ∈ concat (map results ps) -> cj_stored wk w')
  /\ (forall ps, served_until srv aid yr ps -> (length ps < fuel)%nat ->
        (exists e, WorksFetchFailed aid yr e ∈ prints_of (trace w'))
        /\ forall wk, wk ∈ concat (map results ps) -> cj_stored wk w').

Definition nust_harvested (srv : server) (inst : string) (yr : Z) (fuel : nat)
    (aid : string) (w' : world NustAuthors.state) : Prop :=
  nust_isolated srv inst yr fuel aid w'
  /\ (forall ps, served srv aid yr ps -> (length ps <= fuel)%nat ->
        forall wk, wk ∈ concat (map results ps) -> nust_stored wk w')
  /\ (forall ps, served_until srv aid yr ps -> (length ps < fuel)%nat ->
        (exists e, WorksFetchFailed aid yr e ∈ prints_of (trace w'))
        /\ forall wk, wk ∈ concat (map results ps) -> nust_stored wk w').

(** From [w] to [w'] in a run of [nust_authors.py]: no author row is
    lost. *)
Definition nust_authors_grow (w w' : world NustAuthors.state) : Prop :=
  forall k,
    Sql.has_key Sql.ar_author_id k
      (NustAuthors.authors (NustAuthors.db (store w))) ->
    Sql.has_key Sql.ar_author_id k
      (NustAuthors.authors (NustAuthors.db (store w'))).

(** Author [a] has a row in table [authors]. *)
Definition nust_author_stored (a : author) (w : world NustAuthors.state)
    : Prop :=
  Sql.has_key Sql.ar_author_id (a_id a)
    (NustAuthors.authors (NustAuthors.db (store w))).

End Spec.

(** ** Further specification-side definitions *)

Module Props.
Import Eff Fetcher.

(** The number a finite float stands for, [None] for an infinity or a
    NaN. *)
Definition exact (f : float) : option Q :=
  match Prim2SF f with
  | S754_zero _ => Some 0%Q
  | S754_finite s m e =>
      let v := (inject_Z (Z.pos m) * 2 ^ e)%Q in
      Some (if s then Qopp v else v)
  | _ => None
  end.

(** The time slept in [n] retries, from the base delay [base]: the sum of
    the numbers the delays stand for. *)
Definition total_delay (base : float) (n : nat) : option Q :=
  fold_right
    (fun d acc =>
       match exact d, acc with
       | Some q, Some a => Some (q + a)%Q
       | _, _ => None
       end)
    (Some 0%Q) (map (Spec.delay_at base) (seq 0 n)).

(** The venue types of the schema. *)
Definition venue_types : list string := ["journal"; "conference"; "other"].

(** The separator occurs in the string. *)
Definition has_sep (sep : ascii) (s : string) : bool :=
  existsb (Ascii.eqb sep) (list_ascii_of_string s).

(** The scheme and host [upsert_author] strips from an ORCID. *)
Definition ORCID_PREFIX : string := "https://orcid.org/".

(** The author row [upsert_author] writes for [a], named [name]. *)
Definition author_row_of (a : author) (name : string) : Sql.author_row :=
  {| Sql.ar_author_id := a_id a;
     Sql.ar_display_name := name;
     Sql.ar_orcid := PyStr.remove_all ORCID_PREFIX (PyStr.or_empty (a_orcid a));
     Sql.ar_works_count := a_works_count a;
     Sql.ar_last_known_institution_id :=
       match a_last_known_institutions a with i :: _ => fst i | [] => None end;
     Sql.ar_last_known_institution_name :=
       match a_last_known_institutions a with i :: _ => snd i | [] => None end |}.

(** The uniqueness constraints of the schema of [conf_jour_outputs.py]. *)
Definition cj_schema_ok (d : ConfJour.database) : Prop :=
  Sql.unique Sql.ar_author_id (ConfJour.authors d)
  /\ Sql.unique ConfJour.wr_work_id (ConfJour.works d)
  /\ Sql.unique ConfJour.fact_key (ConfJour.fact_authorships_works d).

(** The uniqueness constraints of the schema of [nust_authors.py]. *)
Definition nust_schema_ok (d : NustAuthors.database) : Prop :=
  Sql.unique Sql.ar_author_id (NustAuthors.authors d)
  /\ Sql.unique NustAuthors.wr_work_id (NustAuthors.works_2025 d)
  /\ Sql.unique NustAuthors.authorship_key (NustAuthors.authorships_2025 d)
  /\ Sql.unique NustAuthors.tr_topic_id (NustAuthors.topics d)
  /\ Sql.unique NustAuthors.work_topic_key (NustAuthors.work_topics_2025 d).

(** Every work-topic link names a topic of [topics] and a work of
    [works_2025]. *)
Definition topic_links_ok (d : NustAuthors.database) : Prop :=
  forall r, r ∈ NustAuthors.work_topics_2025 d ->
    Sql.has_key NustAuthors.tr_topic_id (NustAuthors.wt_topic_id r)
      (NustAuthors.topics d)
    /\ Sql.has_key NustAuthors.wr_work_id (NustAuthors.wt_work_id r)
         (NustAuthors.works_2025 d).

(** The link row [attach_authorships] writes for an authorship. *)
Definition authorship_row_of (inst wid : string) (au : authorship)
    : NustAuthors.authorship_row :=
  {| NustAuthors.as_work_id := wid;
     NustAuthors.as_author_id := PyStr.or_empty (au_author_id au);
     NustAuthors.as_author_position := au_author_position au;
     NustAuthors.as_is_nust_affiliation := NustAuthors.is_nust inst au |}.

(** The fact rows one work offers, one per authorship with a non-empty
    author id. *)
Definition rows_of_work (w : work) : list ConfJour.fact_row :=
  omap (fun au => if PyStr.truthy (au_author_id au)
                  then Some (Spec.fact_of (PyStr.or_empty (au_author_id au)) w)
                  else None)
    (w_authorships w).

(** A sequence of overwriting upserts, and one of ignoring inserts. *)
Definition upsert_all {R K} `{EqDecision K} (key : R -> K) (rs tbl : list R)
    : list R :=
  fold_left (fun t r => Sql.upsert key (fun _ n => n) r t) rs tbl.

Definition insert_all {R K} `{EqDecision K} (key : R -> K) (rs tbl : list R)
    : list R :=
  fold_left (fun t r => Sql.insert_or_ignore key r t) rs tbl.

End Props.

(** ** Sample payloads and services *)

Module Samples.
Import Eff.

Definition start {D} (d : D) : world D := {| trace := []; store := d |}.

Definition ok {B} (b : B) : response B := {| status_code := 200; json := b |}.

Definition failing {B} (s : Z) (b : B) : response B :=
  {| status_code := s; json := b |}.

Definition no_page {A} : page A := {| results := []; next_cursor := None |}.

Definition no_topic : topic_obj :=
  {| to_id := None; to_display_name := None; to_subfield := None;
     to_field := None; to_field_domain := None; to_domain := None |}.

Definition by_author (aid : string) : authorship :=
  {| au_author_id := Some aid; au_author_position := Some "first";
     au_institutions := [] |}.

Definition mk_work (id : string) (year : Z) (src crossref : option string)
    (aids : list string) : work :=
  {| w_id := id; w_display_name := Some id;
     w_publication_year := Some year; w_doi := None;
     w_authorships := map by_author aids;
     w_primary_location :=
       Some {| loc_source := Some {| src_type := src |} |};
     w_type := Some "article"; w_type_crossref := crossref;
     w_primary_topic := None; w_topics := [] |}.

Definition mk_author (id : string) : author :=
  {| a_id := id; a_display_name := Some id; a_orcid := None;
     a_works_count := Some 1; a_last_known_institutions := [] |}.

Definition W1 : work := mk_work "W1" 2024 (Some "journal") None ["A1"].
Definition W2 : work := mk_work "W2" 2024 None (Some "proceedings-article") ["A1"; "A9"].
Definition W3 : work := mk_work "W3" 2024 (Some "Conference ") (Some "journal-article") ["A1"].
Definition W4 : work := mk_work "W4" 2024 None None ["A3"].

(** [W2] again, as a later page reports it: other year, other venue. *)
Definition W2_later : work := mk_work "W2" 2025 (Some "journal") None ["A1"].

Definition cj_db_empty : ConfJour.database :=
  {| ConfJour.authors := []; ConfJour.works := [];
     ConfJour.fact_authorships_works := [] |}.

Definition page1 : page work := {| results := [W1; W2]; next_cursor := Some "c2" |}.
Definition page2 : page work := {| results := [W3]; next_cursor := Some "" |}.

(** Answers 503 twice, then 200. *)
Definition flaky (h : list request) : response (page work) :=
  if (length h <? 2)%nat then failing 503 no_page else ok page1.

Definition forbidden (h : list request) : response (page work) :=
  failing 403 no_page.

(** Answers 429, 500, 502, 503, 429 and from then on 504. *)
Definition throttled (h : list request) : response (page work) :=
  failing (nth (length h) [429; 500; 502; 503; 429] 504) no_page.

(** Three authors.  In 2024, [A1] has two pages of works and [A3] one;
    every request for the works of [A2] is answered 503. *)
Definition harvest_srv : server :=
  {| authors_endpoint := fun _ c =>
       if bool_decide (c = "*")
       then ok {| results := map mk_author ["A1"; "A2"; "A3"];
                  next_cursor := None |}
       else failing 404 no_page;
     works_endpoint := fun _ aid yr c =>
       if bool_decide (aid = "A2") then failing 503 no_page
       else if bool_decide (yr = 2024 /\ aid = "A1" /\ c = "*") then ok page1
       else if bool_decide (yr = 2024 /\ aid = "A1" /\ c = "c2") then ok page2
       else if bool_decide (yr = 2024 /\ aid = "A3" /\ c = "*")
            then ok {| results := [W4]; next_cursor := None |}
       else if bool_decide (c = "*") then ok no_page
       else failing 404 no_page;
     topics_endpoint := fun _ _ => failing 404 no_topic |}.

(** Every page of authors is empty and names the cursor ["*"] again. *)
Definition looping_srv : server :=
  {| authors_endpoint := fun _ _ =>
       ok {| results := []; next_cursor := Some "*" |};
     works_endpoint := fun _ _ _ _ => ok no_page;
     topics_endpoint := fun _ _ => failing 404 no_topic |}.

Definition cj_empty : ConfJour.state :=
  {| ConfJour.db := {| ConfJour.authors := []; ConfJour.works := [];
                       ConfJour.fact_authorships_works := [] |};
     ConfJour.author_ids := []; ConfJour.seen_works := ∅ |}.

Definition nust_empty : NustAuthors.state :=
  {| NustAuthors.db := {| NustAuthors.authors := [];
                          NustAuthors.works_2025 := [];
                          NustAuthors.authorships_2025 := [];
                          NustAuthors.topics := [];
                          NustAuthors.work_topics_2025 := [] |};
     NustAuthors.topic_cache := ∅; NustAuthors.seen_work_ids := ∅ |}.

Definition W5 : work := mk_work "W5" 2024 (Some "journal") None ["A2"].

(** The works of [A2] in 2024: a first page that names a second one, and
    a second one the service answers 404. *)
Definition partial_srv : server :=
  {| authors_endpoint := fun _ _ =>
       ok {| results := [mk_author "A2"]; next_cursor := None |};
     works_endpoint := fun _ _ _ c =>
       if bool_decide (c = "*")
       then ok {| results := [W5]; next_cursor := Some "c2" |}
       else failing 404 no_page;
     topics_endpoint := fun _ _ => failing 404 no_topic |}.

Definition T1 : string := "https://openalex.org/T1".

Definition T1_stored : NustAuthors.topic_row :=
  {| NustAuthors.tr_topic_id := T1;
     NustAuthors.tr_display_name := "Quantum optics";
     NustAuthors.tr_subfield_id := None;
     NustAuthors.tr_subfield := None;
     NustAuthors.tr_field_id := Some "F1";
     NustAuthors.tr_field := Some "Physics";
     NustAuthors.tr_domain_id := None;
     NustAuthors.tr_domain := None |}.

(** [T1] as a work payload gives it, with field and domain. *)
Definition T1_full : topic_ref :=
  {| t_id := Some T1; t_display_name := Some "Quantum optics";
     t_subfield := None;
     t_field := Some {| lv_id := Some "F2"; lv_name := Some "Chemistry" |};
     t_domain := Some {| lv_id := Some "D1"; lv_name := Some "Physical Sciences" |};
     t_score := None |}.

(** [T1] with no hierarchy at all. *)
Definition T1_bare : topic_ref :=
  {| t_id := Some T1; t_display_name := Some "Quantum optics";
     t_subfield := None; t_field := None; t_domain := None;
     t_score := None |}.

Definition nust_with_topics (tbl : list NustAuthors.topic_row)
    : NustAuthors.state :=
  {| NustAuthors.db := {| NustAuthors.authors := [];
                          NustAuthors.works_2025 := [];
                          NustAuthors.authorships_2025 := [];
                          NustAuthors.topics := tbl;
                          NustAuthors.work_topics_2025 := [] |};
     NustAuthors.topic_cache := ∅; NustAuthors.seen_work_ids := ∅ |}.

(** The topics endpoint answers 503 to its first six requests and 200,
    with the full hierarchy of [T1], from then on. *)
Definition recovering_srv : server :=
  {| authors_endpoint := fun _ _ => ok no_page;
     works_endpoint := fun _ _ _ _ => ok no_page;
     topics_endpoint := fun h _ =>
       if (length h <? 6)%nat then failing 503 no_topic
       else ok {| to_id := Some T1; to_display_name := Some "Quantum optics";
                  to_subfield := None;
                  to_field := Some {| lv_id := Some "F2";
                                      lv_name := Some "Chemistry" |};
                  to_field_domain := None;
                  to_domain := Some {| lv_id := Some "D1";
                                       lv_name := Some "Physical Sciences" |} |} |}.

(** The world after a first, failed resolve of [T1] against
    [recovering_srv]. *)
Definition after_outage : world NustAuthors.state :=
  match NustAuthors.get_topic_details recovering_srv T1 (start nust_empty) with
  | Raise _ w => w
  | _ => start nust_empty
  end.

End Samples.

(** ** More sample services *)

Module Samples2.
Import Samples.

(** Every request is answered 500. *)
Definition down_srv : server :=
  {| authors_endpoint := fun _ _ => failing 500 no_page;
     works_endpoint := fun _ _ _ _ => failing 500 no_page;
     topics_endpoint := fun _ _ => failing 500 no_topic |}.

Definition T2 : string := "https://openalex.org/T2".

(** [T1] as the primary topic of a work, with its score. *)
Definition T1_primary : topic_ref :=
  {| t_id := Some T1; t_display_name := Some "Quantum optics";
     t_subfield := None;
     t_field := Some {| lv_id := Some "F2"; lv_name := Some "Chemistry" |};
     t_domain := Some {| lv_id := Some "D1"; lv_name := Some "Physical Sciences" |};
     t_score := Some (9 # 10) |}.

(** [T1] again in the list of topics, with another score, and [T2]
    without hierarchy. *)
Definition T1_listed : topic_ref :=
  {| t_id := Some T1; t_display_name := Some "Quantum optics";
     t_subfield := None;
     t_field := Some {| lv_id := Some "F2"; lv_name := Some "Chemistry" |};
     t_domain := Some {| lv_id := Some "D1"; lv_name := Some "Physical Sciences" |};
     t_score := Some (5 # 10) |}.

Definition T2_bare : topic_ref :=
  {| t_id := Some T2; t_display_name := Some "Photonics";
     t_subfield := None; t_field := None; t_domain := None;
     t_score := Some (3 # 10) |}.

Definition W6 : work :=
  {| w_id := "W6"; w_display_name := Some "W6";
     w_publication_year := Some 2025; w_doi := None;
     w_authorships := [by_author "A1"];
     w_primary_location := None; w_type := None; w_type_crossref := None;
     w_primary_topic := Some T1_primary;
     w_topics := [T1_listed; T2_bare] |}.

(** One author with one work, [W6]; the topics endpoint answers 200. *)
Definition topics_srv : server :=
  {| authors_endpoint := fun _ _ =>
       ok {| results := [mk_author "A1"]; next_cursor := None |};
     works_endpoint := fun _ _ _ _ =>
       ok {| results := [W6]; next_cursor := None |};
     topics_endpoint := fun _ _ =>
       ok {| to_id := Some T2; to_display_name := Some "Photonics";
             to_subfield := None;
             to_field := Some {| lv_id := Some "F3"; lv_name := Some "Engineering" |};
             to_field_domain :=
               Some {| lv_id := Some "D1"; lv_name := Some "Physical Sciences" |};
             to_domain := None |} |}.

(** The world a run of [nust_authors.py] against [topics_srv] leaves: the
    topic [T2] has been resolved and is in the cache. *)
Definition after_topics_run : world NustAuthors.state :=
  match NustAuthors.main topics_srv "I1" 2025 3 (start nust_empty) with
  | Ok _ w' | Raise _ w' => w'
  | OutOfFuel => start nust_empty
  end.

(** A topic row with no hierarchy yet. *)
Definition null_row (tid name : string) : NustAuthors.topic_row :=
  {| NustAuthors.tr_topic_id := tid;
     NustAuthors.tr_display_name := name;
     NustAuthors.tr_subfield_id := None;
     NustAuthors.tr_subfield := None;
     NustAuthors.tr_field_id := None;
     NustAuthors.tr_field := None;
     NustAuthors.tr_domain_id := None;
     NustAuthors.tr_domain := None |}.

(** What [topics_srv] answers. *)
Definition T2_body : topic_obj :=
  {| to_id := Some T2; to_display_name := Some "Photonics";
     to_subfield := None;
     to_field := Some {| lv_id := Some "F3"; lv_name := Some "Engineering" |};
     to_field_domain :=
       Some {| lv_id := Some "D1"; lv_name := Some "Physical Sciences" |};
     to_domain := None |}.

(** The database the three-author sample run leaves. *)
Definition harvested : ConfJour.database :=
  match ConfJour.main harvest_srv 2024 2024 3 (start cj_empty) with
  | Ok _ w' | Raise _ w' => ConfJour.db (store w')
  | OutOfFuel => cj_db_empty
  end.

(** The listing of authors is empty; every request for works is answered
    503. *)
Definition quiet_srv : server :=
  {| authors_endpoint := fun _ _ => ok no_page;
     works_endpoint := fun _ _ _ _ => failing 503 no_page;
     topics_endpoint := fun _ _ => failing 404 no_topic |}.

Definition stored_author (id : string) : Sql.author_row :=
  {| Sql.ar_author_id := id; Sql.ar_display_name := id; Sql.ar_orcid := "";
     Sql.ar_works_count := Some 1;
     Sql.ar_last_known_institution_id := None;
     Sql.ar_last_known_institution_name := None |}.

(** A database of [nust_authors.py] an earlier run left, with author
    [A7]. *)
Definition nust_after_run : NustAuthors.state :=
  {| NustAuthors.db := {| NustAuthors.authors := [stored_author "A7"];
                          NustAuthors.works_2025 := [];
                          NustAuthors.authorships_2025 := [];
                          NustAuthors.topics := [];
                          NustAuthors.work_topics_2025 := [] |};
     NustAuthors.topic_cache := ∅; NustAuthors.seen_work_ids := ∅ |}.

(** The same with three authors, stored in the order [A3], [A1], [A2]. *)
Definition nust_after_runs : NustAuthors.state :=
  {| NustAuthors.db := {| NustAuthors.authors :=
                            [stored_author "A3"; stored_author "A1";
                             stored_author "A2"];
                          NustAuthors.works_2025 := [];
                          NustAuthors.authorships_2025 := [];
                          NustAuthors.topics := [];
                          NustAuthors.work_topics_2025 := [] |};
     NustAuthors.topic_cache := ∅; NustAuthors.seen_work_ids := ∅ |}.

(** The same for [conf_jour_outputs.py]. *)
Definition cj_after_run : ConfJour.state :=
  {| ConfJour.db := {| ConfJour.authors := [stored_author "A7"];
                       ConfJour.works := [];
                       ConfJour.fact_authorships_works := [] |};
     ConfJour.author_ids := []; ConfJour.seen_works := ∅ |}.

End Samples2.

(** ** Python string operations: what they compute *)

Section StringFacts.
Import PyStr.

Lemma append_cons c (a v : string) : String c a +:+ v = String c (a +:+ v).
Proof. reflexivity. Qed.

Lemma append_nil (v : string) : "" +:+ v = v.
Proof. reflexivity. Qed.

Lemma prefix_spec (a b : string) :
  String.prefix a b = true <-> exists v, b = a +:+ v.
Proof.
  revert b. induction a as [|c a IH]; intros b.
  - split; [intros _; exists b; reflexivity | intros _; by destruct b].
  - destruct b as [|d b]; cbn [String.prefix].
    + split; [discriminate | intros [v Hv]; discriminate].
    + destruct (Ascii.ascii_dec c d) as [->|Hne].
      * rewrite IH. split; intros [v Hv]; exists v;
          rewrite append_cons in *; congruence.
      * split; [discriminate | intros [v Hv]; rewrite append_cons in Hv; congruence].
Qed.









End StringFacts.

(** ** The retrying fetcher *)

Section FetcherFacts.
Import Eff Fetcher Spec.
Context {D B : Type}.
Variable ep : list request -> response B.
Variable rq : request.
Variable base : float.

Lemma transient_cases s :
  transient s = true -> s <> 200 /\ permanent s = false.
Proof.
  unfold transient, permanent. intros H%bool_decide_eq_true.
  repeat (apply elem_of_cons in H as [-> | H]; [split; [lia | reflexivity] |]).
  by apply elem_of_nil in H.
Qed.

Lemma requests_of_retried n :
  requests_of (retried rq base n) = replicate n rq.
Proof.
  unfold retried. induction n as [|n IH]; [reflexivity|].
  rewrite seq_S, rev_app_distr. simpl. rewrite IH. reflexivity.
Qed.

Lemma sleeps_of_retried n :
  sleeps_of (retried rq base n) = rev (map (delay_at base) (seq 0 n)).
Proof.
  unfold retried. induction n as [|n IH]; [reflexivity|].
  rewrite seq_S, map_app, !rev_app_distr. simpl. rewrite IH. reflexivity.
Qed.

Lemma requests_of_app (t1 t2 : list event) :
  requests_of (t1 ++ t2) = requests_of t1 ++ requests_of t2.
Proof. unfold requests_of. apply omap_app. Qed.

Lemma sleeps_of_app (t1 t2 : list event) :
  sleeps_of (t1 ++ t2) = sleeps_of t1 ++ sleeps_of t2.
Proof. unfold sleeps_of. apply omap_app. Qed.

(** After [n] transient answers the loop is at its turn [n]. *)
Lemma retry_loop_prefix (w : world D) n :
  (n <= RETRY_MAX)%nat ->
  (forall k, (k < n)%nat -> transient (status_code (answer ep rq w k)) = true) ->
  forall fuel,
    retry_loop (n + fuel) ep rq base 0 w
    = retry_loop fuel ep rq (delay_at base n) n
        {| trace := retried rq base n ++ trace w; store := store w |}.
Proof.
  induction n as [|n IH]; intros Hn Htr fuel.
  - simpl. by destruct w.
  - replace (S n + fuel)%nat with (n + S fuel)%nat by lia.
    rewrite IH; [|lia|intros; apply Htr; lia].
    cbn [retry_loop]. unfold history. cbn [trace].
    rewrite requests_of_app, requests_of_retried.
    specialize (Htr n ltac:(lia)). unfold answer, history in Htr.
    destruct (transient_cases _ Htr) as [H200 Hperm].
    apply Z.eqb_neq in H200. rewrite H200, Hperm, Htr.
    destruct (Nat.ltb_spec RETRY_MAX (S n)); [lia|].
    unfold log. cbn [trace store]. unfold retried.
    rewrite seq_S, rev_app_distr. reflexivity.
Qed.

(** The turn that follows [n] transient answers, written out. *)
Lemma get_with_retry_turn (w : world D) n :
  (n <= RETRY_MAX)%nat ->
  (forall k, (k < n)%nat -> transient (status_code (answer ep rq w k)) = true) ->
  get_with_retry base ep rq w
  = let r := answer ep rq w n in
    let w' := after_attempts rq base n w in
    if status_code r =? 200 then Ok r w'
    else if permanent (status_code r) then Raise (HTTPError false (status_code r)) w'
    else if transient (status_code r) then
      if (RETRY_MAX <? S n)%nat then Raise (HTTPError true (status_code r)) w'
      else retry_loop (RETRY_MAX - n) ep rq (delay_at base n * RETRY_BACKOFF)%float
             (S n) (log (EvSleep (delay_at base n)) w')
    else Raise (HTTPError false (status_code r)) w'.
Proof.
  intros Hn Htr. unfold get_with_retry.
  replace (S RETRY_MAX) with (n + S (RETRY_MAX - n))%nat by lia.
  rewrite retry_loop_prefix by assumption.
  cbn [retry_loop]. unfold history, answer. cbn [trace].
  rewrite requests_of_app, requests_of_retried. reflexivity.
Qed.

Lemma transient_iff s :
  transient s = true <-> s ∈ [429; 500; 502; 503; 504].
Proof. unfold transient. apply bool_decide_eq_true. Qed.

Lemma transient_not s :
  transient s = false <-> s ∉ [429; 500; 502; 503; 504].
Proof. unfold transient. apply bool_decide_eq_false. Qed.

Lemma permanent_iff s : permanent s = true <-> s ∈ [403; 404; 422].
Proof. unfold permanent. apply bool_decide_eq_true. Qed.

Lemma permanent_cases s :
  s ∈ [403; 404; 422] -> s <> 200 /\ s ∉ [429; 500; 502; 503; 504].
Proof.
  rewrite !elem_of_cons, elem_of_nil.
  intros [-> | [-> | [-> | []]]]; (split; [lia|]); intuition lia.
Qed.

(** Either some answer among the first [N + 1] is not transient, or all
    are. *)
Lemma first_settled (P : nat -> bool) N :
  (exists n, (n <= N)%nat /\ P n = false /\ forall k, (k < n)%nat -> P k = true)
  \/ (forall k, (k <= N)%nat -> P k = true).
Proof.
  induction N as [|N [(n & Hn & Hf & Hlt) | Hall]].
  - destruct (P 0%nat) eqn:E.
    + right. intros k Hk. by replace k with 0%nat by lia.
    + left. exists 0%nat. repeat split; [lia | done | intros; lia].
  - left. exists n. repeat split; [lia | done | done].
  - destruct (P (S N)) eqn:E.
    + right. intros k Hk. destruct (decide (k = S N)) as [->|]; [done|].
      apply Hall. lia.
    + left. exists (S N). repeat split; [lia | done |].
      intros k Hk. apply Hall. lia.
Qed.

Lemma history_after_attempts (w : world D) n :
  history (after_attempts rq base n w) = replicate (S n) rq ++ history w.
Proof.
  unfold after_attempts, history. cbn [trace].
  change (requests_of (EvRequest rq :: ?t)) with (rq :: requests_of t).
  by rewrite requests_of_app, requests_of_retried.
Qed.

(** The three ways the turn after [n] transient answers can go. *)
Lemma get_with_retry_cases (w : world D) n :
  (n <= RETRY_MAX)%nat ->
  (forall k, (k < n)%nat ->
     transient (status_code (answer ep rq w k)) = true) ->
  let r := answer ep rq w n in
  let w' := after_attempts rq base n w in
  (status_code r = 200 -> get_with_retry base ep rq w = Ok r w')
  /\ (status_code r <> 200 -> transient (status_code r) = false ->
      get_with_retry base ep rq w = Raise (HTTPError false (status_code r)) w')
  /\ (transient (status_code r) = true -> n = RETRY_MAX ->
      get_with_retry base ep rq w = Raise (HTTPError true (status_code r)) w').
Proof.
  intros Hn Htr r w'. rewrite (get_with_retry_turn w n Hn Htr).
  fold r w'. cbv zeta. repeat split.
  - intros ->. reflexivity.
  - intros H200%Z.eqb_neq Hnt. rewrite H200, Hnt. by destruct (permanent _).
  - intros Ht ->. destruct (transient_cases _ Ht) as [H200%Z.eqb_neq Hp].
    rewrite H200, Hp, Ht.
    by destruct (Nat.ltb_spec RETRY_MAX (S RETRY_MAX)); [|lia].
Qed.

(** Every fetch ends: with a 200 answer, or with an [HTTPError] carrying
    the status of the last answer; in both cases after at most
    [RETRY_MAX + 1] requests and with the store untouched. *)
Lemma get_with_retry_outcome (w : world D) :
  exists n, (n <= RETRY_MAX)%nat
    /\ ((status_code (answer ep rq w n) = 200
         /\ get_with_retry base ep rq w
            = Ok (answer ep rq w n) (after_attempts rq base n w))
        \/ (status_code (answer ep rq w n) <> 200
            /\ exists b,
                 get_with_retry base ep rq w
                 = Raise (HTTPError b (status_code (answer ep rq w n)))
                     (after_attempts rq base n w))).
Proof.
  destruct (first_settled
              (fun k => transient (status_code (answer ep rq w k))) RETRY_MAX)
    as [(n & Hn & Hf & Hlt) | Hall].
  - exists n. split; [exact Hn|].
    destruct (get_with_retry_cases w n Hn Hlt) as (H1 & H2 & _).
    destruct (decide (status_code (answer ep rq w n) = 200)) as [E|Hne].
    + left. auto.
    + right. split; [exact Hne|]. exists false. auto.
  - exists RETRY_MAX. split; [lia|].
    destruct (get_with_retry_cases w RETRY_MAX ltac:(lia)
                ltac:(intros; apply Hall; lia)) as (_ & _ & H3).
    right. pose proof (Hall RETRY_MAX ltac:(lia)) as Ht.
    split; [by destruct (transient_cases _ Ht)|]. exists true. auto.
Qed.

(** C3.  [get_with_retry] after [n <= RETRY_MAX = 5] answers with a
    status among 429, 500, 502, 503 and 504: a 200 answer is returned; an
    answer with any other status that is not one of these five, 403, 404
    and 422 among them, raises at once, with no further request or sleep,
    so with none at all when [n = 0]; a sixth answer among the five raises
    the retries-exceeded error.  Before each retry the loop sleeps, first
    [base] and then [RETRY_BACKOFF = 1.6 > 1] times the previous delay,
    the product being the one of binary64 floats; for the base delays of
    the two scripts the delays are those written out.  The fetch returns a
    response exactly when an attempt reached through answers of the five
    statuses only is answered 200. *)
Theorem get_with_retry_behaviour (w : world D) :
  (forall n,
     (n <= RETRY_MAX)%nat ->
     (forall k, (k < n)%nat ->
        status_code (answer ep rq w k) ∈ [429; 500; 502; 503; 504]) ->
     let r := answer ep rq w n in
     let w' := after_attempts rq base n w in
     (status_code r = 200 -> get_with_retry base ep rq w = Ok r w')
     /\ (status_code r <> 200 ->
         status_code r ∉ [429; 500; 502; 503; 504] ->
         get_with_retry base ep rq w = Raise (HTTPError false (status_code r)) w')
     /\ (status_code r ∈ [403; 404; 422] ->
         get_with_retry base ep rq w = Raise (HTTPError false (status_code r)) w')
     /\ (status_code r ∈ [429; 500; 502; 503; 504] -> n = RETRY_MAX ->
         get_with_retry base ep rq w = Raise (HTTPError true (status_code r)) w')
     /\ sleeps_of (trace w')
         = rev (map (delay_at base) (seq 0 n)) ++ sleeps_of (trace w)
     /\ requests_of (trace w') = replicate (S n) rq ++ history w)
  /\ ((exists r w', get_with_retry base ep rq w = Ok r w')
      <-> exists n, (n <= RETRY_MAX)%nat
                    /\ (forall k, (k < n)%nat ->
                          status_code (answer ep rq w k)
                          ∈ [429; 500; 502; 503; 504])
                    /\ status_code (answer ep rq w n) = 200)
  /\ RETRY_MAX = 5%nat
  /\ delay_at base 0 = base
  /\ (forall k, delay_at base (S k) = (delay_at base k * RETRY_BACKOFF)%float)
  /\ RETRY_BACKOFF = 1.6%float
  /\ PrimFloat.ltb 1%float RETRY_BACKOFF = true
  /\ map (delay_at ConfJour.BASE_DELAY) (seq 0 RETRY_MAX)
     = [0.6; 0.96; 1.536; 2.4576000000000002; 3.9321600000000005]%float
  /\ map (delay_at NustAuthors.BASE_DELAY) (seq 0 RETRY_MAX)
     = [0.5; 0.8; 1.2800000000000002; 2.0480000000000005;
        3.276800000000001]%float.
Proof.
  assert (Hcases : forall n, (n <= RETRY_MAX)%nat ->
            (forall k, (k < n)%nat ->
               status_code (answer ep rq w k) ∈ [429; 500; 502; 503; 504]) ->
            let r := answer ep rq w n in
            let w' := after_attempts rq base n w in
            (status_code r = 200 -> get_with_retry base ep rq w = Ok r w')
            /\ (status_code r <> 200 -> transient (status_code r) = false ->
                get_with_retry base ep rq w
                = Raise (HTTPError false (status_code r)) w')
            /\ (transient (status_code r) = true -> n = RETRY_MAX ->
                get_with_retry base ep rq w
                = Raise (HTTPError true (status_code r)) w')).
  { intros n Hn Htr. apply get_with_retry_cases; [exact Hn|].
    intros k Hk. apply transient_iff. by apply Htr. }
  split; [|split; [|split; [|split; [|split; [|split; [|split; [|split]]]]]]].
  - intros n Hn Htr r w'. destruct (Hcases n Hn Htr) as (H1 & H2 & H3).
    split; [exact H1|]. split; [intros Hne Hnt; apply H2; [exact Hne|];
                                 by apply transient_not|].
    split; [|split; [intros Ht; apply H3; by apply transient_iff|split]].
    + intros Hp. destruct (permanent_cases _ Hp) as [Hne Hnt].
      apply H2; [exact Hne | by apply transient_not].
    + unfold w', after_attempts. cbn [trace].
      change (sleeps_of (EvRequest rq :: ?t)) with (sleeps_of t).
      by rewrite sleeps_of_app, sleeps_of_retried.
    + unfold w', after_attempts, history. cbn [trace].
      change (requests_of (EvRequest rq :: ?t)) with (rq :: requests_of t).
      by rewrite requests_of_app, requests_of_retried.
  - split.
    + intros (r & w' & Hok).
      destruct (first_settled
                  (fun k => transient (status_code (answer ep rq w k))) RETRY_MAX)
        as [(n & Hn & Hf & Hlt) | Hall].
      * assert (Hlt' : forall k, (k < n)%nat ->
                  status_code (answer ep rq w k) ∈ [429; 500; 502; 503; 504])
          by (intros k Hk; apply transient_iff; by apply Hlt).
        exists n. split; [done|]. split; [done|].
        destruct (decide (status_code (answer ep rq w n) = 200)) as [|Hne]; [done|].
        destruct (Hcases n Hn Hlt') as (_ & H2 & _).
        rewrite (H2 Hne Hf) in Hok. discriminate.
      * assert (Hall' : forall k, (k < RETRY_MAX)%nat ->
                  status_code (answer ep rq w k) ∈ [429; 500; 502; 503; 504])
          by (intros k Hk; apply transient_iff; apply Hall; lia).
        destruct (Hcases RETRY_MAX ltac:(lia) Hall') as (_ & _ & H3).
        rewrite (H3 (Hall RETRY_MAX ltac:(lia)) eq_refl) in Hok. discriminate.
    + intros (n & Hn & Hlt & H200). destruct (Hcases n Hn Hlt) as (H1 & _).
      eauto.
  - reflexivity.
  - reflexivity.
  - reflexivity.
  - reflexivity.
  - reflexivity.
  - vm_compute. reflexivity.
  - vm_compute. reflexivity.
Qed.

End FetcherFacts.

(** ** The cursor paginator *)

Section PaginateFacts.
Import Eff Fetcher Spec.
Context {D A : Type}.
Variable ep : list request -> string -> response (page A).
Variable mkrq : string -> request.
Variables base pause : float.

Lemma fetch_page_200 c p (w : world D) :
  (forall h, ep h c = {| status_code := 200; json := p |}) ->
  Spec.fetch_page ep mkrq base c w = Ok {| status_code := 200; json := p |} (log (EvRequest (mkrq c)) w).
Proof.
  intros Hep. unfold Spec.fetch_page.
  rewrite (get_with_retry_turn (fun h => ep h c) (mkrq c) base w 0)
    by (lia || intros; lia).
  cbv zeta. unfold answer. rewrite Hep. cbn [status_code Z.eqb Pos.eqb].
  unfold after_attempts, log. reflexivity.
Qed.

Lemma for_each_never_raises (body : A -> M D unit) xs w :
  never_raises body -> exists w', for_each body xs w = Ok tt w'.
Proof.
  intros Hb. revert w. induction xs as [|x xs IH]; intros w.
  - eexists. reflexivity.
  - cbn [for_each]. unfold bind. destruct (Hb x w) as [w1 ->]. apply IH.
Qed.

(** On a served chain of pages the paginator is the page-by-page drain. *)
Lemma paginate_serves (body : A -> M D unit) c ps :
  serves ep c ps ->
  forall fuel w, (length ps <= fuel)%nat ->
    paginate fuel (fetch_page ep mkrq base) pause body c w = drain mkrq pause body c ps w.
Proof.
  induction 1 as [c p Hep Hnx | c p c' ps Hep Hnx Htruthy Hps IH];
    intros fuel w Hfuel.
  - destruct fuel as [|fuel]; [simpl in Hfuel; lia|].
    cbn [paginate drain]. unfold bind, emit. rewrite (fetch_page_200 c p w Hep).
    cbn [json].
    destruct (for_each body (results p) _); try reflexivity.
    destruct (next_cursor p) as [[|a r]|]; first [reflexivity | discriminate].
  - destruct fuel as [|fuel]; [simpl in Hfuel; lia|].
    assert (Hrest : exists q qs, ps = q :: qs) by (inversion Hps; eauto).
    destruct Hrest as (q & qs & ->).
    cbn [paginate]. cbn [drain]. fold (drain (D:=D) mkrq pause body).
    unfold bind, emit. rewrite (fetch_page_200 c p w Hep). cbn [json].
    destruct (for_each body (results p) _) as [[] w1| |]; try reflexivity.
    rewrite Hnx in Htruthy |- *. cbn [PyStr.or_empty default].
    destruct c' as [|a r]; [discriminate|].
    apply IH. simpl in *. lia.
Qed.

(** Inside a cursor trap the paginator never stops. *)
Lemma paginate_trapped (body : A -> M D unit) (S : string -> Prop) :
  cursor_trap ep S -> never_raises body ->
  forall fuel c w, S c -> paginate fuel (fetch_page ep mkrq base) pause body c w = OutOfFuel.
Proof.
  intros Htrap Hbody. induction fuel as [|fuel IH]; intros c w Hc; [reflexivity|].
  destruct (Htrap c Hc) as (p & c' & Hep & Hnx & Htr & Hc').
  cbn [paginate]. unfold bind at 1. rewrite (fetch_page_200 c p w Hep).
  cbn [json]. unfold bind at 1.
  destruct (for_each_never_raises body (results p)
              (log (EvRequest (mkrq c)) w) Hbody) as [w1 ->].
  rewrite Hnx. destruct c' as [|a r]; [discriminate|].
  unfold bind, emit. apply IH. exact Hc'.
Qed.

Lemma drain_never_raises (body : A -> M D unit) ps :
  never_raises body ->
  forall c w, exists w', drain mkrq pause body c ps w = Ok tt w'.
Proof.
  intros Hb. induction ps as [|p ps IH]; intros c w.
  - eexists. reflexivity.
  - cbn [drain]. fold (drain (D:=D) mkrq pause body). unfold bind, emit.
    destruct (for_each_never_raises body (results p)
                (log (EvRequest (mkrq c)) w) Hb) as [w1 ->].
    destruct ps as [|q qs]; [eexists; reflexivity|]. apply IH.
Qed.

End PaginateFacts.

Section RecorderFacts.
Import Eff Fetcher Spec.
Context {A : Type}.
Variable mkrq : string -> request.
Variable pause : float.

Lemma for_each_recorder (xs : list A) (w : world (list (A * nat))) :
  for_each recorder xs w
  = Ok tt {| trace := trace w;
             store := store w ++ map (fun a => (a, length (history w))) xs |}.
Proof.
  revert w. induction xs as [|x xs IH]; intros w.
  - cbn. rewrite app_nil_r. by destruct w.
  - cbn [for_each]. unfold bind. unfold recorder at 1. rewrite IH.
    unfold history. cbn [trace store map]. by rewrite <- app_assoc.
Qed.

(** Draining into the recorder: every record once, in page order, each
    received after exactly the requests for the pages up to its own; one
    request per page and one pause between two pages. *)
Lemma drain_recorder (ps : list (page A)) :
  forall c (w : world (list (A * nat))),
  exists w',
    drain mkrq pause recorder c ps w = Ok tt w'
    /\ store w' = store w ++ stamped (length (history w)) ps
    /\ history w' = rev (map mkrq (cursors_of c ps)) ++ history w
    /\ sleeps_of (trace w')
       = replicate (Nat.pred (length ps)) pause ++ sleeps_of (trace w).
Proof.
  induction ps as [|p ps IH]; intros c w.
  - exists w. cbn. by rewrite app_nil_r.
  - cbn [drain]. fold (drain (D:=list (A * nat)) mkrq pause recorder).
    unfold bind, emit. rewrite for_each_recorder.
    destruct ps as [|q qs].
    + eexists. split; [reflexivity|]. unfold history, log. cbn.
      rewrite app_nil_r. done.
    + match goal with |- context [drain _ _ _ ?c' (q :: qs) ?w1] =>
        destruct (IH c' w1) as (w' & Hrun & Hst & Hh & Hsl) end.
      exists w'. split; [exact Hrun|].
      rewrite Hst, Hh, Hsl. unfold history, log. cbn [trace store].
      change (requests_of (EvSleep pause :: EvRequest (mkrq c) :: trace w))
        with (mkrq c :: requests_of (trace w)).
      change (sleeps_of (EvSleep pause :: EvRequest (mkrq c) :: trace w))
        with (pause :: sleeps_of (trace w)).
      cbn [length stamped cursors_of map rev Nat.pred].
      rewrite <- !app_assoc. repeat split; try done.
      cbn [replicate]. rewrite (cons_middle pause (replicate _ _)), app_assoc.
      by rewrite <- replicate_cons_app.
Qed.

Lemma stamped_fst n (ps : list (page A)) :
  map fst (stamped n ps) = concat (map results ps).
Proof.
  revert n. induction ps as [|p ps IH]; intros n; [reflexivity|].
  cbn [stamped map concat]. rewrite map_app, IH, map_map. cbn.
  by rewrite map_id.
Qed.

Lemma cursors_of_length c (ps : list (page A)) :
  length (cursors_of c ps) = length ps.
Proof. revert c. induction ps; intros; simpl; auto. Qed.

End RecorderFacts.

(** ** Worked runs of the fetcher and the paginator *)

Section FetchRuns.
Import Eff Fetcher Spec Samples.

Lemma get_with_retry_behaviour_witness :
  (2 <= RETRY_MAX)%nat
  /\ (forall k, (k < 2)%nat ->
        status_code (answer flaky (GetWorks "A1" 2024 "*") (start tt) k)
        ∈ [429; 500; 502; 503; 504])
  /\ get_with_retry 0.6%float flaky (GetWorks "A1" 2024 "*") (start tt)
     = Ok (ok page1)
          {| trace := [EvRequest (GetWorks "A1" 2024 "*"); EvSleep 0.96%float;
                       EvRequest (GetWorks "A1" 2024 "*"); EvSleep 0.6%float;
                       EvRequest (GetWorks "A1" 2024 "*")];
             store := tt |}
  /\ status_code (answer forbidden (GetWorks "A1" 2024 "*") (start tt) 0)
     ∈ [403; 404; 422]
  /\ get_with_retry 0.5%float forbidden (GetWorks "A1" 2024 "*") (start tt)
     = Raise (HTTPError false 403)
         {| trace := [EvRequest (GetWorks "A1" 2024 "*")]; store := tt |}
  /\ status_code (answer throttled (GetWorks "A1" 2024 "*") (start tt) 5)
     ∈ [429; 500; 502; 503; 504]
  /\ get_with_retry 0.6%float throttled (GetWorks "A1" 2024 "*") (start tt)
     = Raise (HTTPError true 504)
         (after_attempts (GetWorks "A1" 2024 "*") 0.6%float 5 (start tt)).
Proof.
  assert (H2 : (2 <= RETRY_MAX)%nat) by (unfold RETRY_MAX; lia).
  assert (Htr : forall k, (k < 2)%nat ->
            status_code (answer flaky (GetWorks "A1" 2024 "*") (start tt) k)
            ∈ [429; 500; 502; 503; 504]).
  { intros [|[|k]] Hk; [| |lia]; cbn; rewrite !elem_of_cons; auto. }
  assert (H403 : status_code (answer forbidden (GetWorks "A1" 2024 "*")
                                (start tt) 0) ∈ [403; 404; 422])
    by (cbn; rewrite !elem_of_cons; auto).
  assert (Hthr : forall k, (k < 5)%nat ->
            status_code (answer throttled (GetWorks "A1" 2024 "*") (start tt) k)
            ∈ [429; 500; 502; 503; 504]).
  { intros [|[|[|[|[|k]]]]] Hk; [| | | | |lia]; cbn; rewrite !elem_of_cons; auto 6. }
  assert (H504 : status_code (answer throttled (GetWorks "A1" 2024 "*")
                                (start tt) 5) ∈ [429; 500; 502; 503; 504])
    by (cbn; rewrite !elem_of_cons; auto 6).
  split; [exact H2 | split; [exact Htr |]].
  split.
  { exact (proj1 (proj1 (get_with_retry_behaviour flaky (GetWorks "A1" 2024 "*")
                           0.6%float (start tt)) 2%nat H2 Htr) eq_refl). }
  split; [exact H403|]. split.
  { destruct (proj1 (get_with_retry_behaviour forbidden (GetWorks "A1" 2024 "*")
                       0.5%float (start tt)) 0%nat ltac:(unfold RETRY_MAX; lia)
                ltac:(intros k Hk; lia)) as (_ & _ & Hperm & _).
    exact (Hperm H403). }
  split; [exact H504|].
  destruct (proj1 (get_with_retry_behaviour throttled (GetWorks "A1" 2024 "*")
                     0.6%float (start tt)) 5%nat ltac:(unfold RETRY_MAX; lia) Hthr)
    as (_ & _ & _ & Hex & _).
  exact (Hex H504 eq_refl).
Defined.

(** 503, 503, 200: success after the two sleeps 0.6 and 0.6 * 1.6. *)
Example fetch_503_503_200 :
  sleeps_of (match ConfJour.get_with_retry flaky (GetWorks "A1" 2024 "*")
                     (start cj_empty) with
             | Ok _ w => trace w
             | _ => []
             end)
  = [(0.6 * RETRY_BACKOFF)%float; 0.6%float].
Proof. reflexivity. Qed.

(** 403: failure at the first attempt, no sleep, one request. *)
Example fetch_403 :
  get_with_retry 0.5%float forbidden (GetWorks "A1" 2024 "*") (start tt)
  = Raise (HTTPError false 403)
      {| trace := [EvRequest (GetWorks "A1" 2024 "*")]; store := tt |}.
Proof. reflexivity. Qed.

End FetchRuns.

(** C6. When the service answers the works of an author and year with the
    pages [ps], the last one alone carrying no (or an empty) next-cursor,
    both work paginators are the page-by-page drain of [ps]: one request
    per page, the loop body run on every record of a page, in order,
    before the next page is requested, and the loop ends after the last
    page.  A consumer that records what it receives ends with exactly the
    concatenation of the pages' records, each received when just the
    requests for the pages up to its own had been made; the requests are
    those for the successive cursors, one per page. *)
Theorem paginator_drains_pages (srv : server) (aid : string) (yr : Z)
    (ps : list (page work)) (fuel : nat) :
  Spec.serves (fun h c => works_endpoint srv h aid yr c) "*" ps ->
  (length ps <= fuel)%nat ->
  (forall body w,
     ConfJour.iter_author_works_year srv fuel aid yr body w
     = Spec.drain (GetWorks aid yr) ConfJour.PAGE_SLEEP body "*" ps w)
  /\ (forall body w,
        NustAuthors.iter_author_works_2025 srv yr fuel aid body w
        = Spec.drain (GetWorks aid yr) NustAuthors.SLEEP_BETWEEN body "*" ps w)
  /\ (forall base pause (w : world (list (work * nat))),
        exists w',
          Fetcher.paginate fuel
            (Spec.fetch_page (fun h c => works_endpoint srv h aid yr c)
               (GetWorks aid yr) base)
            pause Spec.recorder "*" w = Ok tt w'
          /\ map fst (store w') = map fst (store w) ++ concat (map results ps)
          /\ store w' = store w ++ Spec.stamped (length (Eff.history w)) ps
          /\ Eff.history w'
             = rev (map (GetWorks aid yr) (Spec.cursors_of "*" ps)) ++ Eff.history w
          /\ length (Spec.cursors_of "*" ps) = length ps
          /\ Eff.sleeps_of (trace w')
             = replicate (Nat.pred (length ps)) pause ++ Eff.sleeps_of (trace w)).
Proof.
  intros Hs Hfuel. split; [|split].
  - intros body w. unfold ConfJour.iter_author_works_year, ConfJour.get_with_retry.
    exact (paginate_serves _ (GetWorks aid yr) ConfJour.BASE_DELAY
             ConfJour.PAGE_SLEEP body "*" ps Hs fuel w Hfuel).
  - intros body w.
    unfold NustAuthors.iter_author_works_2025, NustAuthors.get_with_retry.
    exact (paginate_serves _ (GetWorks aid yr) NustAuthors.BASE_DELAY
             NustAuthors.SLEEP_BETWEEN body "*" ps Hs fuel w Hfuel).
  - intros base pause w.
    rewrite (paginate_serves _ (GetWorks aid yr) base pause Spec.recorder "*" ps
               Hs fuel w Hfuel).
    destruct (drain_recorder (GetWorks aid yr) pause ps "*" w)
      as (w' & Hrun & Hst & Hh & Hsl).
    exists w'. split; [exact Hrun|].
    split; [by rewrite Hst, map_app, stamped_fst|].
    split; [exact Hst|]. split; [exact Hh|].
    split; [apply cursors_of_length | exact Hsl].
Qed.

Lemma serves_sample_pages :
  Spec.serves (fun h c => works_endpoint Samples.harvest_srv h "A1" 2024 c) "*"
    [Samples.page1; Samples.page2].
Proof.
  eapply Spec.serves_more with (c' := "c2");
    [intros h; reflexivity | reflexivity | reflexivity |].
  apply Spec.serves_last; [intros h; reflexivity | reflexivity].
Qed.

Lemma paginator_drains_pages_witness :
  Spec.serves (fun h c => works_endpoint Samples.harvest_srv h "A1" 2024 c) "*"
    [Samples.page1; Samples.page2]
  /\ (length [Samples.page1; Samples.page2] <= 2)%nat
  /\ exists w',
       Fetcher.paginate 2
         (Spec.fetch_page (fun h c => works_endpoint Samples.harvest_srv h "A1" 2024 c)
            (GetWorks "A1" 2024) 0.6%float)
         0.2%float Spec.recorder "*" (Samples.start []) = Ok tt w'
       /\ store w' = [(Samples.W1, 1%nat); (Samples.W2, 1%nat); (Samples.W3, 2%nat)]
       /\ Eff.history w' = [GetWorks "A1" 2024 "c2"; GetWorks "A1" 2024 "*"].
Proof.
  split; [exact serves_sample_pages | split; [simpl; lia |]].
  destruct (proj2 (proj2 (paginator_drains_pages Samples.harvest_srv "A1" 2024
                            [Samples.page1; Samples.page2] 2
                            serves_sample_pages (le_n 2)))
              0.6%float 0.2%float (Samples.start []))
    as (w' & Hrun & _ & Hst & Hh & _).
  exists w'. split; [exact Hrun | split; [exact Hst | exact Hh]].
Defined.

(** C5 (as amended).  The paginators keep no record of the cursors they
    have used.  When the service leads the author listing into a set of
    cursors it never leaves (each answered, every time, by a page naming a
    non-empty cursor of the set), the listing of either script runs out of
    any amount of fuel: it never terminates.  It does terminate when the
    service serves a finite chain of pages ending without a cursor. *)
Theorem paginator_repeating_cursor (srv : server) (S : string -> Prop)
    (body1 : author -> Eff.M ConfJour.state unit)
    (body2 : author -> Eff.M NustAuthors.state unit) :
  Spec.never_raises body1 -> Spec.never_raises body2 ->
  (Spec.cursor_trap (authors_endpoint srv) S -> S "*" ->
   forall fuel,
     (forall w, ConfJour.iter_authors srv fuel body1 w = OutOfFuel)
     /\ (forall w, NustAuthors.iter_authors srv fuel body2 w = OutOfFuel))
  /\ (forall ps, Spec.serves (authors_endpoint srv) "*" ps ->
      (forall w, exists w',
         ConfJour.iter_authors srv (length ps) body1 w = Ok tt w')
      /\ (forall w, exists w',
            NustAuthors.iter_authors srv (length ps) body2 w = Ok tt w')).
Proof.
  intros Hb1 Hb2. split.
  - intros Htrap Hstart fuel. split; intros w.
    + unfold ConfJour.iter_authors, ConfJour.get_with_retry.
      exact (paginate_trapped (authors_endpoint srv) GetAuthors _ _ body1 S
               Htrap Hb1 fuel "*" w Hstart).
    + unfold NustAuthors.iter_authors, NustAuthors.get_with_retry.
      exact (paginate_trapped (authors_endpoint srv) GetAuthors _ _ body2 S
               Htrap Hb2 fuel "*" w Hstart).
  - intros ps Hs. split; intros w.
    + unfold ConfJour.iter_authors, ConfJour.get_with_retry.
      destruct (drain_never_raises GetAuthors ConfJour.PAGE_SLEEP body1 ps Hb1
                  "*" w) as [w' Hw'].
      exists w'. rewrite <- Hw'.
      exact (paginate_serves (authors_endpoint srv) GetAuthors
               ConfJour.BASE_DELAY ConfJour.PAGE_SLEEP body1 "*" ps Hs
               (length ps) w (le_n _)).
    + unfold NustAuthors.iter_authors, NustAuthors.get_with_retry.
      destruct (drain_never_raises GetAuthors NustAuthors.SLEEP_BETWEEN body2 ps
                  Hb2 "*" w) as [w' Hw'].
      exists w'. rewrite <- Hw'.
      exact (paginate_serves (authors_endpoint srv) GetAuthors
               NustAuthors.BASE_DELAY NustAuthors.SLEEP_BETWEEN body2 "*" ps Hs
               (length ps) w (le_n _)).
Qed.

Lemma looping_srv_trap :
  Spec.cursor_trap (authors_endpoint Samples.looping_srv) (fun c => c = "*").
Proof.
  intros c ->. exists {| results := []; next_cursor := Some "*" |}, "*".
  repeat split; reflexivity.
Qed.

Lemma skip_never_raises {D A} :
  Spec.never_raises (fun _ : A => Eff.ret (D:=D) tt).
Proof. intros a w. exists w. reflexivity. Qed.

(** The first answer names the cursor just used, and no amount of fuel
    lets the author listing end. *)
Lemma paginator_repeating_cursor_counterexample :
  next_cursor (json (authors_endpoint Samples.looping_srv [] "*")) = Some "*"
  /\ ~ exists fuel,
        ConfJour.iter_authors Samples.looping_srv fuel (fun _ => Eff.ret tt)
          (Samples.start Samples.cj_empty) <> OutOfFuel.
Proof.
  split; [reflexivity|]. intros [fuel Hne]. apply Hne.
  unfold ConfJour.iter_authors, ConfJour.get_with_retry.
  exact (paginate_trapped (authors_endpoint Samples.looping_srv) GetAuthors
           _ _ _ (fun c => c = "*") looping_srv_trap skip_never_raises
           fuel "*" _ eq_refl).
Qed.

Lemma paginator_repeating_cursor_witness :
  Spec.never_raises (fun _ : author => Eff.ret (D:=ConfJour.state) tt)
  /\ Spec.never_raises (fun _ : author => Eff.ret (D:=NustAuthors.state) tt)
  /\ Spec.cursor_trap (authors_endpoint Samples.looping_srv) (fun c => c = "*")
  /\ ConfJour.iter_authors Samples.looping_srv 1000 (fun _ => Eff.ret tt)
       (Samples.start Samples.cj_empty) = OutOfFuel
  /\ NustAuthors.iter_authors Samples.looping_srv 1000 (fun _ => Eff.ret tt)
       (Samples.start Samples.nust_empty) = OutOfFuel.
Proof.
  split; [exact skip_never_raises | split; [exact skip_never_raises |]].
  split; [exact looping_srv_trap |].
  destruct (proj1 (paginator_repeating_cursor Samples.looping_srv
                     (fun c => c = "*") _ _ skip_never_raises skip_never_raises)
              looping_srv_trap eq_refl 1000%nat) as [H1 H2].
  split; [apply H1 | apply H2].
Defined.

(** ** Venue classification *)

Section VenueFacts.
Import PyStr Venue Spec.







(** The three cases of the specification's examples. *)
Example venue_structured_wins :
  classify_venue_type Samples.W3 = "conference"
  /\ w_type_crossref Samples.W3 = Some "journal-article".
Proof. split; reflexivity. Qed.

Example venue_from_crossref :
  classify_venue_type Samples.W2 = "conference"
  /\ Venue.primary_source_type Samples.W2 = None.
Proof. split; reflexivity. Qed.

Example venue_default : classify_venue_type Samples.W4 = "other".
Proof. reflexivity. Qed.

End VenueFacts.

(** ** Tables *)

Section IndexOrder.
Import Sql.

Lemma index_order_perm (ks : list string) : index_order ks ≡ₚ ks.
Proof. unfold index_order. apply merge_sort_Permutation. Qed.

Lemma index_order_elem (k : string) (ks : list string) :
  k ∈ ks -> k ∈ index_order ks.
Proof. intros H. by rewrite index_order_perm. Qed.

Lemma index_order_elem_inv (k : string) (ks : list string) :
  k ∈ index_order ks -> k ∈ ks.
Proof. intros H. by rewrite index_order_perm in H. Qed.

End IndexOrder.

Section TableFacts.
Import Sql.
Context {R K : Type} `{EqDecision K} (key : R -> K).

Lemma insert_or_ignore_present (new : R) (tbl : list R) :
  has_key key (key new) tbl -> insert_or_ignore key new tbl = tbl.
Proof.
  unfold has_key. induction tbl as [|r tbl IH]; cbn [map insert_or_ignore].
  - intros H. by apply elem_of_nil in H.
  - intros H. destruct (decide (key r = key new)) as [|Hne]; [reflexivity|].
    apply elem_of_cons in H as [H|H]; [congruence|]. by rewrite IH.
Qed.

Lemma insert_or_ignore_absent (new : R) (tbl : list R) :
  ~ has_key key (key new) tbl -> insert_or_ignore key new tbl = tbl ++ [new].
Proof.
  unfold has_key. induction tbl as [|r tbl IH]; cbn [map insert_or_ignore].
  - reflexivity.
  - intros H. rewrite not_elem_of_cons in H. destruct H as [Hne H].
    destruct (decide (key r = key new)) as [|_]; [congruence|].
    by rewrite IH.
Qed.

Lemma insert_or_ignore_cases (new : R) (tbl : list R) :
  (has_key key (key new) tbl /\ insert_or_ignore key new tbl = tbl)
  \/ (~ has_key key (key new) tbl /\ insert_or_ignore key new tbl = tbl ++ [new]).
Proof.
  destruct (decide (key new ∈ map key tbl)) as [H|H].
  - left. split; [exact H | by apply insert_or_ignore_present].
  - right. split; [exact H | by apply insert_or_ignore_absent].
Qed.

Lemma insert_or_ignore_unique (new : R) (tbl : list R) :
  unique key tbl -> unique key (insert_or_ignore key new tbl).
Proof.
  intros Hu. destruct (insert_or_ignore_cases new tbl) as [[_ ->] | [Hn ->]];
    [exact Hu|].
  unfold unique in *. rewrite map_app. apply NoDup_app. split; [exact Hu|].
  split; [|apply NoDup_singleton].
  intros k Hk Hk'. apply list_elem_of_singleton in Hk'. subst k. by apply Hn.
Qed.

Lemma insert_or_ignore_keeps (new : R) (tbl : list R) (k : K) :
  has_key key k tbl -> has_key key k (insert_or_ignore key new tbl).
Proof.
  intros Hk. destruct (insert_or_ignore_cases new tbl) as [[_ ->] | [_ ->]];
    [exact Hk|].
  unfold has_key in *. rewrite map_app. apply elem_of_app. by left.
Qed.

Lemma insert_or_ignore_has (new : R) (tbl : list R) :
  has_key key (key new) (insert_or_ignore key new tbl).
Proof.
  destruct (insert_or_ignore_cases new tbl) as [[H ->] | [_ ->]]; [exact H|].
  unfold has_key. rewrite map_app. apply elem_of_app. right.
  apply list_elem_of_singleton. reflexivity.
Qed.

Lemma insert_or_ignore_elem (new r : R) (tbl : list R) :
  r ∈ insert_or_ignore key new tbl -> r ∈ tbl \/ r = new.
Proof.
  destruct (insert_or_ignore_cases new tbl) as [[_ ->] | [_ ->]]; [by left|].
  intros [H|H]%elem_of_app; [by left|].
  apply list_elem_of_singleton in H. by right.
Qed.

Lemma rows_with_absent (k : K) (tbl : list R) :
  ~ has_key key k tbl -> rows_with key k tbl = [].
Proof.
  unfold has_key, rows_with. induction tbl as [|r tbl IH]; [reflexivity|].
  cbn [map]. rewrite not_elem_of_cons. intros [Hne H].
  rewrite filter_cons_False by congruence. auto.
Qed.

Lemma rows_with_app (k : K) (t1 t2 : list R) :
  rows_with key k (t1 ++ t2) = rows_with key k t1 ++ rows_with key k t2.
Proof. unfold rows_with. apply filter_app. Qed.

Lemma rows_with_present (k : K) (tbl : list R) :
  has_key key k tbl -> exists r, r ∈ rows_with key k tbl /\ key r = k.
Proof.
  unfold has_key, rows_with. intros (r & -> & Hr)%list_elem_of_fmap.
  exists r. split; [|reflexivity]. apply list_elem_of_filter. auto.
Qed.

(** How an upsert changes the table, when the merge keeps the key. *)
Section Upsert.
Variable merge : R -> R -> R.
Variable new : R.
Hypothesis merge_key : forall r, key r = key new -> key (merge r new) = key new.

Lemma upsert_keys_present (tbl : list R) :
  has_key key (key new) tbl ->
  map key (upsert key merge new tbl) = map key tbl.
Proof.
  unfold has_key. induction tbl as [|r tbl IH]; cbn [map upsert].
  - intros H. by apply elem_of_nil in H.
  - intros H. destruct (decide (key r = key new)) as [E|Hne].
    + cbn [map]. rewrite merge_key by exact E. by rewrite E.
    + apply elem_of_cons in H as [H|H]; [congruence|]. cbn [map]. by rewrite IH.
Qed.

Lemma upsert_keys_absent (tbl : list R) :
  ~ has_key key (key new) tbl ->
  upsert key merge new tbl = tbl ++ [new].
Proof.
  unfold has_key. induction tbl as [|r tbl IH]; cbn [map upsert].
  - reflexivity.
  - rewrite not_elem_of_cons. intros [Hne H].
    destruct (decide (key r = key new)) as [|_]; [congruence|]. by rewrite IH.
Qed.

Lemma upsert_has (tbl : list R) :
  has_key key (key new) (upsert key merge new tbl).
Proof.
  destruct (decide (key new ∈ map key tbl)) as [H|H].
  - unfold has_key. by rewrite upsert_keys_present.
  - rewrite upsert_keys_absent by exact H. unfold has_key.
    rewrite map_app. apply elem_of_app. right. by apply list_elem_of_singleton.
Qed.

Lemma upsert_keeps (tbl : list R) (k : K) :
  has_key key k tbl -> has_key key k (upsert key merge new tbl).
Proof.
  intros Hk. destruct (decide (key new ∈ map key tbl)) as [H|H].
  - unfold has_key. by rewrite upsert_keys_present.
  - rewrite upsert_keys_absent by exact H. unfold has_key in *.
    rewrite map_app. apply elem_of_app. by left.
Qed.

Lemma upsert_unique (tbl : list R) :
  unique key tbl -> unique key (upsert key merge new tbl).
Proof.
  intros Hu. destruct (decide (key new ∈ map key tbl)) as [H|H].
  - unfold unique. by rewrite upsert_keys_present.
  - rewrite upsert_keys_absent by exact H. unfold unique in *.
    rewrite map_app. apply NoDup_app. split; [exact Hu|].
    split; [|apply NoDup_singleton].
    intros k Hk Hk'. apply list_elem_of_singleton in Hk'. subst k. by apply H.
Qed.

Lemma upsert_select_other (tbl : list R) (k : K) :
  k <> key new -> select key k (upsert key merge new tbl) = select key k tbl.
Proof.
  intros Hk. unfold select, rows_with. f_equal.
  induction tbl as [|r tbl IH]; cbn [upsert].
  - rewrite filter_cons_False by congruence. reflexivity.
  - destruct (decide (key r = key new)) as [E|Hne].
    + rewrite !filter_cons_False; [reflexivity | congruence |].
      rewrite merge_key by exact E. congruence.
    + destruct (decide (key r = k)) as [Ek|Nk].
      * rewrite !filter_cons_True by exact Ek. by rewrite IH.
      * rewrite !filter_cons_False by exact Nk. exact IH.
Qed.

Lemma upsert_select_new (tbl : list R) :
  ~ has_key key (key new) tbl ->
  select key (key new) (upsert key merge new tbl) = Some new.
Proof.
  intros H. rewrite upsert_keys_absent by exact H.
  unfold select. rewrite rows_with_app, rows_with_absent by exact H.
  unfold rows_with. by rewrite filter_cons_True.
Qed.

Lemma upsert_select_old (tbl : list R) (old : R) :
  select key (key new) tbl = Some old ->
  select key (key new) (upsert key merge new tbl) = Some (merge old new).
Proof.
  unfold select, rows_with.
  induction tbl as [|r tbl IH]; cbn [upsert]; [discriminate|].
  destruct (decide (key r = key new)) as [E|Hne].
  - rewrite filter_cons_True by exact E. cbn [head]. intros [= ->].
    rewrite filter_cons_True by (by apply merge_key). reflexivity.
  - rewrite !filter_cons_False by exact Hne. exact IH.
Qed.

End Upsert.

Lemma select_has (k : K) (tbl : list R) (r : R) :
  select key k tbl = Some r -> has_key key k tbl /\ key r = k /\ r ∈ tbl.
Proof.
  unfold select, rows_with, has_key. intros H.
  assert (Hr : r ∈ filter (fun r => key r = k) tbl).
  { destruct (filter _ tbl) as [|x l]; [discriminate|].
    injection H as ->. apply elem_of_cons. by left. }
  apply list_elem_of_filter in Hr as [Hk Hr].
  repeat split; try assumption. apply list_elem_of_fmap. eauto.
Qed.

Lemma select_none (k : K) (tbl : list R) :
  select key k tbl = None <-> ~ has_key key k tbl.
Proof.
  split.
  - intros Hs Hk. destruct (rows_with_present k tbl Hk) as (r & Hr & _).
    unfold select in Hs. destruct (rows_with key k tbl); [|discriminate].
    by apply elem_of_nil in Hr.
  - intros H. unfold select. by rewrite rows_with_absent.
Qed.

End TableFacts.

(** ** Topic resolution and the topic upsert ([nust_authors.py]) *)

Section TopicFacts.
Import Eff Fetcher Sql Spec.
Variable srv : server.

Lemma get_topic_details_hit tid d (w : world NustAuthors.state) :
  NustAuthors.topic_cache (store w) !! tid = Some d ->
  NustAuthors.get_topic_details srv tid w = Ok d w.
Proof. intros H. unfold NustAuthors.get_topic_details. by rewrite H. Qed.

(** A resolve that misses the cache goes to the network: it makes between
    one and [RETRY_MAX + 1] requests and caches the normal form of a 200
    answer only. *)
Lemma get_topic_details_miss tid (w : world NustAuthors.state) :
  NustAuthors.topic_cache (store w) !! tid = None ->
  let short := PyStr.last_segment "/" tid in
  exists n, (n <= RETRY_MAX)%nat /\
    let ans := answer (fun h => topics_endpoint srv h short) (GetTopic short) w n in
    let w1 := after_attempts (GetTopic short) NustAuthors.BASE_DELAY n w in
    (status_code ans = 200
     /\ NustAuthors.get_topic_details srv tid w
        = Ok (NustAuthors.normalize (json ans))
            {| trace := trace w1;
               store := {| NustAuthors.db := NustAuthors.db (store w);
                           NustAuthors.topic_cache :=
                             <[tid := NustAuthors.normalize (json ans)]>
                               (NustAuthors.topic_cache (store w));
                           NustAuthors.seen_work_ids :=
                             NustAuthors.seen_work_ids (store w) |} |})
    \/ (status_code ans <> 200
        /\ exists b,
             NustAuthors.get_topic_details srv tid w
             = Raise (HTTPError b (status_code ans)) w1).
Proof.
  intros Hmiss short. unfold NustAuthors.get_topic_details. rewrite Hmiss.
  fold short. unfold NustAuthors.get_with_retry, bind.
  destruct (get_with_retry_outcome (fun h => topics_endpoint srv h short)
              (GetTopic short) NustAuthors.BASE_DELAY w)
    as (n & Hn & [[H200 ->] | [Hne [b ->]]]); exists n; (split; [exact Hn|]).
  - left. split; [exact H200|]. reflexivity.
  - right. split; [exact Hne|]. exists b. reflexivity.
Qed.

(** What [get_topic_details] can do to the world. *)
Lemma get_topic_details_outcome tid (w : world NustAuthors.state) :
  match NustAuthors.get_topic_details srv tid w with
  | Ok d w' =>
      NustAuthors.db (store w') = NustAuthors.db (store w)
      /\ (NustAuthors.topic_cache (store w') = NustAuthors.topic_cache (store w)
          \/ exists h,
               status_code (topics_endpoint srv h (PyStr.last_segment "/" tid)) = 200
               /\ d = NustAuthors.normalize
                        (json (topics_endpoint srv h (PyStr.last_segment "/" tid)))
               /\ NustAuthors.topic_cache (store w')
                  = <[tid := d]> (NustAuthors.topic_cache (store w)))
  | Raise e w' => store w' = store w /\ exists b s, e = HTTPError b s
  | OutOfFuel => False
  end.
Proof.
  destruct (NustAuthors.topic_cache (store w) !! tid) as [d|] eqn:E.
  - rewrite (get_topic_details_hit tid d w E). auto.
  - destruct (get_topic_details_miss tid w E) as (n & _ & [[H200 ->] | [_ [b ->]]]).
    + cbn [store NustAuthors.db NustAuthors.topic_cache]. split; [reflexivity|].
      right. eexists. split; [exact H200|]. split; reflexivity.
    + split; [reflexivity | eauto].
Qed.

(** [enrich] always produces the parameters of the insert, for the topic
    asked and without touching the database. *)
Lemma enrich_ok tid t (w : world NustAuthors.state) :
  exists p w1,
    NustAuthors.enrich srv tid t w = Ok p w1
    /\ NustAuthors.tp_topic_id p = tid
    /\ NustAuthors.db (store w1) = NustAuthors.db (store w)
    /\ (is_Some (t_field t) -> is_Some (t_domain t) ->
        p = NustAuthors.topic_params_of tid (t_display_name t) (t_subfield t)
              (t_field t) (t_domain t) /\ w1 = w).
Proof.
  unfold NustAuthors.enrich. case_bool_decide as Hc.
  - eexists _, w. repeat split; reflexivity.
  - pose proof (get_topic_details_outcome tid w) as Ho.
    destruct (NustAuthors.get_topic_details srv tid w) as [d w'|e w'|];
      [| |done].
    + destruct Ho as [Hdb _]. eexists _, w'.
      split; [reflexivity|]. split; [reflexivity|]. split; [exact Hdb|].
      intros Hf Hd. exfalso. auto.
    + destruct Ho as [Hst (b & s & ->)]. eexists _, _.
      split; [reflexivity|]. split; [reflexivity|].
      split; [cbn; by rewrite Hst|]. intros Hf Hd. exfalso. auto.
Qed.

Lemma cache_sound_insert tid d (c : gmap string NustAuthors.details) h :
  cache_sound srv c ->
  status_code (topics_endpoint srv h (PyStr.last_segment "/" tid)) = 200 ->
  d = NustAuthors.normalize
        (json (topics_endpoint srv h (PyStr.last_segment "/" tid))) ->
  cache_sound srv (<[tid := d]> c).
Proof.
  intros Hc H200 Hd tid' d'. rewrite lookup_insert.
  case_decide as E; [|by apply Hc].
  intros [= <-]. subst tid'. eauto.
Qed.

Lemma get_topic_details_sound tid (w : world NustAuthors.state) :
  cache_sound srv (NustAuthors.topic_cache (store w)) ->
  match NustAuthors.get_topic_details srv tid w with
  | Ok _ w' | Raise _ w' => cache_sound srv (NustAuthors.topic_cache (store w'))
  | OutOfFuel => True
  end.
Proof.
  intros Hc. pose proof (get_topic_details_outcome tid w) as Ho.
  destruct (NustAuthors.get_topic_details srv tid w) as [d w'|e w'|]; [| |done].
  - destruct Ho as [_ [-> | (h & H200 & Hd & ->)]]; [exact Hc|].
    by eapply cache_sound_insert.
  - destruct Ho as [-> _]. exact Hc.
Qed.

Lemma enrich_sound tid t (w : world NustAuthors.state) p w1 :
  NustAuthors.enrich srv tid t w = Ok p w1 ->
  cache_sound srv (NustAuthors.topic_cache (store w)) ->
  cache_sound srv (NustAuthors.topic_cache (store w1)).
Proof.
  unfold NustAuthors.enrich. case_bool_decide as Hc.
  - intros [= _ <-]. auto.
  - intros Hrun Hs. pose proof (get_topic_details_sound tid w Hs) as Ho.
    destruct (NustAuthors.get_topic_details srv tid w) as [d w'|[b s|col] w'|];
      try discriminate.
    + by injection Hrun as _ <-.
    + by injection Hrun as _ <-.
Qed.

(** The whole of [upsert_topic] for a topic with an id: the parameters are
    computed, and the statement either fails on a null display name,
    leaving the world as the enrichment left it, or upserts the row. *)
Lemma upsert_topic_stored t tid (w : world NustAuthors.state) :
  t_id t = Some tid ->
  exists p w1,
    NustAuthors.enrich srv tid t w = Ok p w1
    /\ NustAuthors.tp_topic_id p = tid
    /\ NustAuthors.db (store w1) = NustAuthors.db (store w)
    /\ (is_Some (t_field t) -> is_Some (t_domain t) ->
        p = NustAuthors.topic_params_of tid (t_display_name t) (t_subfield t)
              (t_field t) (t_domain t) /\ w1 = w)
    /\ match NustAuthors.tp_display_name p with
       | Some name =>
           NustAuthors.upsert_topic srv t w
           = Ok (Some tid)
               {| trace := trace w1;
                  store := NustAuthors.on_db
                    (NustAuthors.set_topics
                       (upsert NustAuthors.tr_topic_id NustAuthors.merge_topic
                          (NustAuthors.topic_row_of p name)
                          (NustAuthors.topics (NustAuthors.db (store w)))))
                    (store w1) |}
       | None =>
           NustAuthors.upsert_topic srv t w
           = Raise (IntegrityError "topics.display_name") w1
       end.
Proof.
  intros Hid. destruct (enrich_ok tid t w) as (p & w1 & Hen & Hp & Hdb & Hc).
  exists p, w1. repeat (split; [assumption|]).
  unfold NustAuthors.upsert_topic. rewrite Hid. unfold bind. rewrite Hen.
  unfold NustAuthors.exec_insert_topic, NustAuthors.insert_topic.
  destruct (NustAuthors.tp_display_name p) as [name|]; [|reflexivity].
  unfold modify, ret. by rewrite Hdb.
Qed.

Lemma merge_topic_key (new r : NustAuthors.topic_row) :
  NustAuthors.tr_topic_id r = NustAuthors.tr_topic_id new ->
  NustAuthors.tr_topic_id (NustAuthors.merge_topic r new)
  = NustAuthors.tr_topic_id new.
Proof. intros H. exact H. Qed.

(** Column by column: a non-null parameter is stored, a null one keeps
    what was there. *)
Lemma merge_topic_columns old p name :
  Forall (fun '(col, par) =>
            col (NustAuthors.merge_topic old (NustAuthors.topic_row_of p name))
            = match par p with Some v => Some v | None => col old end)
    hierarchy_columns.
Proof.
  unfold hierarchy_columns. repeat constructor; cbn;
    match goal with |- coalesce ?x _ = _ => by destruct x end.
Qed.

End TopicFacts.

(** ** What the topic upsert writes, column by column *)

Section TopicWritten.
Import Eff Fetcher Sql Spec.
Variable srv : server.

(** A resolve that misses the cache and is answered 200 at attempt [n],
    after answers that are retried: the record returned is read from the
    body of that answer. *)
Lemma get_topic_details_fetched tid (w : world NustAuthors.state) n obj :
  NustAuthors.topic_cache (store w) !! tid = None ->
  (n <= RETRY_MAX)%nat ->
  let short := PyStr.last_segment "/" tid in
  (forall k, (k < n)%nat ->
     status_code (answer (fun h => topics_endpoint srv h short)
                    (GetTopic short) w k) ∈ [429; 500; 502; 503; 504]) ->
  answer (fun h => topics_endpoint srv h short) (GetTopic short) w n
  = {| status_code := 200; json := obj |} ->
  exists w1,
    NustAuthors.get_topic_details srv tid w = Ok (NustAuthors.normalize obj) w1.
Proof.
  intros Hmiss Hn short Htr Hans.
  unfold NustAuthors.get_topic_details. rewrite Hmiss. fold short.
  unfold NustAuthors.get_with_retry, bind.
  destruct (get_with_retry_cases (fun h => topics_endpoint srv h short)
              (GetTopic short) NustAuthors.BASE_DELAY w n Hn) as (H1 & _).
  { intros k Hk. apply transient_iff. by apply Htr. }
  rewrite H1 by (by rewrite Hans). rewrite Hans. cbn [json modify ret].
  eexists. reflexivity.
Qed.

(** The row a successful [upsert_topic] leaves: column by column the
    value carried, when there is one, else the value stored before. *)
Lemma upsert_topic_row t tid (w : world NustAuthors.state) :
  t_id t = Some tid ->
  let resolved :=
    match NustAuthors.get_topic_details srv tid w with
    | Ok full _ => Some full
    | _ => None
    end in
  match NustAuthors.upsert_topic srv t w with
  | Ok _ w' =>
      exists new,
        topic_row_at tid w' = Some new
        /\ Forall (fun '(col, lvl, dlv, _, key) =>
                     col new
                     = match carried lvl dlv key t resolved with
                       | Some v => Some v
                       | None => topic_row_at tid w ≫= col
                       end)
             hierarchy_levels
  | Raise _ w' =>
      NustAuthors.topics (NustAuthors.db (store w'))
      = NustAuthors.topics (NustAuthors.db (store w))
  | OutOfFuel => False
  end.
Proof.
  intros Hid resolved.
  destruct (upsert_topic_stored srv t tid w Hid)
    as (p & w1 & Hen & Hp & Hdb & _ & Hup).
  assert (Hpar : p = NustAuthors.topic_params_of tid (NustAuthors.tp_display_name p)
                   (if bool_decide (is_Some (t_field t) /\ is_Some (t_domain t))
                    then t_subfield t
                    else NustAuthors.dict_or (t_subfield t)
                           (resolved ≫= NustAuthors.d_subfield))
                   (if bool_decide (is_Some (t_field t) /\ is_Some (t_domain t))
                    then t_field t
                    else NustAuthors.dict_or (t_field t)
                           (resolved ≫= NustAuthors.d_field))
                   (if bool_decide (is_Some (t_field t) /\ is_Some (t_domain t))
                    then t_domain t
                    else NustAuthors.dict_or (t_domain t)
                           (resolved ≫= NustAuthors.d_domain))).
  { revert Hen. unfold NustAuthors.enrich, resolved. case_bool_decide as Hc.
    - intros [= <- _]. reflexivity.
    - destruct (NustAuthors.get_topic_details srv tid w)
        as [full w2|[b s|c] w2|]; try discriminate.
      + intros [= <- _]. reflexivity.
      + intros [= <- _]. cbn.
        by destruct (t_subfield t), (t_field t), (t_domain t). }
  destruct (NustAuthors.tp_display_name p) as [name|] eqn:Hname; rewrite Hup;
    [|by rewrite Hdb].
  set (row := NustAuthors.topic_row_of p name).
  assert (Htid : NustAuthors.tr_topic_id row = tid) by exact Hp.
  unfold topic_row_at. cbn [store NustAuthors.on_db NustAuthors.db
    NustAuthors.set_topics NustAuthors.topics].
  assert (Hcols : forall old : option NustAuthors.topic_row,
            Forall (fun '(col, lvl, dlv, _, key) =>
                      col (match old with
                           | Some o => NustAuthors.merge_topic o row
                           | None => row
                           end)
                      = match carried lvl dlv key t resolved with
                        | Some v => Some v
                        | None => old ≫= col
                        end)
              hierarchy_levels).
  { intros old. unfold row. rewrite Hpar. clear Hpar.
    unfold hierarchy_levels, carried.
    repeat (apply List.Forall_cons; [|]); [.. | apply List.Forall_nil];
      destruct old as [o|];
      cbn [NustAuthors.merge_topic NustAuthors.topic_row_of
           NustAuthors.topic_params_of NustAuthors.tr_subfield_id
           NustAuthors.tr_subfield NustAuthors.tr_field_id NustAuthors.tr_field
           NustAuthors.tr_domain_id NustAuthors.tr_domain
           NustAuthors.tp_subfield_id NustAuthors.tp_subfield
           NustAuthors.tp_field_id NustAuthors.tp_field
           NustAuthors.tp_domain_id NustAuthors.tp_domain];
      case_bool_decide;
      unfold NustAuthors.level_id, NustAuthors.level_name, NustAuthors.dict_or,
        coalesce;
      destruct resolved as [[? ? [[]|] [[]|] [[]|]]|];
      destruct (t_subfield t) as [[]|], (t_field t) as [[]|],
        (t_domain t) as [[]|];
      cbn; repeat case_match; congruence. }
  destruct (select NustAuthors.tr_topic_id tid
              (NustAuthors.topics (NustAuthors.db (store w)))) as [old|] eqn:Hold.
  - exists (NustAuthors.merge_topic old row).
    split; [rewrite <- Htid in Hold |- *; apply upsert_select_old;
            [intros r0 H; exact H | exact Hold]|].
    exact (Hcols (Some old)).
  - exists row. apply select_none in Hold.
    split; [rewrite <- Htid in Hold |- *; by apply upsert_select_new|].
    exact (Hcols None).
Qed.

End TopicWritten.

Section TopicClaims.
Import Eff Fetcher Sql Spec.
Variable srv : server.

(** C1 (as amended).  An upsert of a topic already stored merges each
    hierarchy column by "take the new value when it is non-null, else keep
    the stored one": a non-null new value replaces the stored value, also a
    different non-null one, and only a null new value leaves the stored
    value in place.  The display name written is never null and always
    replaces the stored one.  The new values are those of the payload when
    it carries field and domain. *)
Theorem topic_upsert_merge (t : topic_ref) (tid : string)
    (w w' : world NustAuthors.state) (old : NustAuthors.topic_row)
    (r : option string) :
  t_id t = Some tid ->
  topic_row_at tid w = Some old ->
  NustAuthors.upsert_topic srv t w = Ok r w' ->
  exists p w1 name new,
    NustAuthors.enrich srv tid t w = Ok p w1
    /\ (is_Some (t_field t) -> is_Some (t_domain t) ->
        p = NustAuthors.topic_params_of tid (t_display_name t) (t_subfield t)
              (t_field t) (t_domain t))
    /\ NustAuthors.tp_display_name p = Some name
    /\ topic_row_at tid w' = Some new
    /\ NustAuthors.tr_display_name new = name
    /\ Forall (fun '(col, par) =>
                 col new = match par p with Some v => Some v | None => col old end)
         hierarchy_columns.
Proof.
  intros Hid Hold Hrun.
  destruct (upsert_topic_stored srv t tid w Hid)
    as (p & w1 & Hen & Hp & Hdb & Hc & Hup).
  destruct (NustAuthors.tp_display_name p) as [name|] eqn:Hname;
    rewrite Hup in Hrun; [|discriminate].
  injection Hrun as <- <-.
  exists p, w1, name, (NustAuthors.merge_topic old (NustAuthors.topic_row_of p name)).
  split; [exact Hen|]. split; [intros Hf Hd; by destruct (Hc Hf Hd)|].
  split; [exact Hname|]. split; [|split; [reflexivity | apply merge_topic_columns]].
  unfold topic_row_at in *. cbn [store NustAuthors.on_db NustAuthors.db
    NustAuthors.set_topics NustAuthors.topics].
  rewrite <- Hp in Hold |- *.
  change (NustAuthors.tp_topic_id p)
    with (NustAuthors.tr_topic_id (NustAuthors.topic_row_of p name)) in Hold |- *.
  apply upsert_select_old; [|exact Hold].
  intros r0 Hr0. exact Hr0.
Qed.

(** C7.  One [upsert_topic] of a topic with an id never stops short.
    When it fails (null display name) the topics table is as before.  When
    it succeeds the topic has a row in which, column by column: (filled
    from the payload) a non-null value of a level the payload has is
    stored, whatever was there before, null included; (filled from the
    resolver) when the payload lacks field or domain and the topic
    resolves, a non-null resolved value of a level the payload lacks is
    stored; (kept) a column that held a value is not null afterwards, and
    it holds the very value it held when the upsert carries null for it:
    the payload has no value for it and the resolver is not asked, fails
    or has none either.  The resolver returns the cached record, or else
    reads the body of the first 200 answer: subfield and field from the
    body, the domain from the body's field when it has one, else from the
    body. *)
Theorem topic_enrichment_monotonic (t : topic_ref) (tid : string)
    (w : world NustAuthors.state) :
  t_id t = Some tid ->
  (forall d, NustAuthors.topic_cache (store w) !! tid = Some d ->
     NustAuthors.get_topic_details srv tid w = Ok d w)
  /\ (forall n obj,
        NustAuthors.topic_cache (store w) !! tid = None ->
        (n <= RETRY_MAX)%nat ->
        (forall k, (k < n)%nat ->
           status_code
             (answer (fun h => topics_endpoint srv h (PyStr.last_segment "/" tid))
                (GetTopic (PyStr.last_segment "/" tid)) w k)
           ∈ [429; 500; 502; 503; 504]) ->
        answer (fun h => topics_endpoint srv h (PyStr.last_segment "/" tid))
          (GetTopic (PyStr.last_segment "/" tid)) w n
        = {| status_code := 200; json := obj |} ->
        exists full w1,
          NustAuthors.get_topic_details srv tid w = Ok full w1
          /\ Forall (fun '(_, _, dlv, olv, _) => dlv full = olv obj)
               hierarchy_levels)
  /\ match NustAuthors.upsert_topic srv t w with
     | Ok _ w' =>
         exists new,
           topic_row_at tid w' = Some new
           /\ Forall
                (fun '(col, lvl, dlv, _, key) =>
                   (forall l v, lvl t = Some l -> key l = Some v ->
                      col new = Some v)
                   /\ (forall full w1 l v,
                         ~ (is_Some (t_field t) /\ is_Some (t_domain t)) ->
                         lvl t = None ->
                         NustAuthors.get_topic_details srv tid w = Ok full w1 ->
                         dlv full = Some l -> key l = Some v ->
                         col new = Some v)
                   /\ (forall old, topic_row_at tid w = Some old ->
                         (col old <> None -> col new <> None)
                         /\ ((forall l, lvl t = Some l -> key l = None) ->
                             (is_Some (t_field t) /\ is_Some (t_domain t))
                             \/ (exists e w1,
                                   NustAuthors.get_topic_details srv tid w
                                   = Raise e w1)
                             \/ (exists full w1,
                                   NustAuthors.get_topic_details srv tid w
                                   = Ok full w1
                                   /\ (lvl t = None ->
                                       forall l, dlv full = Some l ->
                                                 key l = None)) ->
                             col new = col old)))
                hierarchy_levels
     | Raise _ w' =>
         NustAuthors.topics (NustAuthors.db (store w'))
         = NustAuthors.topics (NustAuthors.db (store w))
     | OutOfFuel => False
     end.
Proof.
  intros Hid. split; [intros d Hd; by apply get_topic_details_hit|]. split.
  - intros n obj Hmiss Hn Htr Hans.
    destruct (get_topic_details_fetched srv tid w n obj Hmiss Hn Htr Hans)
      as (w1 & Hrun).
    exists (NustAuthors.normalize obj), w1. split; [exact Hrun|].
    unfold hierarchy_levels, body_domain.
    repeat (apply List.Forall_cons; [|]); [.. | apply List.Forall_nil];
      cbn; try reflexivity; by destruct (to_field_domain obj).
  - pose proof (upsert_topic_row srv t tid w Hid) as Hrow. cbv zeta in Hrow.
    destruct (NustAuthors.upsert_topic srv t w) as [r w'|e w'|];
      [|exact Hrow | exact Hrow].
    destruct Hrow as (new & Hnew & Hcols). exists new. split; [exact Hnew|].
    eapply Forall_impl; [exact Hcols|].
    intros [[[[col lvl] dlv] olv] key] E. unfold carried in E.
    split; [|split].
    + intros l v Hl Hv. by rewrite E, Hl, Hv.
    + intros full w1 l v Hnb Hl Hrun Hd Hv.
      rewrite E, Hl, Hrun. rewrite bool_decide_eq_false_2 by exact Hnb.
      cbn. rewrite Hd. cbn. by rewrite Hv.
    + intros old Hold. rewrite Hold in E. cbn in E. split.
      * intros Hne. rewrite E. by case_match.
      * intros Hnull Hcase. rewrite E.
        destruct (lvl t) as [l|] eqn:Hl; [by rewrite (Hnull l eq_refl)|].
        case_bool_decide as Hb; [reflexivity|].
        destruct Hcase as [Hboth | [(e & w1 & Hrun) | (full & w1 & Hrun & Hres)]].
        -- contradiction.
        -- by rewrite Hrun.
        -- rewrite Hrun. cbn.
           destruct (dlv full) as [l|] eqn:Hd; [|reflexivity].
           cbn. by rewrite (Hres eq_refl l eq_refl).
Qed.

(** C10.  A failed resolve caches nothing and changes nothing but the
    trace; a cache in which every entry is the normal form of a 200 answer
    stays so through [get_topic_details] and [upsert_topic]; and a resolve
    of a topic that is not cached, as after a failure, goes to the network
    again: it makes at least one request and, once the answer is 200,
    returns and caches its normal form.  [upsert_topic] itself carries on
    after a failed resolve. *)
Theorem failed_enrichment_not_cached (tid : string) (t : topic_ref)
    (w : world NustAuthors.state) :
  (forall e w', NustAuthors.get_topic_details srv tid w = Raise e w' ->
     store w' = store w
     /\ NustAuthors.topic_cache (store w') !! tid = None
     /\ exists b s, e = HTTPError b s)
  /\ (cache_sound srv (NustAuthors.topic_cache (store w)) ->
      (forall d w', NustAuthors.get_topic_details srv tid w = Ok d w' ->
         cache_sound srv (NustAuthors.topic_cache (store w')))
      /\ (forall r w', NustAuthors.upsert_topic srv t w = Ok r w' ->
            cache_sound srv (NustAuthors.topic_cache (store w')))
      /\ (forall e w', NustAuthors.upsert_topic srv t w = Raise e w' ->
            cache_sound srv (NustAuthors.topic_cache (store w'))))
  /\ (NustAuthors.topic_cache (store w) !! tid = None ->
      let short := PyStr.last_segment "/" tid in
      exists n, (n <= RETRY_MAX)%nat /\
        let ans := answer (fun h => topics_endpoint srv h short) (GetTopic short) w n in
        forall o, NustAuthors.get_topic_details srv tid w = o ->
          (status_code ans = 200
           /\ exists w',
                o = Ok (NustAuthors.normalize (json ans)) w'
                /\ history w' = replicate (S n) (GetTopic short) ++ history w
                /\ NustAuthors.topic_cache (store w') !! tid
                   = Some (NustAuthors.normalize (json ans)))
          \/ (status_code ans <> 200
              /\ exists b w',
                   o = Raise (HTTPError b (status_code ans)) w'
                   /\ history w' = replicate (S n) (GetTopic short) ++ history w))
  /\ (forall b s w', NustAuthors.upsert_topic srv t w <> Raise (HTTPError b s) w').
Proof.
  split; [|split; [|split]].
  - intros e w' Hrun.
    destruct (NustAuthors.topic_cache (store w) !! tid) as [d|] eqn:E.
    + rewrite (get_topic_details_hit srv tid d w E) in Hrun. discriminate.
    + pose proof (get_topic_details_outcome srv tid w) as Ho.
      rewrite Hrun in Ho. destruct Ho as [Hst Hex].
      rewrite Hst. auto.
  - intros Hs. split; [|split].
    + intros d w' Hrun. pose proof (get_topic_details_sound srv tid w Hs) as Ho.
      by rewrite Hrun in Ho.
    + intros r w' Hrun. destruct (t_id t) as [tid'|] eqn:Hid.
      * destruct (upsert_topic_stored srv t tid' w Hid)
          as (p & w1 & Hen & _ & _ & _ & Hup).
        pose proof (enrich_sound srv tid' t w p w1 Hen Hs) as Hs1.
        destruct (NustAuthors.tp_display_name p); rewrite Hup in Hrun;
          [|discriminate].
        by injection Hrun as _ <-.
      * unfold NustAuthors.upsert_topic in Hrun. rewrite Hid in Hrun.
        by injection Hrun as _ <-.
    + intros e w' Hrun. destruct (t_id t) as [tid'|] eqn:Hid.
      * destruct (upsert_topic_stored srv t tid' w Hid)
          as (p & w1 & Hen & _ & _ & _ & Hup).
        pose proof (enrich_sound srv tid' t w p w1 Hen Hs) as Hs1.
        destruct (NustAuthors.tp_display_name p); rewrite Hup in Hrun;
          [discriminate|].
        by injection Hrun as _ <-.
      * unfold NustAuthors.upsert_topic in Hrun. rewrite Hid in Hrun.
        discriminate.
  - intros Hmiss short.
    destruct (get_topic_details_miss srv tid w Hmiss) as (n & Hn & Hcase).
    exists n. split; [exact Hn|]. intros ans o <-.
    destruct Hcase as [[H200 Hrun] | [Hne [b Hrun]]].
    + left. split; [exact H200|]. eexists. split; [exact Hrun|].
      split.
      * unfold history. cbn [trace]. apply history_after_attempts.
      * cbn [store NustAuthors.topic_cache]. apply lookup_insert_eq.
    + right. split; [exact Hne|]. exists b. eexists. split; [exact Hrun|].
      apply history_after_attempts.
  - intros b s w' Hrun. destruct (t_id t) as [tid'|] eqn:Hid.
    + destruct (upsert_topic_stored srv t tid' w Hid)
        as (p & w1 & _ & _ & _ & _ & Hup).
      destruct (NustAuthors.tp_display_name p); rewrite Hup in Hrun; discriminate.
    + unfold NustAuthors.upsert_topic in Hrun. rewrite Hid in Hrun. discriminate.
Qed.

End TopicClaims.

(** ** Worked runs of the topic upsert *)

Section TopicRuns.
Import Eff Fetcher Sql Spec Samples.

(** The stored field "Physics" gives way to the new "Chemistry". *)
Lemma topic_upsert_merge_counterexample :
  NustAuthors.tr_field T1_stored = Some "Physics"
  /\ level_name_of_field T1_full = Some "Chemistry"
  /\ exists w',
       NustAuthors.upsert_topic harvest_srv T1_full
         (start (nust_with_topics [T1_stored])) = Ok (Some T1) w'
       /\ NustAuthors.tr_field <$> topic_row_at T1 w' = Some (Some "Chemistry").
Proof.
  split; [reflexivity | split; [reflexivity |]].
  eexists. split; reflexivity.
Qed.

Lemma topic_upsert_merge_witness :
  t_id T1_full = Some T1
  /\ topic_row_at T1 (start (nust_with_topics [T1_stored])) = Some T1_stored
  /\ exists p w1 name new,
       NustAuthors.enrich harvest_srv T1 T1_full
         (start (nust_with_topics [T1_stored])) = Ok p w1
       /\ NustAuthors.tp_display_name p = Some name
       /\ NustAuthors.tr_display_name new = name
       /\ Forall (fun '(col, par) =>
                    col new = match par p with
                              | Some v => Some v
                              | None => col T1_stored
                              end)
            hierarchy_columns.
Proof.
  split; [reflexivity | split; [reflexivity |]].
  destruct (topic_upsert_merge harvest_srv T1_full T1
              (start (nust_with_topics [T1_stored])) _ T1_stored (Some T1)
              eq_refl eq_refl eq_refl)
    as (p & w1 & name & new & Hen & _ & Hname & _ & Hdisp & Hcols).
  exists p, w1, name, new. auto.
Defined.

(** A row with null field and domain is filled from a payload that has
    them, and from the resolver when the payload has none; the resolver
    being down, a bare payload leaves the stored field as it was. *)
Lemma topic_enrichment_monotonic_witness :
  (exists w',
     NustAuthors.upsert_topic harvest_srv T1_full
       (start (nust_with_topics [Samples2.null_row T1 "Quantum optics"]))
     = Ok (Some T1) w'
     /\ NustAuthors.tr_field <$> topic_row_at T1 w' = Some (Some "Chemistry"))
  /\ (exists w',
        NustAuthors.upsert_topic Samples2.topics_srv Samples2.T2_bare
          (start (nust_with_topics [Samples2.null_row Samples2.T2 "Photonics"]))
        = Ok (Some Samples2.T2) w'
        /\ NustAuthors.tr_field <$> topic_row_at Samples2.T2 w'
           = Some (Some "Engineering")
        /\ NustAuthors.tr_domain <$> topic_row_at Samples2.T2 w'
           = Some (Some "Physical Sciences"))
  /\ (exists w',
        NustAuthors.upsert_topic harvest_srv T1_bare
          (start (nust_with_topics [T1_stored])) = Ok (Some T1) w'
        /\ NustAuthors.tr_field <$> topic_row_at T1 w' = Some (Some "Physics")).
Proof.
  split; [|split].
  - set (w0 := start (nust_with_topics [Samples2.null_row T1 "Quantum optics"])).
    destruct (topic_enrichment_monotonic harvest_srv T1_full T1 w0 eq_refl)
      as (_ & _ & H).
    assert (Hrun : exists w',
              NustAuthors.upsert_topic harvest_srv T1_full w0 = Ok (Some T1) w')
      by (eexists; reflexivity).
    destruct Hrun as (w' & Hrun). rewrite Hrun in H.
    destruct H as (new & Hnew & Hcols). exists w'. split; [exact Hrun|].
    pose proof (Forall_lookup_1 _ _ 3%nat _ Hcols eq_refl) as (Hfill & _).
    rewrite Hnew. cbn [fmap option_fmap option_map]. f_equal.
    exact (Hfill _ "Chemistry" eq_refl eq_refl).
  - set (w0 := start (nust_with_topics
                        [Samples2.null_row Samples2.T2 "Photonics"])).
    destruct (topic_enrichment_monotonic Samples2.topics_srv Samples2.T2_bare
                Samples2.T2 w0 eq_refl) as (_ & Hres & H).
    destruct (Hres 0%nat Samples2.T2_body eq_refl ltac:(unfold RETRY_MAX; lia)
                ltac:(intros k Hk; lia) eq_refl)
      as (full & w1 & Hget & Hfull).
    assert (Hrun : exists w',
              NustAuthors.upsert_topic Samples2.topics_srv Samples2.T2_bare w0
              = Ok (Some Samples2.T2) w')
      by (eexists; reflexivity).
    destruct Hrun as (w' & Hrun). rewrite Hrun in H.
    destruct H as (new & Hnew & Hcols). exists w'. split; [exact Hrun|].
    assert (Hnb : ~ (is_Some (t_field Samples2.T2_bare)
                     /\ is_Some (t_domain Samples2.T2_bare)))
      by (intros [[x Hx] _]; discriminate Hx).
    pose proof (Forall_lookup_1 _ _ 3%nat _ Hcols eq_refl) as (_ & Hfield & _).
    pose proof (Forall_lookup_1 _ _ 5%nat _ Hcols eq_refl) as (_ & Hdom & _).
    pose proof (Forall_lookup_1 _ _ 3%nat _ Hfull eq_refl) as Hf.
    pose proof (Forall_lookup_1 _ _ 5%nat _ Hfull eq_refl) as Hd.
    cbn beta iota in Hf, Hd.
    rewrite Hnew. cbn [fmap option_fmap option_map]. split; f_equal.
    + exact (Hfield full w1 _ "Engineering" Hnb eq_refl Hget Hf eq_refl).
    + exact (Hdom full w1 _ "Physical Sciences" Hnb eq_refl Hget Hd eq_refl).
  - set (w0 := start (nust_with_topics [T1_stored])).
    destruct (topic_enrichment_monotonic harvest_srv T1_bare T1 w0 eq_refl)
      as (_ & _ & H).
    assert (Hrun : exists w',
              NustAuthors.upsert_topic harvest_srv T1_bare w0 = Ok (Some T1) w')
      by (eexists; reflexivity).
    destruct Hrun as (w' & Hrun). rewrite Hrun in H.
    destruct H as (new & Hnew & Hcols). exists w'. split; [exact Hrun|].
    pose proof (Forall_lookup_1 _ _ 3%nat _ Hcols eq_refl) as (_ & _ & Hkept).
    destruct (Hkept T1_stored eq_refl) as (_ & Hsame).
    rewrite Hnew. cbn [fmap option_fmap option_map]. f_equal.
    change (Some "Physics") with (NustAuthors.tr_field T1_stored).
    apply Hsame; [intros l Hl; discriminate Hl|].
    right. left.
    assert (Hfail : exists e w1,
              NustAuthors.get_topic_details harvest_srv T1 w0 = Raise e w1)
      by (eexists _, _; reflexivity).
    exact Hfail.
Defined.

(** Null, then filled, then null again: the values stay. *)
Example topic_enrichment_three_steps :
  exists w1 w2 w3,
    NustAuthors.upsert_topic harvest_srv T1_bare (start nust_empty) = Ok (Some T1) w1
    /\ NustAuthors.tr_field <$> topic_row_at T1 w1 = Some None
    /\ NustAuthors.upsert_topic harvest_srv T1_full w1 = Ok (Some T1) w2
    /\ NustAuthors.tr_field <$> topic_row_at T1 w2 = Some (Some "Chemistry")
    /\ NustAuthors.upsert_topic harvest_srv T1_bare w2 = Ok (Some T1) w3
    /\ NustAuthors.tr_field <$> topic_row_at T1 w3 = Some (Some "Chemistry")
    /\ NustAuthors.tr_domain <$> topic_row_at T1 w3
       = Some (Some "Physical Sciences").
Proof. do 3 eexists. repeat split; reflexivity. Qed.

(** A first resolve meets six 503 answers and fails; nothing is cached,
    and the second resolve asks again, is answered and caches. *)
Lemma failed_enrichment_not_cached_witness :
  exists e d w2,
    NustAuthors.get_topic_details recovering_srv T1 (start nust_empty)
    = Raise e after_outage
    /\ NustAuthors.topic_cache (store after_outage) !! T1 = None
    /\ length (history after_outage) = 6%nat
    /\ NustAuthors.get_topic_details recovering_srv T1 after_outage = Ok d w2
    /\ length (history w2) = 7%nat
    /\ NustAuthors.topic_cache (store w2) !! T1 = Some d.
Proof.
  assert (Hrun1 : NustAuthors.get_topic_details recovering_srv T1 (start nust_empty)
                  = Raise (HTTPError true 503) after_outage) by reflexivity.
  destruct (proj1 (failed_enrichment_not_cached recovering_srv T1 T1_bare
                     (start nust_empty)) _ _ Hrun1) as (_ & Hmiss & _).
  destruct (proj1 (proj2 (proj2 (failed_enrichment_not_cached recovering_srv T1
                                   T1_bare after_outage))) Hmiss)
    as (n & Hn & Hnext).
  destruct (Hnext _ eq_refl)
    as [(H200 & w2 & Hrun2 & Hh & Hc) | (Hne & b & w2 & Hrun2 & _)];
    [|discriminate Hrun2].
  eexists _, _, w2. split; [exact Hrun1|]. split; [exact Hmiss|].
  split; [reflexivity|]. split; [exact Hrun2|]. split; [|exact Hc].
  replace w2 with (match NustAuthors.get_topic_details recovering_srv T1
                           after_outage with
                   | Ok _ w => w
                   | _ => after_outage
                   end) by (by rewrite Hrun2).
  reflexivity.
Defined.

End TopicRuns.

(** ** The fact table ([conf_jour_outputs.py]) *)

Section FactFacts.
Import Sql Spec.

Lemma insert_fact_row w tbl au :
  PyStr.truthy (au_author_id au) = true ->
  ConfJour.insert_fact w tbl au
  = insert_or_ignore ConfJour.fact_key (fact_of (PyStr.or_empty (au_author_id au)) w) tbl.
Proof. intros H. unfold ConfJour.insert_fact. by rewrite H. Qed.

Lemma insert_fact_unique w tbl au :
  unique ConfJour.fact_key tbl -> unique ConfJour.fact_key (ConfJour.insert_fact w tbl au).
Proof.
  unfold ConfJour.insert_fact. destruct (PyStr.truthy _); [|done].
  apply insert_or_ignore_unique.
Qed.

(** A key already present: its rows are not touched. *)
Lemma insert_fact_present k w tbl au :
  has_key ConfJour.fact_key k tbl ->
  has_key ConfJour.fact_key k (ConfJour.insert_fact w tbl au)
  /\ rows_with ConfJour.fact_key k (ConfJour.insert_fact w tbl au) = rows_with ConfJour.fact_key k tbl.
Proof.
  intros Hk. unfold ConfJour.insert_fact.
  destruct (PyStr.truthy (au_author_id au)); [|done].
  split; [by apply insert_or_ignore_keeps|].
  match goal with |- context [insert_or_ignore ConfJour.fact_key ?new tbl] =>
    destruct (insert_or_ignore_cases ConfJour.fact_key new tbl) as [[_ ->] | [Hn ->]];
      [reflexivity|];
    rewrite rows_with_app; unfold rows_with at 2;
    rewrite filter_cons_False; [by rewrite app_nil_r|];
    intros E; apply Hn; by rewrite E
  end.
Qed.

(** A key not yet present: it enters with the row of this work exactly when
    the authorship lists the author and the work has the id. *)
Lemma insert_fact_absent a wid w tbl au :
  ~ has_key ConfJour.fact_key (a, wid) tbl ->
  if bool_decide (w_id w = wid) && lists_author a au
  then rows_with ConfJour.fact_key (a, wid) (ConfJour.insert_fact w tbl au) = [fact_of a w]
       /\ has_key ConfJour.fact_key (a, wid) (ConfJour.insert_fact w tbl au)
  else ~ has_key ConfJour.fact_key (a, wid) (ConfJour.insert_fact w tbl au).
Proof.
  intros Hn. unfold lists_author, ConfJour.insert_fact.
  destruct (PyStr.truthy (au_author_id au)) eqn:Htr.
  - destruct (au_author_id au) as [b|] eqn:Hau; [|discriminate].
    cbn [PyStr.or_empty default id].
    set (new := {| ConfJour.fr_author_id := b; ConfJour.fr_work_id := w_id w;
                   ConfJour.fr_year := w_publication_year w;
                   ConfJour.fr_venue_type := Venue.classify_venue_type w |}).
    destruct (decide ((b, w_id w) = (a, wid))) as [E|Hne].
    + injection E as -> <-.
      rewrite !bool_decide_eq_true_2 by reflexivity. rewrite Htr. cbn [andb].
      change (ConfJour.fact_key new) with (a, w_id w) in *.
      assert (Hnk : ~ has_key ConfJour.fact_key (ConfJour.fact_key new) tbl) by exact Hn.
      rewrite (insert_or_ignore_absent ConfJour.fact_key new tbl Hnk).
      split.
      * rewrite rows_with_app, (rows_with_absent ConfJour.fact_key _ tbl Hn).
        unfold rows_with. by rewrite filter_cons_True.
      * unfold has_key. rewrite map_app. apply elem_of_app. right.
        by apply list_elem_of_singleton.
    + assert (Hb : bool_decide (w_id w = wid)
                   && (bool_decide (Some b = Some a) && PyStr.truthy (Some a))
                   = false).
      { destruct (bool_decide_reflect (w_id w = wid)) as [Ew|]; [|done].
        destruct (bool_decide_reflect (Some b = Some a)) as [[= Eb]|]; [|done].
        congruence. }
      rewrite Hb.
      destruct (insert_or_ignore_cases ConfJour.fact_key new tbl) as [[_ ->] | [_ ->]];
        [exact Hn|].
      intros Hk. unfold has_key in Hk. rewrite map_app in Hk.
      apply elem_of_app in Hk as [Hk|Hk]; [by apply Hn|].
      apply list_elem_of_singleton in Hk. by apply Hne.
  - assert (Hb : bool_decide (w_id w = wid)
                 && (bool_decide (au_author_id au = Some a) && PyStr.truthy (Some a))
                 = false).
    { destruct (bool_decide_reflect (au_author_id au = Some a)) as [E|];
        [|by rewrite andb_false_r].
      rewrite E in Htr. by rewrite Htr, !andb_false_r. }
    rewrite Hb. exact Hn.
Qed.

Lemma facts_of_work_unique w aus tbl :
  unique ConfJour.fact_key tbl -> unique ConfJour.fact_key (facts_of_work w aus tbl).
Proof.
  revert tbl. induction aus as [|au aus IH]; intros tbl Hu; [exact Hu|].
  apply IH. by apply insert_fact_unique.
Qed.

Lemma facts_of_work_present k w aus tbl :
  has_key ConfJour.fact_key k tbl ->
  has_key ConfJour.fact_key k (facts_of_work w aus tbl)
  /\ rows_with ConfJour.fact_key k (facts_of_work w aus tbl) = rows_with ConfJour.fact_key k tbl.
Proof.
  revert tbl. induction aus as [|au aus IH]; intros tbl Hk; [done|].
  destruct (insert_fact_present k w tbl au Hk) as [Hk' Hr].
  destruct (IH _ Hk') as [Hk'' Hr']. split; [exact Hk''|].
  unfold facts_of_work in *. cbn [fold_left]. by rewrite Hr'.
Qed.

Lemma facts_of_work_absent a wid w aus tbl :
  ~ has_key ConfJour.fact_key (a, wid) tbl ->
  if bool_decide (w_id w = wid) && existsb (lists_author a) aus
  then rows_with ConfJour.fact_key (a, wid) (facts_of_work w aus tbl) = [fact_of a w]
       /\ has_key ConfJour.fact_key (a, wid) (facts_of_work w aus tbl)
  else ~ has_key ConfJour.fact_key (a, wid) (facts_of_work w aus tbl).
Proof.
  revert tbl. induction aus as [|au aus IH]; intros tbl Hn.
  - cbn [existsb]. by rewrite andb_false_r.
  - cbn [existsb]. pose proof (insert_fact_absent a wid w tbl au Hn) as H1.
    change (facts_of_work w (au :: aus) tbl)
      with (facts_of_work w aus (ConfJour.insert_fact w tbl au)).
    destruct (bool_decide (w_id w = wid)) eqn:Ew; cbn [andb] in *.
    + destruct (lists_author a au) eqn:El; cbn [orb].
      * destruct H1 as [Hr Hk].
        destruct (facts_of_work_present (a, wid) w aus _ Hk) as [Hk' Hr'].
        split; [by rewrite Hr' | exact Hk'].
      * exact (IH _ H1).
    + exact (IH _ H1).
Qed.

Lemma processed_facts ws d :
  ConfJour.fact_authorships_works (processed ws d)
  = fold_left (fun tbl w => facts_of_work w (w_authorships w) tbl) ws (ConfJour.fact_authorships_works d).
Proof.
  revert d. induction ws as [|w ws IH]; intros d; [reflexivity|].
  unfold processed in *. cbn [fold_left]. rewrite IH. reflexivity.
Qed.

Lemma stream_present k ws tbl :
  has_key ConfJour.fact_key k tbl ->
  rows_with ConfJour.fact_key k
    (fold_left (fun tbl w => facts_of_work w (w_authorships w) tbl) ws tbl)
  = rows_with ConfJour.fact_key k tbl.
Proof.
  revert tbl. induction ws as [|w ws IH]; intros tbl Hk; [reflexivity|].
  cbn [fold_left]. destruct (facts_of_work_present k w (w_authorships w) tbl Hk)
    as [Hk' Hr]. rewrite IH by exact Hk'. exact Hr.
Qed.

Lemma stream_unique ws tbl :
  unique ConfJour.fact_key tbl ->
  unique ConfJour.fact_key
    (fold_left (fun tbl w => facts_of_work w (w_authorships w) tbl) ws tbl).
Proof.
  revert tbl. induction ws as [|w ws IH]; intros tbl Hu; [exact Hu|].
  cbn [fold_left]. apply IH. by apply facts_of_work_unique.
Qed.

Lemma stream_absent a wid ws tbl :
  ~ has_key ConfJour.fact_key (a, wid) tbl ->
  rows_with ConfJour.fact_key (a, wid)
    (fold_left (fun tbl w => facts_of_work w (w_authorships w) tbl) ws tbl)
  = match first_observation a wid ws with
    | Some w0 => [fact_of a w0]
    | None => []
    end.
Proof.
  revert tbl. induction ws as [|w ws IH]; intros tbl Hn.
  - cbn. by apply rows_with_absent.
  - cbn [fold_left]. unfold first_observation in *. cbn [List.find].
    pose proof (facts_of_work_absent a wid w (w_authorships w) tbl Hn) as H1.
    unfold observed at 1. unfold lists_author in H1.
    destruct (bool_decide (w_id w = wid) && existsb _ (w_authorships w)).
    + destruct H1 as [Hr Hk]. by rewrite stream_present.
    + by apply IH.
Qed.

End FactFacts.

Section FactClaims.
Import Eff Sql Spec.

Lemma work_body_db (w : work) (x : world ConfJour.state) :
  exists x',
    ConfJour.work_body w x = Ok tt x'
    /\ trace x' = trace x
    /\ ConfJour.db (store x')
       = ConfJour.upsert_fact_db w (ConfJour.upsert_work_db w (ConfJour.db (store x)))
    /\ ConfJour.author_ids (store x') = ConfJour.author_ids (store x).
Proof. eexists. split; [reflexivity|]. repeat split. Qed.

Lemma for_each_work_body (ws : list work) (x : world ConfJour.state) :
  exists x',
    for_each ConfJour.work_body ws x = Ok tt x'
    /\ trace x' = trace x
    /\ ConfJour.db (store x') = processed ws (ConfJour.db (store x))
    /\ ConfJour.author_ids (store x') = ConfJour.author_ids (store x).
Proof.
  revert x. induction ws as [|w ws IH]; intros x.
  - exists x. repeat split.
  - destruct (work_body_db w x) as (x1 & Hrun & Htr & Hdb & Hids).
    destruct (IH x1) as (x' & Hrun' & Htr' & Hdb' & Hids').
    exists x'. cbn [for_each]. unfold bind. rewrite Hrun.
    split; [exact Hrun'|]. split; [congruence|]. split; [|congruence].
    rewrite Hdb', Hdb. reflexivity.
Qed.

Lemma find_first {A} (f : A -> bool) (l : list A) (x : A) :
  List.find f l = Some x ->
  exists l1 l2, l = l1 ++ x :: l2 /\ f x = true /\ Forall (fun y => f y = false) l1.
Proof.
  induction l as [|y l IH]; cbn [List.find]; [discriminate|].
  destruct (f y) eqn:E.
  - intros [= ->]. exists [], l. repeat split; [exact E | constructor].
  - intros H. destruct (IH H) as (l1 & l2 & -> & Hx & Hl1).
    exists (y :: l1), l2. repeat split; [exact Hx | by constructor].
Qed.

(** C8.  Let the loop body of [conf_jour_outputs.py] run on any stream of
    works [ws], as they come from the pages of any authors, from a
    database [d0].  For a pair (author, work) not yet in the fact table
    and observed in the stream, however many times, the table ends with
    exactly one row for it, carrying year and venue type of the first work
    that observes it; a pair never observed gets no row, and the rows of a
    pair already stored are left as they are.  The uniqueness of the pairs
    is kept. *)
Theorem fact_first_write_wins (ws : list work) (d0 : ConfJour.database)
    (a wid : string) :
  (forall x : world ConfJour.state, ConfJour.db (store x) = d0 ->
     exists x', for_each ConfJour.work_body ws x = Ok tt x'
                /\ ConfJour.db (store x') = processed ws d0)
  /\ (~ has_key ConfJour.fact_key (a, wid) (ConfJour.fact_authorships_works d0) ->
      forall w0, first_observation a wid ws = Some w0 ->
        rows_with ConfJour.fact_key (a, wid)
          (ConfJour.fact_authorships_works (processed ws d0))
        = [ {| ConfJour.fr_author_id := a; ConfJour.fr_work_id := wid;
               ConfJour.fr_year := w_publication_year w0;
               ConfJour.fr_venue_type := Venue.classify_venue_type w0 |} ]
        /\ exists l1 l2, ws = l1 ++ w0 :: l2
                         /\ observed a wid w0 = true
                         /\ Forall (fun w => observed a wid w = false) l1)
  /\ (~ has_key ConfJour.fact_key (a, wid) (ConfJour.fact_authorships_works d0) ->
      first_observation a wid ws = None ->
      rows_with ConfJour.fact_key (a, wid)
        (ConfJour.fact_authorships_works (processed ws d0)) = [])
  /\ (has_key ConfJour.fact_key (a, wid) (ConfJour.fact_authorships_works d0) ->
      rows_with ConfJour.fact_key (a, wid)
        (ConfJour.fact_authorships_works (processed ws d0))
      = rows_with ConfJour.fact_key (a, wid) (ConfJour.fact_authorships_works d0))
  /\ (unique ConfJour.fact_key (ConfJour.fact_authorships_works d0) ->
      unique ConfJour.fact_key (ConfJour.fact_authorships_works (processed ws d0))).
Proof.
  split; [|split; [|split; [|split]]].
  - intros x <-. destruct (for_each_work_body ws x) as (x' & Hrun & _ & Hdb & _).
    eauto.
  - intros Hn w0 Hfirst. rewrite processed_facts, stream_absent by exact Hn.
    rewrite Hfirst. destruct (find_first _ _ _ Hfirst) as (l1 & l2 & Hws & Hobs & Hl1).
    split; [|eauto].
    unfold fact_of. unfold observed in Hobs.
    apply andb_true_iff in Hobs as [Hid%bool_decide_eq_true _]. by rewrite Hid.
  - intros Hn Hnone. rewrite processed_facts, stream_absent by exact Hn.
    by rewrite Hnone.
  - intros Hk. rewrite processed_facts. by apply stream_present.
  - intros Hu. rewrite processed_facts. by apply stream_unique.
Qed.

Lemma fact_first_write_wins_witness :
  ~ has_key ConfJour.fact_key ("A1", "W2")
      (ConfJour.fact_authorships_works Samples.cj_db_empty)
  /\ first_observation "A1" "W2"
       [Samples.W1; Samples.W2; Samples.W2_later; Samples.W2] = Some Samples.W2
  /\ rows_with ConfJour.fact_key ("A1", "W2")
       (ConfJour.fact_authorships_works
          (processed [Samples.W1; Samples.W2; Samples.W2_later; Samples.W2]
             Samples.cj_db_empty))
     = [ {| ConfJour.fr_author_id := "A1"; ConfJour.fr_work_id := "W2";
            ConfJour.fr_year := Some 2024;
            ConfJour.fr_venue_type := "conference" |} ].
Proof.
  assert (Hn : ~ has_key ConfJour.fact_key ("A1", "W2")
                 (ConfJour.fact_authorships_works Samples.cj_db_empty)).
  { intros H. by apply elem_of_nil in H. }
  split; [exact Hn | split; [reflexivity |]].
  exact (proj1 (proj1 (proj2 (fact_first_write_wins
                                [Samples.W1; Samples.W2; Samples.W2_later; Samples.W2]
                                Samples.cj_db_empty "A1" "W2"))
                  Hn Samples.W2 eq_refl)).
Defined.

End FactClaims.

(** ** Properties of the store kept by a run *)

Section Preservation.
Import Eff Fetcher Spec.
Context {D : Type}.
Variable I : D -> Prop.

Lemma preserves_ret {X} (x : X) : preserves I (ret (D:=D) x).
Proof. intros w Hw. exact Hw. Qed.

Lemma preserves_raise {X} e : preserves I (raise (D:=D) (X:=X) e).
Proof. intros w Hw. exact Hw. Qed.

Lemma preserves_emit e : preserves I (emit (D:=D) e).
Proof. intros w Hw. exact Hw. Qed.

Lemma preserves_modify (f : D -> D) :
  (forall d, I d -> I (f d)) -> preserves I (modify f).
Proof. intros Hf w Hw. cbn. by apply Hf. Qed.

Lemma preserves_bind {X Y} (m : M D X) (k : X -> M D Y) :
  preserves I m -> (forall x, preserves I (k x)) -> preserves I (bind m k).
Proof.
  intros Hm Hk w Hw. unfold bind. specialize (Hm w Hw).
  destruct (m w) as [x w1|e w1|]; [|exact Hm|exact Logic.I].
  exact (Hk x w1 Hm).
Qed.

Lemma preserves_for_each {A} (body : A -> M D unit) xs :
  (forall a, preserves I (body a)) -> preserves I (for_each body xs).
Proof.
  intros Hb. induction xs as [|x xs IH]; cbn [for_each].
  - apply preserves_ret.
  - apply preserves_bind; [apply Hb | intros _; exact IH].
Qed.

Lemma preserves_get_with_retry {B} base (ep : list request -> response B) rq :
  preserves I (get_with_retry base ep rq).
Proof.
  intros w Hw.
  destruct (get_with_retry_outcome ep rq base w)
    as (n & _ & [[_ ->] | [_ [b ->]]]); exact Hw.
Qed.

Lemma preserves_paginate {A} fuel (get : string -> M D (response (page A)))
    pause (body : A -> M D unit) c :
  (forall c, preserves I (get c)) -> (forall a, preserves I (body a)) ->
  preserves I (paginate fuel get pause body c).
Proof.
  intros Hg Hb. revert c. induction fuel as [|fuel IH]; intros c.
  - intros w Hw. exact Logic.I.
  - cbn [paginate]. apply preserves_bind; [apply Hg|]. intros resp.
    apply preserves_bind; [by apply preserves_for_each|]. intros _.
    destruct (next_cursor (json resp)) as [[|a r]|]; try apply preserves_ret.
    apply preserves_bind; [apply preserves_emit | intros _; apply IH].
Qed.

(** The [try] ... [except r.HTTPError] wrapper changes the trace only. *)
Lemma preserves_catch (m : M D unit) (msg : exn -> message) :
  preserves I m ->
  preserves I (fun w => match m w with
                        | Raise (HTTPError b s) w' =>
                            Ok tt (log (EvPrint (msg (HTTPError b s))) w')
                        | o => o
                        end).
Proof.
  intros Hm w Hw. specialize (Hm w Hw).
  destruct (m w) as [x w1|[b s|col] w1|]; exact Hm.
Qed.

End Preservation.

(** ** Referential integrity of the authorship rows *)

Section Integrity.
Import Eff Fetcher Sql Spec.
Variable srv : server.

Lemma insert_fact_elem w tbl au r :
  r ∈ ConfJour.insert_fact w tbl au -> r ∈ tbl \/ ConfJour.fr_work_id r = w_id w.
Proof.
  unfold ConfJour.insert_fact. destruct (PyStr.truthy _); [|by left].
  intros [H | ->]%insert_or_ignore_elem; [by left | by right].
Qed.

Lemma facts_of_work_elem w aus tbl r :
  r ∈ facts_of_work w aus tbl -> r ∈ tbl \/ ConfJour.fr_work_id r = w_id w.
Proof.
  revert tbl. induction aus as [|au aus IH]; intros tbl; [by left|].
  intros H. destruct (IH _ H) as [H1|H1]; [|by right].
  by apply insert_fact_elem in H1.
Qed.

Lemma work_step_facts_have_works w d :
  facts_have_works d ->
  facts_have_works (ConfJour.upsert_fact_db w (ConfJour.upsert_work_db w d)).
Proof.
  intros Hd r Hr. cbn in Hr |- *.
  apply (facts_of_work_elem w (w_authorships w)) in Hr as [Hr | ->].
  - apply upsert_keeps; [intros r0 H; reflexivity | by apply Hd].
  - change (w_id w) with (ConfJour.wr_work_id (ConfJour.work_row_of w)) at 1.
    apply upsert_has. intros r0 H. reflexivity.
Qed.

Lemma cj_upsert_author_keeps (P : ConfJour.database -> Prop) a :
  (forall d t, P d -> P {| ConfJour.authors := t;
                           ConfJour.works := ConfJour.works d;
                           ConfJour.fact_authorships_works :=
                             ConfJour.fact_authorships_works d |}) ->
  preserves (fun s => P (ConfJour.db s)) (ConfJour.upsert_author a).
Proof.
  intros HP. unfold ConfJour.upsert_author.
  destruct (a_display_name a); [|apply preserves_raise].
  apply preserves_modify. intros st Hst. cbn. by apply HP.
Qed.

Lemma cj_main_preserves (P : ConfJour.database -> Prop) ys ye fuel :
  (forall d t, P d -> P {| ConfJour.authors := t;
                           ConfJour.works := ConfJour.works d;
                           ConfJour.fact_authorships_works :=
                             ConfJour.fact_authorships_works d |}) ->
  (forall d w, P d -> P (ConfJour.upsert_fact_db w (ConfJour.upsert_work_db w d))) ->
  preserves (fun s => P (ConfJour.db s)) (ConfJour.main srv ys ye fuel).
Proof.
  intros Hauth Hwork. unfold ConfJour.main.
  apply preserves_bind; [by apply preserves_modify|]. intros _.
  apply preserves_bind.
  { apply preserves_paginate.
    - intros c. apply preserves_get_with_retry.
    - intros a. unfold ConfJour.author_body.
      apply preserves_bind; [by apply cj_upsert_author_keeps|]. intros _.
      by apply preserves_modify. }
  intros _ w Hw. revert w Hw.
  change (preserves (fun s => P (ConfJour.db s))
            (fun w => ConfJour.harvest_works srv ys ye fuel
                        (ConfJour.author_ids (store w)) w)).
  intros w Hw.
  generalize (ConfJour.author_ids (store w)). intros ids. revert w Hw.
  change (preserves (fun s => P (ConfJour.db s))
            (ConfJour.harvest_works srv ys ye fuel ids)).
  unfold ConfJour.harvest_works.
  apply preserves_for_each. intros aid. apply preserves_for_each. intros yr.
  unfold ConfJour.author_year.
  apply (preserves_catch _ _ (WorksFetchFailed aid yr)).
  apply preserves_paginate.
  - intros c. apply preserves_get_with_retry.
  - intros wk x Hx.
    destruct (work_body_db wk x) as (x' & -> & _ & -> & _). by apply Hwork.
Qed.

(** The database step of one work in [nust_authors.py]: the work row,
    then its authorship links. *)
Lemma nust_work_step inst wk (x : world NustAuthors.state) :
  NustAuthors.work_body srv inst wk x
  = ((NustAuthors.attach_work_topics srv (w_id wk) wk ;;;
      modify (fun s => {| NustAuthors.db := NustAuthors.db s;
                          NustAuthors.topic_cache := NustAuthors.topic_cache s;
                          NustAuthors.seen_work_ids :=
                            {[ w_id wk ]} ∪ NustAuthors.seen_work_ids s |}))%eff
       {| trace := trace x;
          store := NustAuthors.on_db (nust_links_of inst wk) (store x) |}).
Proof. reflexivity. Qed.

Lemma nust_get_topic_details_keeps (P : NustAuthors.database -> Prop) tid :
  preserves (fun s => P (NustAuthors.db s)) (NustAuthors.get_topic_details srv tid).
Proof.
  intros w Hw. pose proof (get_topic_details_outcome srv tid w) as Ho.
  destruct (NustAuthors.get_topic_details srv tid w) as [d w'|e w'|]; [| |done].
  - destruct Ho as [-> _]. exact Hw.
  - destruct Ho as [-> _]. exact Hw.
Qed.

Section NustKeeps.
Variable P : NustAuthors.database -> Prop.
Hypothesis P_authors : forall d t, P d -> P (NustAuthors.set_authors t d).
Hypothesis P_topics : forall d t, P d -> P (NustAuthors.set_topics t d).
Hypothesis P_work_topics : forall d t, P d -> P (NustAuthors.set_work_topics t d).
Hypothesis P_work : forall d inst wk, P d -> P (nust_links_of inst wk d).

Lemma nust_upsert_topic_keeps t :
  preserves (fun s => P (NustAuthors.db s)) (NustAuthors.upsert_topic srv t).
Proof.
  unfold NustAuthors.upsert_topic. destruct (t_id t) as [tid|];
    [|apply preserves_ret].
  apply preserves_bind.
  - unfold NustAuthors.enrich. case_bool_decide; [apply preserves_ret|].
    intros w Hw. pose proof (nust_get_topic_details_keeps P tid w Hw) as Ho.
    destruct (NustAuthors.get_topic_details srv tid w) as [d w'|[b s|col] w'|];
      exact Ho.
  - intros p. apply preserves_bind; [|intros _; apply preserves_ret].
    intros w Hw. unfold NustAuthors.exec_insert_topic.
    destruct (NustAuthors.insert_topic p _); [|exact Hw].
    cbn. by apply P_topics.
Qed.

Lemma nust_link_topic_keeps wid prim t :
  preserves (fun s => P (NustAuthors.db s)) (NustAuthors.link_topic srv wid prim t).
Proof.
  unfold NustAuthors.link_topic. destruct (t_id t); [|apply preserves_ret].
  apply preserves_bind; [apply nust_upsert_topic_keeps|]. intros tid.
  apply preserves_modify. intros st Hst. cbn. by apply P_work_topics.
Qed.

Lemma nust_work_body_keeps inst wk :
  preserves (fun s => P (NustAuthors.db s)) (NustAuthors.work_body srv inst wk).
Proof.
  intros x Hx. rewrite nust_work_step.
  match goal with |- match ?m ?x1 with _ => _ end =>
    assert (Hm : preserves (fun s => P (NustAuthors.db s)) m) end.
  { apply preserves_bind; [|intros _; by apply preserves_modify].
    unfold NustAuthors.attach_work_topics.
    apply preserves_bind.
    - destruct (w_primary_topic wk); [apply nust_link_topic_keeps | apply preserves_ret].
    - intros _. apply preserves_for_each. intros t. apply nust_link_topic_keeps. }
  apply Hm. cbn. by apply P_work.
Qed.

Lemma nust_main_preserves inst yr fuel :
  preserves (fun s => P (NustAuthors.db s)) (NustAuthors.main srv inst yr fuel).
Proof.
  unfold NustAuthors.main.
  apply preserves_bind; [by apply preserves_modify|]. intros _.
  apply preserves_bind.
  { apply preserves_paginate.
    - intros c. apply preserves_get_with_retry.
    - intros a. unfold NustAuthors.upsert_author.
      destruct (a_display_name a); [|apply preserves_raise].
      apply preserves_modify. intros st Hst. cbn. by apply P_authors. }
  intros _ w Hw.
  generalize (index_order
                (map ar_author_id (NustAuthors.authors (NustAuthors.db (store w))))).
  intros ids. revert w Hw.
  change (preserves (fun s => P (NustAuthors.db s))
            (NustAuthors.harvest_works srv inst yr fuel ids)).
  unfold NustAuthors.harvest_works.
  apply preserves_for_each. intros aid. unfold NustAuthors.author_works.
  apply (preserves_catch _ _ (WorksFetchFailed aid yr)).
  apply preserves_paginate.
  - intros c. apply preserves_get_with_retry.
  - intros wk. apply nust_work_body_keeps.
Qed.

End NustKeeps.

Lemma insert_authorship_elem inst wid tbl au r :
  r ∈ NustAuthors.insert_authorship inst wid tbl au ->
  r ∈ tbl \/ NustAuthors.as_work_id r = wid.
Proof.
  unfold NustAuthors.insert_authorship. destruct (PyStr.truthy _); [|by left].
  intros [H | ->]%insert_or_ignore_elem; [by left | by right].
Qed.

Lemma nust_links_have_works inst wk d :
  links_have_works d -> links_have_works (nust_links_of inst wk d).
Proof.
  intros Hd r Hr. unfold nust_links_of in *. cbn in Hr |- *.
  assert (Hcases : r ∈ NustAuthors.authorships_2025 d
                   \/ NustAuthors.as_work_id r = w_id wk).
  { revert Hr. generalize (NustAuthors.authorships_2025 d).
    induction (w_authorships wk) as [|au aus IH]; intros tbl Hr; [by left|].
    cbn [fold_left] in Hr. destruct (IH _ Hr) as [H1|H1]; [|by right].
    by apply insert_authorship_elem in H1. }
  destruct Hcases as [Hr' | ->].
  - apply upsert_keeps; [intros r0 H; reflexivity | by apply Hd].
  - change (w_id wk)
      with (NustAuthors.wr_work_id (NustAuthors.work_row_of wk)) at 1.
    apply upsert_has. intros r0 H. reflexivity.
Qed.

(** C2 (as amended).  Whatever the service answers, and also when a run is
    cut short by an error, every row of the authorship fact table of
    [conf_jour_outputs.py] names a work of table [works], and every row of
    the authorship link table of [nust_authors.py] names a work of table
    [works_2025], provided this held in the database the run started
    from. *)
Theorem authorship_rows_reference_works (inst : string) (ys ye yr : Z)
    (fuel : nat) :
  (forall w, facts_have_works (ConfJour.db (store w)) ->
     match ConfJour.main srv ys ye fuel w with
     | Ok _ w' | Raise _ w' => facts_have_works (ConfJour.db (store w'))
     | OutOfFuel => True
     end)
  /\ (forall w, links_have_works (NustAuthors.db (store w)) ->
        match NustAuthors.main srv inst yr fuel w with
        | Ok _ w' | Raise _ w' => links_have_works (NustAuthors.db (store w'))
        | OutOfFuel => True
        end).
Proof.
  split.
  - apply (cj_main_preserves facts_have_works).
    + intros d t Hd. exact Hd.
    + intros d w Hd. by apply work_step_facts_have_works.
  - apply (nust_main_preserves links_have_works).
    + intros d t Hd. exact Hd.
    + intros d t Hd. exact Hd.
    + intros d t Hd. exact Hd.
    + intros d inst' wk Hd. by apply nust_links_have_works.
Qed.

End Integrity.

Section IntegrityRuns.
Import Eff Sql Spec Samples.

(** [W2] lists the co-author [A9], who is not among the harvested authors:
    the run ends with a fact row whose author has no row in [authors]. *)
Lemma authorship_rows_reference_works_counterexample :
  exists w',
    ConfJour.main harvest_srv 2024 2024 3 (start cj_empty) = Ok tt w'
    /\ ~ facts_have_authors (ConfJour.db (store w')).
Proof.
  eexists. split; [vm_compute; reflexivity|].
  intros H.
  specialize (H {| ConfJour.fr_author_id := "A9"; ConfJour.fr_work_id := "W2";
                   ConfJour.fr_year := Some 2024;
                   ConfJour.fr_venue_type := "conference" |}).
  cbn in H. unfold has_key in H. cbn in H.
  assert (Hin : "A9" ∈ ["A1"; "A2"; "A3"]).
  { apply H. rewrite !elem_of_cons. right. right. left. reflexivity. }
  repeat (apply elem_of_cons in Hin as [Hin|Hin]; [discriminate|]).
  by apply elem_of_nil in Hin.
Qed.

Lemma authorship_rows_reference_works_witness :
  facts_have_works (ConfJour.db (store (start cj_empty)))
  /\ exists w',
       ConfJour.main harvest_srv 2024 2024 3 (start cj_empty) = Ok tt w'
       /\ facts_have_works (ConfJour.db (store w')).
Proof.
  assert (H0 : facts_have_works (ConfJour.db (store (start cj_empty)))).
  { intros r Hr. by apply elem_of_nil in Hr. }
  split; [exact H0|].
  assert (Hrun : exists w',
            ConfJour.main harvest_srv 2024 2024 3 (start cj_empty) = Ok tt w')
    by (eexists; vm_compute; reflexivity).
  destruct Hrun as [w' Hrun].
  pose proof (proj1 (authorship_rows_reference_works harvest_srv "I1" 2024 2024
                       2024 3) (start cj_empty) H0) as H.
  rewrite Hrun in H. exists w'. split; [exact Hrun | exact H].
Defined.

End IntegrityRuns.

(** ** Failure isolation in the per-author loop *)

Section Catching.
Import Eff Fetcher Spec.
Context {D : Type}.

Lemma prints_of_retried rq base n : prints_of (retried rq base n) = [].
Proof.
  unfold retried. induction n as [|n IH]; [reflexivity|].
  rewrite seq_S, rev_app_distr. simpl. exact IH.
Qed.

Lemma prints_of_app (t1 t2 : list event) :
  prints_of (t1 ++ t2) = prints_of t1 ++ prints_of t2.
Proof. unfold prints_of. apply omap_app. Qed.

Lemma prints_after_attempts rq base n (w : world D) :
  prints_of (trace (after_attempts rq base n w)) = prints_of (trace w).
Proof.
  unfold after_attempts. cbn [trace].
  change (prints_of (EvRequest rq :: ?t)) with (prints_of t).
  by rewrite prints_of_app, prints_of_retried.
Qed.

(** A fetch the service never answers 200 raises an [HTTPError], with the
    store and the printed warnings as they were. *)
Lemma get_with_retry_refused {B} base (ep : list request -> response B) rq
    (w : world D) :
  (forall h, status_code (ep h) <> 200) ->
  exists b s w',
    get_with_retry base ep rq w = Raise (HTTPError b s) w'
    /\ store w' = store w
    /\ prints_of (trace w') = prints_of (trace w).
Proof.
  intros Href.
  destruct (get_with_retry_outcome ep rq base w)
    as (n & _ & [[H200 _] | [_ [b Hrun]]]).
  - exfalso. exact (Href _ H200).
  - exists b, (status_code (answer ep rq w n)), (after_attempts rq base n w).
    split; [exact Hrun|]. split; [reflexivity | apply prints_after_attempts].
Qed.

Lemma paginate_refused {A} fuel base (ep : list request -> string -> response (page A))
    mkrq pause (body : A -> M D unit) c (w : world D) :
  (forall h, status_code (ep h c) <> 200) ->
  exists b s w',
    paginate (S fuel) (fetch_page ep mkrq base) pause body c w
    = Raise (HTTPError b s) w'
    /\ store w' = store w
    /\ prints_of (trace w') = prints_of (trace w).
Proof.
  intros Href.
  destruct (get_with_retry_refused base (fun h => ep h c) (mkrq c) w Href)
    as (b & s & w' & Hrun & Hst & Hpr).
  exists b, s, w'. split; [|auto].
  cbn [paginate]. unfold bind at 1. unfold fetch_page. by rewrite Hrun.
Qed.

(** The [try] ... [except r.HTTPError] wrapper never lets an [HTTPError]
    out. *)
Lemma catch_no_http_error (m : M D unit) (msg : exn -> message) :
  no_http_error (fun w => match m w with
                          | Raise (HTTPError b s) w' =>
                              Ok tt (log (EvPrint (msg (HTTPError b s))) w')
                          | o => o
                          end).
Proof.
  intros w b s w'. destruct (m w) as [x w1|[b1 s1|col] w1|]; discriminate.
Qed.

Lemma for_each_no_http_error {A} (step : A -> M D unit) xs :
  (forall a, no_http_error (step a)) -> no_http_error (for_each step xs).
Proof.
  intros Hs. induction xs as [|x xs IH]; intros w b s w'; cbn [for_each].
  - discriminate.
  - unfold bind. destruct (step x w) as [[] w1|e w1|] eqn:E.
    + apply IH.
    + intros [= -> ->]. exact (Hs x w b s w' E).
    + discriminate.
Qed.

(** A loop whose steps all succeed and are related by a preorder [R]:
    the loop succeeds, and every step ran between two worlds of the
    chain. *)
Lemma for_each_chain {A} (R : world D -> world D -> Prop) (step : A -> M D unit)
    (xs : list A) :
  (forall w, R w w) -> (forall w1 w2 w3, R w1 w2 -> R w2 w3 -> R w1 w3) ->
  (forall x, x ∈ xs -> forall w, exists w', step x w = Ok tt w' /\ R w w') ->
  forall w, exists w',
    for_each step xs w = Ok tt w'
    /\ R w w'
    /\ forall x, x ∈ xs ->
         exists wa wb, step x wa = Ok tt wb /\ R w wa /\ R wb w'.
Proof.
  intros Hrefl Htrans. induction xs as [|x xs IH]; intros Hstep w.
  - exists w. split; [reflexivity|]. split; [apply Hrefl|].
    intros x Hx. by apply elem_of_nil in Hx.
  - destruct (Hstep x ltac:(apply elem_of_cons; by left) w) as (w1 & Hrun & HR).
    destruct (IH (fun y Hy => Hstep y ltac:(apply elem_of_cons; by right)) w1)
      as (w' & Hrun' & HR' & Hall).
    exists w'. cbn [for_each]. unfold bind. rewrite Hrun.
    split; [exact Hrun'|]. split; [by eapply Htrans|].
    intros y [-> | Hy]%elem_of_cons.
    + exists w, w1. split; [exact Hrun|]. split; [apply Hrefl | exact HR'].
    + destruct (Hall y Hy) as (wa & wb & Hs & Ha & Hb).
      exists wa, wb. split; [exact Hs|]. split; [by eapply Htrans | exact Hb].
Qed.

End Catching.

(** ** Relations between the worlds before and after a run *)

Section Relates.
Import Eff Fetcher Spec.
Context {D : Type}.
Variable R : world D -> world D -> Prop.
Hypothesis R_refl : forall w, R w w.
Hypothesis R_trans : forall w1 w2 w3, R w1 w2 -> R w2 w3 -> R w1 w3.
Hypothesis R_log : forall e w, R w (log e w).

Lemma relates_ret {X} (x : X) : relates R (ret (D:=D) x).
Proof. intros w. apply R_refl. Qed.

Lemma relates_raise {X} e : relates R (raise (D:=D) (X:=X) e).
Proof. intros w. apply R_refl. Qed.

Lemma relates_emit e : relates R (emit (D:=D) e).
Proof. intros w. apply R_log. Qed.

Lemma relates_modify (f : D -> D) :
  (forall w, R w {| trace := trace w; store := f (store w) |}) ->
  relates R (modify f).
Proof. intros Hf w. apply Hf. Qed.

Lemma relates_bind {X Y} (m : M D X) (k : X -> M D Y) :
  relates R m -> (forall x, relates R (k x)) -> relates R (bind m k).
Proof.
  intros Hm Hk w. unfold bind. specialize (Hm w).
  destruct (m w) as [x w1|e w1|]; [|exact Hm|exact Logic.I].
  specialize (Hk x w1). destruct (k x w1) as [y w2|e w2|];
    [by eapply R_trans | by eapply R_trans | exact Logic.I].
Qed.

Lemma relates_for_each {A} (body : A -> M D unit) xs :
  (forall a, relates R (body a)) -> relates R (for_each body xs).
Proof.
  intros Hb. induction xs as [|x xs IH]; cbn [for_each].
  - apply relates_ret.
  - apply relates_bind; [apply Hb | intros _; exact IH].
Qed.

Lemma relates_events (evs : list event) (w : world D) :
  R w {| trace := evs ++ trace w; store := store w |}.
Proof.
  induction evs as [|e evs IH]; [destruct w; apply R_refl|].
  eapply R_trans; [exact IH|]. apply (R_log e).
Qed.

Lemma relates_get_with_retry {B} base (ep : list request -> response B) rq :
  relates R (get_with_retry base ep rq).
Proof.
  intros w.
  destruct (get_with_retry_outcome ep rq base w)
    as (n & _ & [[_ ->] | [_ [b ->]]]);
    apply (relates_events (EvRequest rq :: retried rq base n) w).
Qed.

Lemma relates_paginate {A} fuel (get : string -> M D (response (page A)))
    pause (body : A -> M D unit) c :
  (forall c, relates R (get c)) -> (forall a, relates R (body a)) ->
  relates R (paginate fuel get pause body c).
Proof.
  intros Hg Hb. revert c. induction fuel as [|fuel IH]; intros c.
  - intros w. exact Logic.I.
  - cbn [paginate]. apply relates_bind; [apply Hg|]. intros resp.
    apply relates_bind; [by apply relates_for_each|]. intros _.
    destruct (next_cursor (json resp)) as [[|a r]|]; try apply relates_ret.
    apply relates_bind; [apply relates_emit | intros _; apply IH].
Qed.

(** The [try] ... [except r.HTTPError] wrapper adds a printed warning. *)
Lemma relates_catch (m : M D unit) (msg : exn -> message) :
  relates R m ->
  relates R (fun w => match m w with
                      | Raise (HTTPError b s) w' =>
                          Ok tt (log (EvPrint (msg (HTTPError b s))) w')
                      | o => o
                      end).
Proof.
  intros Hm w. specialize (Hm w).
  destruct (m w) as [x w1|[b s|col] w1|]; try exact Hm.
  eapply R_trans; [exact Hm | apply R_log].
Qed.

(** ** Errors a run can raise *)

Lemma http_only_get_with_retry {B} base (ep : list request -> response B) rq :
  raises_http_only (get_with_retry (D:=D) base ep rq).
Proof.
  intros w e w' Hrun.
  destruct (get_with_retry_outcome ep rq base w)
    as (n & _ & [[_ H] | [_ [b H]]]); rewrite H in Hrun; [discriminate|].
  injection Hrun as <- _. eauto.
Qed.

Lemma http_only_bind {X Y} (m : M D X) (k : X -> M D Y) :
  raises_http_only m -> (forall x, raises_http_only (k x)) ->
  raises_http_only (bind m k).
Proof.
  intros Hm Hk w e w' Hrun. unfold bind in Hrun.
  destruct (m w) as [x w1|e1 w1|] eqn:E; [| |discriminate].
  - by eapply Hk.
  - injection Hrun as <- <-. by eapply Hm.
Qed.

Lemma http_only_ok {X} (m : M D X) :
  (forall w, exists x w', m w = Ok x w') -> raises_http_only m.
Proof. intros H w e w' Hrun. destruct (H w) as (x & w1 & E). congruence. Qed.

Lemma http_only_for_each {A} (body : A -> M D unit) xs :
  (forall a, raises_http_only (body a)) -> raises_http_only (for_each body xs).
Proof.
  intros Hb. induction xs as [|x xs IH]; cbn [for_each].
  - intros w e w' Hrun. discriminate.
  - apply http_only_bind; [apply Hb | intros _; exact IH].
Qed.

Lemma http_only_paginate {A} fuel (get : string -> M D (response (page A)))
    pause (body : A -> M D unit) c :
  (forall c, raises_http_only (get c)) -> (forall a, raises_http_only (body a)) ->
  raises_http_only (paginate fuel get pause body c).
Proof.
  intros Hg Hb. revert c. induction fuel as [|fuel IH]; intros c.
  - intros w e w' Hrun. discriminate.
  - cbn [paginate]. apply http_only_bind; [apply Hg|]. intros resp.
    apply http_only_bind; [by apply http_only_for_each|]. intros _.
    destruct (next_cursor (json resp)) as [[|a r]|];
      try (intros w e w' Hrun; discriminate).
    apply http_only_bind; [|intros _; apply IH].
    intros w e w' Hrun. discriminate.
Qed.

(** ** The paginator on a served chain of pages, for any loop body *)

Section Chains.
Context {A : Type}.
Variable ep : list request -> string -> response (page A).
Variable mkrq : string -> request.
Variables base pause : float.
Variable body : A -> M D unit.
Variable P : A -> world D -> Prop.
Hypothesis body_relates : forall a, relates R (body a).
Hypothesis body_no_http : forall a, no_http_error (body a).
Hypothesis body_sets : forall a w w', body a w = Ok tt w' -> P a w'.
Hypothesis P_stable : forall a w w', P a w -> R w w' -> P a w'.

Lemma for_each_sets xs (w : world D) :
  match for_each body xs w with
  | Ok _ w' => R w w' /\ forall a, a ∈ xs -> P a w'
  | Raise (HTTPError _ _) _ => False
  | _ => True
  end.
Proof.
  revert w. induction xs as [|x xs IH]; intros w; cbn [for_each].
  - split; [apply R_refl|]. intros a Ha. by apply elem_of_nil in Ha.
  - unfold bind. pose proof (body_relates x w) as Hr.
    pose proof (body_no_http x w) as Hn.
    destruct (body x w) as [[] w1|[b s|col] w1|] eqn:E; [| |exact Logic.I..].
    + specialize (IH w1).
      destruct (for_each body xs w1) as [[] w2|[b s|col] w2|];
        [|exact IH..].
      destruct IH as [HR Hall]. split; [by eapply R_trans|].
      intros a [-> | Ha]%elem_of_cons; [|by apply Hall].
      eapply P_stable; [|exact HR]. by eapply body_sets.
    + exfalso. by eapply Hn.
Qed.

(** Served pages: the paginator cannot end in a fetch error, and when it
    returns every record of every page has been through the body. *)
Lemma paginate_served_sets c ps :
  serves ep c ps ->
  forall fuel w, (length ps <= fuel)%nat ->
    match paginate fuel (fetch_page ep mkrq base) pause body c w with
    | Ok _ w' => R w w' /\ forall a, a ∈ concat (map results ps) -> P a w'
    | Raise (HTTPError _ _) _ => False
    | Raise _ _ => True
    | OutOfFuel => True
    end.
Proof.
  induction 1 as [c p Hep Hnx | c p c' ps Hep Hnx Htruthy Hps IH];
    intros fuel w Hfuel.
  - destruct fuel as [|fuel]; [simpl in Hfuel; lia|].
    cbn [paginate]. unfold bind. rewrite (fetch_page_200 ep mkrq base c p w Hep).
    cbn [json]. set (w0 := log (EvRequest (mkrq c)) w).
    pose proof (for_each_sets (results p) w0) as Hf.
    destruct (for_each body (results p) w0) as [[] w1|[b s|col] w1|];
      [|exact Hf..].
    destruct Hf as [HR Hall].
    assert (Hend : match next_cursor p with
                   | Some (String a r) => False
                   | _ => True
                   end).
    { destruct (next_cursor p) as [[|a r]|]; try exact Logic.I. discriminate. }
    destruct (next_cursor p) as [[|a r]|]; try destruct Hend;
      (split; [eapply R_trans; [apply (R_log (EvRequest (mkrq c)))|exact HR]|]);
      cbn [map concat]; rewrite app_nil_r; exact Hall.
  - destruct fuel as [|fuel]; [simpl in Hfuel; lia|].
    cbn [paginate]. unfold bind. rewrite (fetch_page_200 ep mkrq base c p w Hep).
    cbn [json]. set (w0 := log (EvRequest (mkrq c)) w).
    pose proof (for_each_sets (results p) w0) as Hf.
    destruct (for_each body (results p) w0) as [[] w1|[b s|col] w1|];
      [|exact Hf..].
    destruct Hf as [HR Hall]. rewrite Hnx in Htruthy |- *.
    destruct c' as [|a r]; [discriminate|].
    unfold emit. specialize (IH fuel (log (EvSleep pause) w1)
                               ltac:(simpl in Hfuel; lia)).
    destruct (paginate fuel _ pause body (String a r) _)
      as [[] w2|[b s|col] w2|]; [|exact IH..].
    destruct IH as [HR2 Hall2].
    assert (HR1 : R w1 w2)
      by (eapply R_trans; [apply (R_log (EvSleep pause))|exact HR2]).
    split.
    + eapply R_trans; [apply (R_log (EvRequest (mkrq c)))|].
      eapply R_trans; [exact HR | exact HR1].
    + cbn [map concat]. intros x [Hx | Hx]%elem_of_app; [|by apply Hall2].
      eapply P_stable; [by apply Hall | exact HR1].
Qed.

(** Pages served up to a failing one: the paginator cannot return, and
    when it ends in the fetch error every record of the pages received
    has been through the body. *)
Lemma paginate_until_sets c ps :
  serves_until ep c ps ->
  forall fuel w, (length ps < fuel)%nat ->
    match paginate fuel (fetch_page ep mkrq base) pause body c w with
    | Ok _ _ => False
    | Raise (HTTPError _ _) w' =>
        R w w' /\ forall a, a ∈ concat (map results ps) -> P a w'
    | Raise _ _ => True
    | OutOfFuel => True
    end.
Proof.
  induction 1 as [c Href | c p c' ps Hep Hnx Htruthy Hps IH];
    intros fuel w Hfuel.
  - destruct fuel as [|fuel]; [simpl in Hfuel; lia|].
    cbn [paginate]. unfold bind at 1. unfold fetch_page.
    destruct (get_with_retry_outcome (fun h => ep h c) (mkrq c) base w)
      as (n & _ & [[H200 _] | [_ [b ->]]]); [exfalso; exact (Href _ H200)|].
    split; [apply (relates_events (EvRequest (mkrq c) :: retried (mkrq c) base n) w)|].
    intros a Ha. by apply elem_of_nil in Ha.
  - destruct fuel as [|fuel]; [simpl in Hfuel; lia|].
    cbn [paginate]. unfold bind. rewrite (fetch_page_200 ep mkrq base c p w Hep).
    cbn [json]. set (w0 := log (EvRequest (mkrq c)) w).
    pose proof (for_each_sets (results p) w0) as Hf.
    destruct (for_each body (results p) w0) as [[] w1|[b s|col] w1|];
      [|destruct Hf|exact Hf..].
    destruct Hf as [HR Hall]. rewrite Hnx in Htruthy |- *.
    destruct c' as [|a r]; [discriminate|].
    unfold emit. specialize (IH fuel (log (EvSleep pause) w1)
                               ltac:(simpl in Hfuel; lia)).
    destruct (paginate fuel _ pause body (String a r) _)
      as [[] w2|[b s|col] w2|]; [exact IH| |exact IH..].
    destruct IH as [HR2 Hall2].
    assert (HR1 : R w1 w2)
      by (eapply R_trans; [apply (R_log (EvSleep pause))|exact HR2]).
    split.
    + eapply R_trans; [apply (R_log (EvRequest (mkrq c)))|].
      eapply R_trans; [exact HR | exact HR1].
    + cbn [map concat]. intros x [Hx | Hx]%elem_of_app; [|by apply Hall2].
      eapply P_stable; [by apply Hall | exact HR1].
Qed.

End Chains.

End Relates.

Section IsolationConfJour.
Import Eff Fetcher Sql Spec.
Variable srv : server.

Lemma grows_refl w : grows w w.
Proof. split; auto. Qed.

Lemma grows_trans w1 w2 w3 : grows w1 w2 -> grows w2 w3 -> grows w1 w3.
Proof. intros [H1 H2] [H3 H4]. split; auto. Qed.

Lemma processed_app l1 l2 d : processed (l1 ++ l2) d = processed l2 (processed l1 d).
Proof. unfold processed. apply fold_left_app. Qed.

Lemma processed_works_keep ws d k :
  has_key ConfJour.wr_work_id k (ConfJour.works d) ->
  has_key ConfJour.wr_work_id k (ConfJour.works (processed ws d)).
Proof.
  revert d. induction ws as [|w ws IH]; intros d Hk; [exact Hk|].
  apply IH. cbn. apply upsert_keeps; [intros; reflexivity | exact Hk].
Qed.

Lemma processed_works_has ws d wk :
  wk ∈ ws ->
  has_key ConfJour.wr_work_id (w_id wk) (ConfJour.works (processed ws d)).
Proof.
  revert d. induction ws as [|w ws IH]; intros d Hin.
  - by apply elem_of_nil in Hin.
  - apply elem_of_cons in Hin as [-> | Hin]; [|by apply IH].
    apply (processed_works_keep ws). cbn.
    change (w_id w) with (ConfJour.wr_work_id (ConfJour.work_row_of w)) at 1.
    apply upsert_has. intros; reflexivity.
Qed.

(** Draining pages into the loop body of the script: the database is the
    one after the body has run on every record, and nothing is printed. *)
Lemma drain_work_body mkrq pause (ps : list (page work)) :
  forall c (w : world ConfJour.state),
  exists w',
    drain mkrq pause ConfJour.work_body c ps w = Ok tt w'
    /\ ConfJour.db (store w')
       = processed (concat (map results ps)) (ConfJour.db (store w))
    /\ prints_of (trace w') = prints_of (trace w).
Proof.
  induction ps as [|p ps IH]; intros c w.
  - exists w. repeat split.
  - cbn [drain]. fold (drain (D:=ConfJour.state) mkrq pause ConfJour.work_body).
    unfold bind, emit.
    destruct (for_each_work_body (results p) (log (EvRequest (mkrq c)) w))
      as (w1 & -> & Htr & Hdb & _).
    cbn [map concat]. rewrite processed_app.
    destruct ps as [|q qs].
    + exists w1. split; [reflexivity|]. cbn [map concat]. split; [exact Hdb|].
      by rewrite Htr.
    + destruct (IH (PyStr.or_empty (next_cursor p)) (log (EvSleep pause) w1))
        as (w' & Hrun & Hdb' & Hpr).
      exists w'. split; [exact Hrun|]. split.
      * rewrite Hdb'. cbn [log store]. by rewrite Hdb.
      * rewrite Hpr. cbn [log trace]. by rewrite Htr.
Qed.

Lemma author_year_refused fuel aid yr (w : world ConfJour.state) :
  refused srv aid yr ->
  exists e w',
    ConfJour.author_year srv (S fuel) aid yr w = Ok tt w'
    /\ store w' = store w
    /\ prints_of (trace w') = WorksFetchFailed aid yr e :: prints_of (trace w).
Proof.
  intros Href. unfold ConfJour.author_year, ConfJour.iter_author_works_year,
    ConfJour.get_with_retry.
  destruct (paginate_refused fuel ConfJour.BASE_DELAY
              (fun h c => works_endpoint srv h aid yr c) (GetWorks aid yr)
              ConfJour.PAGE_SLEEP ConfJour.work_body "*" w Href)
    as (b & s & w' & Hrun & Hst & Hpr).
  unfold fetch_page in Hrun. rewrite Hrun.
  eexists _, _. split; [reflexivity|]. split; [exact Hst|].
  cbn [log trace]. by rewrite <- Hpr.
Qed.

Lemma author_year_served fuel aid yr ps (w : world ConfJour.state) :
  served srv aid yr ps -> (length ps <= fuel)%nat ->
  exists w',
    ConfJour.author_year srv fuel aid yr w = Ok tt w'
    /\ ConfJour.db (store w')
       = processed (concat (map results ps)) (ConfJour.db (store w))
    /\ prints_of (trace w') = prints_of (trace w).
Proof.
  intros Hs Hfuel. unfold ConfJour.author_year, ConfJour.iter_author_works_year,
    ConfJour.get_with_retry.
  pose proof (paginate_serves _ (GetWorks aid yr) ConfJour.BASE_DELAY
                ConfJour.PAGE_SLEEP ConfJour.work_body "*" ps Hs fuel w Hfuel)
    as Hrun.
  unfold fetch_page in Hrun. rewrite Hrun.
  destruct (drain_work_body (GetWorks aid yr) ConfJour.PAGE_SLEEP ps "*" w)
    as (w' & -> & Hdb & Hpr).
  exists w'. auto.
Qed.

End IsolationConfJour.

(** ** The author listing of [conf_jour_outputs.py] *)

Section Listing.
Import Eff Fetcher Sql Spec.

Lemma for_each_author_body (xs : list author) (w : world ConfJour.state) :
  Forall (fun a => is_Some (a_display_name a)) xs ->
  exists w',
    for_each ConfJour.author_body xs w = Ok tt w'
    /\ trace w' = trace w
    /\ ConfJour.author_ids (store w') = ConfJour.author_ids (store w) ++ map a_id xs.
Proof.
  revert w. induction xs as [|a xs IH]; intros w Hall.
  - exists w. repeat split. by rewrite app_nil_r.
  - apply Forall_cons in Hall as [[name Hname] Hall].
    assert (Hstep : exists w1, ConfJour.author_body a w = Ok tt w1
                               /\ trace w1 = trace w
                               /\ ConfJour.author_ids (store w1)
                                  = ConfJour.author_ids (store w) ++ [a_id a]).
    { unfold ConfJour.author_body, ConfJour.upsert_author. rewrite Hname.
      eexists. split; [reflexivity|]. split; reflexivity. }
    destruct Hstep as (w1 & Hrun & Htr & Hids).
    destruct (IH w1 Hall) as (w' & Hrun' & Htr' & Hids').
    exists w'. cbn [for_each]. unfold bind. rewrite Hrun.
    split; [exact Hrun'|]. split; [congruence|].
    rewrite Hids', Hids. cbn [map]. by rewrite <- app_assoc.
Qed.

Lemma drain_author_body mkrq pause (aps : list (page author)) :
  Forall (fun a => is_Some (a_display_name a)) (concat (map results aps)) ->
  forall c (w : world ConfJour.state),
  exists w',
    drain mkrq pause ConfJour.author_body c aps w = Ok tt w'
    /\ ConfJour.author_ids (store w')
       = ConfJour.author_ids (store w) ++ map a_id (concat (map results aps)).
Proof.
  induction aps as [|p aps IH]; intros Hall c w.
  - exists w. split; [reflexivity|]. cbn. by rewrite app_nil_r.
  - cbn [map concat] in Hall. apply Forall_app in Hall as [Hp Hall].
    cbn [drain]. fold (drain (D:=ConfJour.state) mkrq pause ConfJour.author_body).
    unfold bind, emit.
    destruct (for_each_author_body (results p) (log (EvRequest (mkrq c)) w) Hp)
      as (w1 & -> & _ & Hids).
    cbn [map concat]. rewrite map_app, app_assoc.
    destruct aps as [|q qs].
    + exists w1. split; [reflexivity|]. cbn [map concat]. by rewrite app_nil_r.
    + destruct (IH Hall (PyStr.or_empty (next_cursor p)) (log (EvSleep pause) w1))
        as (w' & Hrun & Hids').
      exists w'. split; [exact Hrun|]. rewrite Hids'. cbn [log store].
      by rewrite Hids.
Qed.

End Listing.

(** ** Step 2 of the two scripts, against any service *)

Section NoHttp.
Import Eff Fetcher Spec.
Context {D : Type}.

Lemma no_http_bind {X Y} (m : M D X) (k : X -> M D Y) :
  no_http_error m -> (forall x, no_http_error (k x)) -> no_http_error (bind m k).
Proof.
  intros Hm Hk w b s w' Hrun. unfold bind in Hrun.
  destruct (m w) as [x w1|e w1|] eqn:E; [| |discriminate].
  - by eapply Hk.
  - injection Hrun as -> ->. by eapply Hm.
Qed.

Lemma no_http_ok {X} (m : M D X) :
  (forall w, exists x w', m w = Ok x w') -> no_http_error m.
Proof. intros H w b s w' Hrun. destruct (H w) as (x & w1 & E). congruence. Qed.

End NoHttp.

Section GeneralConfJour.
Import Eff Fetcher Sql Spec.
Variable srv : server.

Lemma prints_of_log {D} e (w : world D) m :
  m ∈ prints_of (trace w) -> m ∈ prints_of (trace (log e w)).
Proof.
  cbn [log trace]. destruct e; cbn; [auto | auto |].
  intros H. apply elem_of_cons. by right.
Qed.

Lemma grows_log e w : grows w (log e w).
Proof. split; [auto | intros m; apply prints_of_log]. Qed.

Lemma cj_work_body_relates wk : relates grows (ConfJour.work_body wk).
Proof.
  intros w. destruct (work_body_db wk w) as (w' & -> & Htr & Hdb & _).
  split.
  - intros k Hk. rewrite Hdb. by apply (processed_works_keep [wk]).
  - by rewrite Htr.
Qed.

Lemma cj_work_body_sets wk w w' :
  ConfJour.work_body wk w = Ok tt w' -> cj_stored wk w'.
Proof.
  intros Hrun. destruct (work_body_db wk w) as (w1 & Hrun1 & _ & Hdb & _).
  rewrite Hrun in Hrun1. injection Hrun1 as <-.
  unfold cj_stored. rewrite Hdb.
  apply (processed_works_has [wk]). apply elem_of_cons. by left.
Qed.

Lemma cj_stored_stable wk w w' : cj_stored wk w -> grows w w' -> cj_stored wk w'.
Proof. intros H [Hk _]. by apply Hk. Qed.

Lemma cj_iter_relates fuel aid yr :
  relates grows
    (ConfJour.iter_author_works_year srv fuel aid yr ConfJour.work_body).
Proof.
  unfold ConfJour.iter_author_works_year.
  apply (relates_paginate grows grows_refl grows_trans grows_log).
  - intros c. apply (relates_get_with_retry grows grows_refl grows_trans grows_log).
  - apply cj_work_body_relates.
Qed.

Lemma cj_iter_http_only fuel aid yr :
  raises_http_only
    (ConfJour.iter_author_works_year srv fuel aid yr ConfJour.work_body).
Proof.
  unfold ConfJour.iter_author_works_year. apply http_only_paginate.
  - intros c. apply http_only_get_with_retry.
  - intros wk. apply http_only_ok. intros w.
    destruct (work_body_db wk w) as (w' & Hrun & _). eauto.
Qed.

(** One author and year, from any world in which the listing ends. *)
Lemma cj_author_year_run fuel aid yr (w : world ConfJour.state) :
  ConfJour.iter_author_works_year srv fuel aid yr ConfJour.work_body w
  <> OutOfFuel ->
  exists wb,
    ConfJour.author_year srv fuel aid yr w = Ok tt wb
    /\ grows w wb
    /\ match ConfJour.iter_author_works_year srv fuel aid yr
               ConfJour.work_body w with
       | Ok _ w1 => wb = w1
       | Raise e w1 =>
           (exists b s, e = HTTPError b s)
           /\ store wb = store w1
           /\ WorksFetchFailed aid yr e ∈ prints_of (trace wb)
       | OutOfFuel => False
       end.
Proof.
  intros Hend. unfold ConfJour.author_year.
  pose proof (cj_iter_relates fuel aid yr w) as Hrel.
  pose proof (cj_iter_http_only fuel aid yr w) as Hhttp.
  destruct (ConfJour.iter_author_works_year srv fuel aid yr ConfJour.work_body w)
    as [[] w1|e w1|]; [| |done].
  - exists w1. auto.
  - destruct (Hhttp e w1 eq_refl) as (b & s & ->).
    eexists. split; [reflexivity|]. split; [|split; [eauto|split]].
    + eapply grows_trans; [exact Hrel | apply grows_log].
    + reflexivity.
    + cbn. apply elem_of_cons. by left.
Qed.

Lemma cj_author_year_harvested fuel aid yr (wa wb w' : world ConfJour.state) :
  ConfJour.iter_author_works_year srv fuel aid yr ConfJour.work_body wa
  <> OutOfFuel ->
  ConfJour.author_year srv fuel aid yr wa = Ok tt wb ->
  grows wb w' ->
  cj_harvested srv fuel aid yr w'.
Proof.
  intros Hend Hrun Hgrow.
  destruct (cj_author_year_run fuel aid yr wa Hend) as (wb' & Hrun' & _ & Hiter).
  rewrite Hrun in Hrun'. injection Hrun' as <-.
  split; [|split].
  - exists wa, wb. split; [exact Hrun|]. split; [exact Hgrow|].
    destruct (ConfJour.iter_author_works_year srv fuel aid yr
                ConfJour.work_body wa) as [[] w1|e w1|]; [exact Hiter| |exact Hiter].
    destruct Hiter as (He & Hst & Hpr). split; [exact He|]. split; [exact Hst|].
    by apply Hgrow.
  - intros ps Hs Hfuel wk Hwk.
    pose proof (paginate_served_sets grows grows_refl grows_trans grows_log
                  (fun h c => works_endpoint srv h aid yr c) (GetWorks aid yr)
                  ConfJour.BASE_DELAY ConfJour.PAGE_SLEEP ConfJour.work_body
                  cj_stored cj_work_body_relates
                  (fun a => no_http_ok _ (fun w =>
                     match work_body_db a w with
                     | ex_intro _ x (conj H _) => ex_intro _ tt (ex_intro _ x H)
                     end))
                  cj_work_body_sets cj_stored_stable "*" ps Hs fuel wa Hfuel)
      as Hp.
    unfold ConfJour.iter_author_works_year, ConfJour.get_with_retry in Hiter.
    unfold fetch_page in Hp.
    destruct (paginate fuel _ ConfJour.PAGE_SLEEP ConfJour.work_body "*" wa)
      as [[] w1|e w1|]; [| |done].
    + subst w1. destruct Hp as [_ Hall]. eapply cj_stored_stable; [|exact Hgrow].
      by apply Hall.
    + destruct Hiter as ((b & s & ->) & _). destruct Hp.
  - intros ps Hs Hfuel.
    pose proof (paginate_until_sets grows grows_refl grows_trans grows_log
                  (fun h c => works_endpoint srv h aid yr c) (GetWorks aid yr)
                  ConfJour.BASE_DELAY ConfJour.PAGE_SLEEP ConfJour.work_body
                  cj_stored cj_work_body_relates
                  (fun a => no_http_ok _ (fun w =>
                     match work_body_db a w with
                     | ex_intro _ x (conj H _) => ex_intro _ tt (ex_intro _ x H)
                     end))
                  cj_work_body_sets cj_stored_stable "*" ps Hs fuel wa Hfuel)
      as Hp.
    unfold ConfJour.iter_author_works_year, ConfJour.get_with_retry in Hiter.
    unfold fetch_page in Hp.
    destruct (paginate fuel _ ConfJour.PAGE_SLEEP ConfJour.work_body "*" wa)
      as [[] w1|e w1|]; [destruct Hp| |done].
    destruct Hiter as ((b & s & ->) & Hst & Hpr). destruct Hp as [_ Hall].
    split; [exists (HTTPError b s); by apply Hgrow|].
    intros wk Hwk. eapply cj_stored_stable; [|exact Hgrow].
    unfold cj_stored. rewrite Hst. by apply Hall.
Qed.

(** Step 2 of [conf_jour_outputs.py], whatever the service answers, as
    long as every listing ends. *)
Lemma cj_harvest_run (ys ye : Z) (fuel : nat) ids (w : world ConfJour.state) :
  (forall aid yr, aid ∈ ids -> yr ∈ ConfJour.years ys ye ->
     cj_fetch_ends srv fuel aid yr) ->
  exists w',
    ConfJour.harvest_works srv ys ye fuel ids w = Ok tt w'
    /\ grows w w'
    /\ forall aid yr, aid ∈ ids -> yr ∈ ConfJour.years ys ye ->
         cj_harvested srv fuel aid yr w'.
Proof.
  intros Hends.
  set (inner := fun aid => for_each (ConfJour.author_year srv fuel aid)
                             (ConfJour.years ys ye)).
  assert (Hinner : forall aid, aid ∈ ids -> forall w0,
            exists w1,
              inner aid w0 = Ok tt w1 /\ grows w0 w1
              /\ forall yr, yr ∈ ConfJour.years ys ye ->
                   exists wa wb,
                     ConfJour.author_year srv fuel aid yr wa = Ok tt wb
                     /\ grows w0 wa /\ grows wb w1).
  { intros aid Haid w0.
    apply (for_each_chain grows (ConfJour.author_year srv fuel aid));
      [apply grows_refl | apply grows_trans |].
    intros yr Hyr w2.
    destruct (cj_author_year_run fuel aid yr w2 (Hends aid yr Haid Hyr w2))
      as (wb & Hrun & Hg & _).
    eauto. }
  destruct (for_each_chain grows inner ids grows_refl grows_trans
              (fun aid Haid w0 =>
                 match Hinner aid Haid w0 with
                 | ex_intro _ w1 (conj H1 (conj H2 _)) =>
                     ex_intro _ w1 (conj H1 H2)
                 end) w)
    as (w' & Hrun & Hgrow & Hall).
  exists w'. split; [exact Hrun|]. split; [exact Hgrow|].
  intros aid yr Haid Hyr.
  destruct (Hall aid Haid) as (wa & wb & Hs & _ & Hb).
  destruct (Hinner aid Haid wa) as (w1 & Hs' & _ & Hyrs).
  rewrite Hs in Hs'. injection Hs' as <-.
  destruct (Hyrs yr Hyr) as (wc & wd & Hy & _ & Hd).
  apply (cj_author_year_harvested fuel aid yr wc wd w');
    [apply (Hends aid yr Haid Hyr) | exact Hy | by eapply grows_trans].
Qed.

(** The whole of [main] of [conf_jour_outputs.py]: the authors are listed
    and stored, then step 2 runs on their ids. *)
Lemma cj_main_run (ys ye : Z) (fuel : nat) (aps : list (page author))
    (w : world ConfJour.state) :
  serves (authors_endpoint srv) "*" aps -> (length aps <= fuel)%nat ->
  Forall (fun a => is_Some (a_display_name a)) (concat (map results aps)) ->
  (forall aid yr, aid ∈ map a_id (concat (map results aps)) ->
     yr ∈ ConfJour.years ys ye -> cj_fetch_ends srv fuel aid yr) ->
  exists w',
    ConfJour.main srv ys ye fuel w = Ok tt w'
    /\ forall aid yr, aid ∈ map a_id (concat (map results aps)) ->
         yr ∈ ConfJour.years ys ye -> cj_harvested srv fuel aid yr w'.
Proof.
  intros Hs Hfuel Hnames Hends. unfold ConfJour.main. unfold bind at 1.
  cbn [modify]. unfold bind.
  match goal with |- context [ConfJour.iter_authors srv fuel _ ?w0] =>
    set (x0 := w0) end.
  assert (Hlist : ConfJour.iter_authors srv fuel ConfJour.author_body x0
                  = drain GetAuthors ConfJour.PAGE_SLEEP ConfJour.author_body
                      "*" aps x0).
  { unfold ConfJour.iter_authors, ConfJour.get_with_retry.
    exact (paginate_serves (authors_endpoint srv) GetAuthors ConfJour.BASE_DELAY
             ConfJour.PAGE_SLEEP ConfJour.author_body "*" aps Hs fuel x0 Hfuel). }
  rewrite Hlist.
  destruct (drain_author_body GetAuthors ConfJour.PAGE_SLEEP aps Hnames "*" x0)
    as (w1 & -> & Hids).
  rewrite Hids. cbn [x0 store ConfJour.author_ids app].
  destruct (cj_harvest_run ys ye fuel (map a_id (concat (map results aps))) w1
              Hends) as (w' & Hrun & _ & Hall).
  exists w'. split; [exact Hrun | exact Hall].
Qed.

End GeneralConfJour.

(** ** Step 2 of [nust_authors.py], against any service *)

Section ServedOk.
Import Eff Fetcher Spec.
Context {D A : Type}.
Variable ep : list request -> string -> response (page A).
Variable mkrq : string -> request.
Variables base pause : float.
Variable body : A -> M D unit.
Variable Q : A -> Prop.
Hypothesis body_ok : forall a w, Q a -> exists w', body a w = Ok tt w'.

Lemma for_each_ok xs (w : world D) :
  Forall Q xs -> exists w', for_each body xs w = Ok tt w'.
Proof.
  revert w. induction xs as [|x xs IH]; intros w Hall.
  - eexists. reflexivity.
  - apply Forall_cons in Hall as [Hx Hall]. cbn [for_each]. unfold bind.
    destruct (body_ok x w Hx) as [w1 ->]. by apply IH.
Qed.

(** Served pages whose records the body accepts: the paginator returns. *)
Lemma paginate_served_ok c ps :
  serves ep c ps -> Forall Q (concat (map results ps)) ->
  forall fuel w, (length ps <= fuel)%nat ->
    exists w', paginate fuel (fetch_page ep mkrq base) pause body c w = Ok tt w'.
Proof.
  induction 1 as [c p Hep Hnx | c p c' ps Hep Hnx Htruthy Hps IH];
    intros Hall fuel w Hfuel; cbn [map concat] in Hall;
    apply Forall_app in Hall as [Hp Hrest];
    (destruct fuel as [|fuel]; [simpl in Hfuel; lia|]);
    cbn [paginate]; unfold bind;
    rewrite (fetch_page_200 ep mkrq base c p w Hep); cbn [json];
    destruct (for_each_ok (results p) (log (EvRequest (mkrq c)) w) Hp)
      as [w1 ->].
  - destruct (next_cursor p) as [[|a r]|]; try discriminate; eexists; reflexivity.
  - rewrite Hnx in Htruthy |- *. destruct c' as [|a r]; [discriminate|].
    unfold emit. apply IH; [exact Hrest | simpl in Hfuel; lia].
Qed.

(** Pages served up to a failing one, their records accepted by the
    body: the paginator ends in the fetch error. *)
Lemma paginate_until_raises c ps :
  serves_until ep c ps -> Forall Q (concat (map results ps)) ->
  forall fuel w, (length ps < fuel)%nat ->
    exists b s w',
      paginate fuel (fetch_page ep mkrq base) pause body c w
      = Raise (HTTPError b s) w'.
Proof.
  induction 1 as [c Href | c p c' ps Hep Hnx Htruthy Hps IH];
    intros Hall fuel w Hfuel;
    (destruct fuel as [|fuel]; [simpl in Hfuel; lia|]).
  - destruct (paginate_refused fuel base ep mkrq pause body c w Href)
      as (b & s & w' & Hrun & _). eauto.
  - cbn [map concat] in Hall. apply Forall_app in Hall as [Hp Hrest].
    cbn [paginate]. unfold bind.
    rewrite (fetch_page_200 ep mkrq base c p w Hep). cbn [json].
    destruct (for_each_ok (results p) (log (EvRequest (mkrq c)) w) Hp)
      as [w1 ->].
    rewrite Hnx in Htruthy |- *. destruct c' as [|a r]; [discriminate|].
    unfold emit. apply IH; [exact Hrest | simpl in Hfuel; lia].
Qed.

End ServedOk.

Section GeneralNust.
Import Eff Fetcher Sql Spec.
Variable srv : server.
Variable inst : string.
Variable yr : Z.

Lemma nust_grows_refl w : nust_grows w w.
Proof. split; auto. Qed.

Lemma nust_grows_trans w1 w2 w3 :
  nust_grows w1 w2 -> nust_grows w2 w3 -> nust_grows w1 w3.
Proof. intros [H1 H2] [H3 H4]. split; auto. Qed.

Lemma nust_grows_log e w : nust_grows w (log e w).
Proof. split; [auto | intros m; apply prints_of_log]. Qed.

Lemma nust_grows_store (w w' : world NustAuthors.state) :
  NustAuthors.works_2025 (NustAuthors.db (store w'))
  = NustAuthors.works_2025 (NustAuthors.db (store w)) ->
  trace w' = trace w -> nust_grows w w'.
Proof. intros Hw Ht. split; [by rewrite Hw | by rewrite Ht]. Qed.

Lemma nust_get_topic_details_relates tid :
  relates nust_grows (NustAuthors.get_topic_details srv tid).
Proof.
  intros w. unfold NustAuthors.get_topic_details.
  destruct (NustAuthors.topic_cache (store w) !! tid) as [d|];
    [apply nust_grows_refl|].
  revert w.
  apply (relates_bind nust_grows nust_grows_trans).
  - apply (relates_get_with_retry nust_grows nust_grows_refl nust_grows_trans
             nust_grows_log).
  - intros resp. apply (relates_bind nust_grows nust_grows_trans).
    + apply relates_modify. intros w. by apply nust_grows_store.
    + intros _. apply (relates_ret nust_grows nust_grows_refl).
Qed.

Lemma nust_upsert_topic_relates t :
  relates nust_grows (NustAuthors.upsert_topic srv t).
Proof.
  unfold NustAuthors.upsert_topic. destruct (t_id t) as [tid|];
    [|apply (relates_ret nust_grows nust_grows_refl)].
  apply (relates_bind nust_grows nust_grows_trans).
  - unfold NustAuthors.enrich. case_bool_decide;
      [apply (relates_ret nust_grows nust_grows_refl)|].
    intros w. pose proof (nust_get_topic_details_relates tid w) as Hr.
    destruct (NustAuthors.get_topic_details srv tid w) as [d w'|[b s|col] w'|];
      try exact Hr.
    eapply nust_grows_trans; [exact Hr | apply nust_grows_log].
  - intros p. apply (relates_bind nust_grows nust_grows_trans);
      [|intros _; apply (relates_ret nust_grows nust_grows_refl)].
    intros w. unfold NustAuthors.exec_insert_topic.
    destruct (NustAuthors.insert_topic p _); [|apply nust_grows_refl].
    by apply nust_grows_store.
Qed.

Lemma nust_link_topic_relates wid prim t :
  relates nust_grows (NustAuthors.link_topic srv wid prim t).
Proof.
  unfold NustAuthors.link_topic. destruct (t_id t);
    [|apply (relates_ret nust_grows nust_grows_refl)].
  apply (relates_bind nust_grows nust_grows_trans);
    [apply nust_upsert_topic_relates|].
  intros tid. apply relates_modify. intros w. by apply nust_grows_store.
Qed.

Lemma nust_attach_work_topics_relates wid wk :
  relates nust_grows (NustAuthors.attach_work_topics srv wid wk).
Proof.
  unfold NustAuthors.attach_work_topics.
  apply (relates_bind nust_grows nust_grows_trans).
  - destruct (w_primary_topic wk);
      [apply nust_link_topic_relates
      |apply (relates_ret nust_grows nust_grows_refl)].
  - intros _. apply (relates_for_each nust_grows nust_grows_refl nust_grows_trans).
    intros t. apply nust_link_topic_relates.
Qed.

Lemma nust_work_rest_relates wk :
  relates nust_grows
    (Eff.bind (NustAuthors.attach_authorships inst (w_id wk) wk)
       (fun _ =>
          Eff.bind (NustAuthors.attach_work_topics srv (w_id wk) wk)
            (fun _ => modify (fun s =>
               {| NustAuthors.db := NustAuthors.db s;
                  NustAuthors.topic_cache := NustAuthors.topic_cache s;
                  NustAuthors.seen_work_ids :=
                    {[ w_id wk ]} ∪ NustAuthors.seen_work_ids s |})))).
Proof.
  apply (relates_bind nust_grows nust_grows_trans).
  - apply relates_modify. intros w. by apply nust_grows_store.
  - intros _. apply (relates_bind nust_grows nust_grows_trans);
      [apply nust_attach_work_topics_relates|].
    intros _. apply relates_modify. intros w. by apply nust_grows_store.
Qed.

Lemma nust_work_body_relates wk :
  relates nust_grows (NustAuthors.work_body srv inst wk).
Proof.
  unfold NustAuthors.work_body.
  apply (relates_bind nust_grows nust_grows_trans);
    [|intros _; apply nust_work_rest_relates].
  apply relates_modify. intros w. split; [|auto].
  intros k Hk. cbn. apply upsert_keeps; [intros; reflexivity | exact Hk].
Qed.

Lemma nust_work_body_sets wk w w' :
  NustAuthors.work_body srv inst wk w = Ok tt w' -> nust_stored wk w'.
Proof.
  unfold NustAuthors.work_body. unfold bind at 1.
  unfold NustAuthors.upsert_work at 1. cbn [modify].
  match goal with |- ?m ?w1 = _ -> _ =>
    pose proof (nust_work_rest_relates wk w1) as Hr; set (x1 := w1) in * end.
  intros Hrun. unfold Eff.bind in Hr at 1. unfold bind in Hrun at 1.
  match type of Hrun with ?lhs = _ =>
    match type of Hr with match ?lhs' with _ => _ end =>
      change lhs' with lhs in Hr end end.
  rewrite Hrun in Hr. apply Hr. unfold x1. cbn.
  change (w_id wk) with (NustAuthors.wr_work_id (NustAuthors.work_row_of wk)) at 1.
  apply upsert_has. intros; reflexivity.
Qed.

Lemma nust_stored_stable wk w w' :
  nust_stored wk w -> nust_grows w w' -> nust_stored wk w'.
Proof. intros H [Hk _]. by apply Hk. Qed.

Lemma nust_upsert_topic_no_http t :
  no_http_error (NustAuthors.upsert_topic srv t).
Proof.
  intros w b s w' Hrun. destruct (t_id t) as [tid|] eqn:Hid.
  - destruct (upsert_topic_stored srv t tid w Hid)
      as (p & w1 & _ & _ & _ & _ & Hup).
    destruct (NustAuthors.tp_display_name p); rewrite Hup in Hrun; discriminate.
  - unfold NustAuthors.upsert_topic in Hrun. rewrite Hid in Hrun. discriminate.
Qed.

Lemma nust_work_body_no_http wk :
  no_http_error (NustAuthors.work_body srv inst wk).
Proof.
  unfold NustAuthors.work_body.
  apply no_http_bind; [apply no_http_ok; intros w; eexists _, _; reflexivity|].
  intros _. apply no_http_bind;
    [apply no_http_ok; intros w; eexists _, _; reflexivity|].
  intros _. apply no_http_bind;
    [|intros _; apply no_http_ok; intros w; eexists _, _; reflexivity].
  unfold NustAuthors.attach_work_topics.
  assert (Hlink : forall prim t,
            no_http_error (NustAuthors.link_topic srv (w_id wk) prim t)).
  { intros prim t. unfold NustAuthors.link_topic. destruct (t_id t);
      [|apply no_http_ok; intros w; eexists _, _; reflexivity].
    apply no_http_bind; [apply nust_upsert_topic_no_http|].
    intros tid. apply no_http_ok. intros w. eexists _, _. reflexivity. }
  apply no_http_bind.
  - destruct (w_primary_topic wk); [apply Hlink|].
    apply no_http_ok. intros w. eexists _, _. reflexivity.
  - intros _. apply for_each_no_http_error. intros t. apply Hlink.
Qed.

Lemma nust_iter_relates fuel aid :
  relates nust_grows
    (NustAuthors.iter_author_works_2025 srv yr fuel aid
       (NustAuthors.work_body srv inst)).
Proof.
  unfold NustAuthors.iter_author_works_2025.
  apply (relates_paginate nust_grows nust_grows_refl nust_grows_trans
           nust_grows_log).
  - intros c. apply (relates_get_with_retry nust_grows nust_grows_refl
                       nust_grows_trans nust_grows_log).
  - apply nust_work_body_relates.
Qed.

(** One author, from any world in which the listing ends in success or in
    a fetch error. *)
Lemma nust_author_works_run fuel aid (w : world NustAuthors.state) :
  match NustAuthors.iter_author_works_2025 srv yr fuel aid
          (NustAuthors.work_body srv inst) w with
  | Ok _ _ | Raise (HTTPError _ _) _ => True
  | _ => False
  end ->
  exists wb,
    NustAuthors.author_works srv inst yr fuel aid w = Ok tt wb
    /\ nust_grows w wb
    /\ match NustAuthors.iter_author_works_2025 srv yr fuel aid
               (NustAuthors.work_body srv inst) w with
       | Ok _ w1 => wb = w1
       | Raise e w1 =>
           (exists b s, e = HTTPError b s)
           /\ store wb = store w1
           /\ WorksFetchFailed aid yr e ∈ prints_of (trace wb)
       | OutOfFuel => False
       end.
Proof.
  intros Hend. unfold NustAuthors.author_works.
  pose proof (nust_iter_relates fuel aid w) as Hrel.
  destruct (NustAuthors.iter_author_works_2025 srv yr fuel aid
              (NustAuthors.work_body srv inst) w)
    as [[] w1|[b s|col] w1|]; [| |done..].
  - exists w1. auto.
  - eexists. split; [reflexivity|]. split; [|split; [eauto|split]].
    + eapply nust_grows_trans; [exact Hrel | apply nust_grows_log].
    + reflexivity.
    + cbn. apply elem_of_cons. by left.
Qed.

Lemma nust_author_works_harvested fuel aid (wa wb w' : world NustAuthors.state) :
  match NustAuthors.iter_author_works_2025 srv yr fuel aid
          (NustAuthors.work_body srv inst) wa with
  | Ok _ _ | Raise (HTTPError _ _) _ => True
  | _ => False
  end ->
  NustAuthors.author_works srv inst yr fuel aid wa = Ok tt wb ->
  nust_grows wb w' ->
  nust_harvested srv inst yr fuel aid w'.
Proof.
  intros Hend Hrun Hgrow.
  destruct (nust_author_works_run fuel aid wa Hend) as (wb' & Hrun' & _ & Hiter).
  rewrite Hrun in Hrun'. injection Hrun' as <-.
  split; [|split].
  - exists wa, wb. split; [exact Hrun|]. split; [exact Hgrow|].
    destruct (NustAuthors.iter_author_works_2025 srv yr fuel aid
                (NustAuthors.work_body srv inst) wa)
      as [[] w1|e w1|]; [exact Hiter| |exact Hiter].
    destruct Hiter as (He & Hst & Hpr). split; [exact He|]. split; [exact Hst|].
    by apply Hgrow.
  - intros ps Hs Hfuel wk Hwk.
    pose proof (paginate_served_sets nust_grows nust_grows_refl nust_grows_trans
                  nust_grows_log
                  (fun h c => works_endpoint srv h aid yr c) (GetWorks aid yr)
                  NustAuthors.BASE_DELAY NustAuthors.SLEEP_BETWEEN
                  (NustAuthors.work_body srv inst)
                  nust_stored nust_work_body_relates nust_work_body_no_http
                  nust_work_body_sets nust_stored_stable "*" ps Hs fuel wa Hfuel)
      as Hp.
    unfold NustAuthors.iter_author_works_2025, NustAuthors.get_with_retry in Hiter.
    unfold fetch_page in Hp.
    destruct (paginate fuel _ NustAuthors.SLEEP_BETWEEN
                (NustAuthors.work_body srv inst) "*" wa)
      as [[] w1|e w1|]; [| |done].
    + subst w1. destruct Hp as [_ Hall]. eapply nust_stored_stable; [|exact Hgrow].
      by apply Hall.
    + destruct Hiter as ((b & s & ->) & _). destruct Hp.
  - intros ps Hs Hfuel.
    pose proof (paginate_until_sets nust_grows nust_grows_refl nust_grows_trans
                  nust_grows_log
                  (fun h c => works_endpoint srv h aid yr c) (GetWorks aid yr)
                  NustAuthors.BASE_DELAY NustAuthors.SLEEP_BETWEEN
                  (NustAuthors.work_body srv inst)
                  nust_stored nust_work_body_relates nust_work_body_no_http
                  nust_work_body_sets nust_stored_stable "*" ps Hs fuel wa Hfuel)
      as Hp.
    unfold NustAuthors.iter_author_works_2025, NustAuthors.get_with_retry in Hiter.
    unfold fetch_page in Hp.
    destruct (paginate fuel _ NustAuthors.SLEEP_BETWEEN
                (NustAuthors.work_body srv inst) "*" wa)
      as [[] w1|e w1|]; [destruct Hp| |done].
    destruct Hiter as ((b & s & ->) & Hst & Hpr). destruct Hp as [_ Hall].
    split; [exists (HTTPError b s); by apply Hgrow|].
    intros wk Hwk. eapply nust_stored_stable; [|exact Hgrow].
    unfold nust_stored. rewrite Hst. by apply Hall.
Qed.

(** Step 2 of [nust_authors.py], whatever the service answers, as long as
    every listing ends in success or in a fetch error. *)
Lemma nust_harvest_run (fuel : nat) ids (w : world NustAuthors.state) :
  (forall aid, aid ∈ ids -> nust_fetch_settles srv inst yr fuel aid) ->
  exists w',
    NustAuthors.harvest_works srv inst yr fuel ids w = Ok tt w'
    /\ nust_grows w w'
    /\ forall aid, aid ∈ ids -> nust_harvested srv inst yr fuel aid w'.
Proof.
  intros Hends. unfold NustAuthors.harvest_works.
  destruct (for_each_chain nust_grows (NustAuthors.author_works srv inst yr fuel)
              ids nust_grows_refl nust_grows_trans) with (w := w)
    as (w' & Hrun & Hgrow & Hall).
  { intros aid Haid w0.
    destruct (nust_author_works_run fuel aid w0 (Hends aid Haid w0))
      as (wb & Hr & Hg & _).
    eauto. }
  exists w'. split; [exact Hrun|]. split; [exact Hgrow|].
  intros aid Haid. destruct (Hall aid Haid) as (wa & wb & Hs & _ & Hb).
  apply (nust_author_works_harvested fuel aid wa wb w');
    [apply (Hends aid Haid) | exact Hs | exact Hb].
Qed.

Lemma nust_authors_grow_refl w : nust_authors_grow w w.
Proof. intros k Hk. exact Hk. Qed.

Lemma nust_authors_grow_trans w1 w2 w3 :
  nust_authors_grow w1 w2 -> nust_authors_grow w2 w3 -> nust_authors_grow w1 w3.
Proof. intros H1 H2 k Hk. auto. Qed.

Lemma nust_upsert_author_relates a :
  relates nust_authors_grow (NustAuthors.upsert_author a).
Proof.
  intros w. unfold NustAuthors.upsert_author.
  destruct (a_display_name a); [|apply nust_authors_grow_refl].
  intros k Hk. cbn. apply upsert_keeps; [intros; reflexivity | exact Hk].
Qed.

Lemma nust_upsert_author_sets a w w' :
  NustAuthors.upsert_author a w = Ok tt w' -> nust_author_stored a w'.
Proof.
  unfold NustAuthors.upsert_author.
  destruct (a_display_name a) as [name|]; [|discriminate].
  intros [= <-]. unfold nust_author_stored. cbn.
  match goal with |- has_key _ _ (upsert _ _ ?row _) =>
    change (a_id a) with (ar_author_id row) at 1 end.
  apply upsert_has. intros; reflexivity.
Qed.

(** The whole of [main] of [nust_authors.py]: the authors are listed and
    stored, then step 2 runs on every author of the table. *)
Lemma nust_main_run (fuel : nat) (aps : list (page author))
    (w : world NustAuthors.state) :
  serves (authors_endpoint srv) "*" aps -> (length aps <= fuel)%nat ->
  Forall (fun a => is_Some (a_display_name a)) (concat (map results aps)) ->
  (forall aid, nust_fetch_settles srv inst yr fuel aid) ->
  exists w',
    NustAuthors.main srv inst yr fuel w = Ok tt w'
    /\ forall aid,
         aid ∈ map a_id (concat (map results aps))
         \/ has_key ar_author_id aid
              (NustAuthors.authors (NustAuthors.db (store w))) ->
         nust_harvested srv inst yr fuel aid w'.
Proof.
  intros Hs Hfuel Hnames Hends. unfold NustAuthors.main. unfold bind at 1.
  cbn [modify]. unfold bind.
  match goal with |- context [NustAuthors.iter_authors srv fuel _ ?w0] =>
    set (x0 := w0) end.
  unfold NustAuthors.iter_authors, NustAuthors.get_with_retry.
  destruct (paginate_served_ok (authors_endpoint srv) GetAuthors
              NustAuthors.BASE_DELAY NustAuthors.SLEEP_BETWEEN
              NustAuthors.upsert_author
              (fun a => is_Some (a_display_name a))) with (c := "*") (ps := aps)
              (fuel := fuel) (w := x0) as (w1 & Hlist); try assumption.
  { intros a w0 [name Hname]. unfold NustAuthors.upsert_author. rewrite Hname.
    eexists. reflexivity. }
  pose proof (paginate_served_sets nust_authors_grow nust_authors_grow_refl
                nust_authors_grow_trans (fun e w0 k Hk => Hk)
                (authors_endpoint srv) GetAuthors
                NustAuthors.BASE_DELAY NustAuthors.SLEEP_BETWEEN
                NustAuthors.upsert_author nust_author_stored
                nust_upsert_author_relates) as Hsets.
  specialize (Hsets ltac:(intros a w0 b s w2 Hr; unfold NustAuthors.upsert_author in Hr;
                          destruct (a_display_name a); discriminate)
                nust_upsert_author_sets
                ltac:(intros a w0 w2 Ha Hg; by apply Hg)
                "*" aps Hs fuel x0 Hfuel).
  unfold fetch_page in Hlist, Hsets. rewrite Hlist in Hsets |- *.
  destruct Hsets as [Hkeep Hall].
  destruct (nust_harvest_run fuel
              (index_order
                 (map ar_author_id
                    (NustAuthors.authors (NustAuthors.db (store w1)))))
              w1 (fun aid _ => Hends aid)) as (w' & Hrun & _ & Hharv).
  exists w'. split; [exact Hrun|].
  intros aid [Hin | Hold]; apply Hharv; apply index_order_elem.
  - apply list_elem_of_fmap in Hin as (a & -> & Ha). by apply Hall.
  - by apply Hkeep.
Qed.

(** Works without topics never fail the loop body. *)
Lemma nust_work_body_ok wk (w : world NustAuthors.state) :
  w_primary_topic wk = None /\ w_topics wk = [] ->
  exists w', NustAuthors.work_body srv inst wk w = Ok tt w'.
Proof.
  intros [Hp Ht]. unfold NustAuthors.work_body, NustAuthors.attach_work_topics.
  rewrite Hp, Ht. eexists. reflexivity.
Qed.

Lemma nust_settles_served fuel aid ps :
  served srv aid yr ps -> (length ps <= fuel)%nat ->
  Forall (fun wk => w_primary_topic wk = None /\ w_topics wk = [])
    (concat (map results ps)) ->
  nust_fetch_settles srv inst yr fuel aid.
Proof.
  intros Hs Hfuel Hall w.
  unfold NustAuthors.iter_author_works_2025, NustAuthors.get_with_retry.
  destruct (paginate_served_ok (fun h c => works_endpoint srv h aid yr c)
              (GetWorks aid yr) NustAuthors.BASE_DELAY NustAuthors.SLEEP_BETWEEN
              (NustAuthors.work_body srv inst) _
              (fun a w0 H => nust_work_body_ok a w0 H) "*" ps Hs Hall fuel w Hfuel)
    as (w' & Hrun).
  unfold fetch_page in Hrun. by rewrite Hrun.
Qed.

Lemma nust_settles_until fuel aid ps :
  served_until srv aid yr ps -> (length ps < fuel)%nat ->
  Forall (fun wk => w_primary_topic wk = None /\ w_topics wk = [])
    (concat (map results ps)) ->
  nust_fetch_settles srv inst yr fuel aid.
Proof.
  intros Hs Hfuel Hall w.
  unfold NustAuthors.iter_author_works_2025, NustAuthors.get_with_retry.
  destruct (paginate_until_raises (fun h c => works_endpoint srv h aid yr c)
              (GetWorks aid yr) NustAuthors.BASE_DELAY NustAuthors.SLEEP_BETWEEN
              (NustAuthors.work_body srv inst) _
              (fun a w0 H => nust_work_body_ok a w0 H) "*" ps Hs Hall fuel w Hfuel)
    as (b & s & w' & Hrun).
  unfold fetch_page in Hrun. by rewrite Hrun.
Qed.

Lemma cj_ends_served fuel aid yr1 ps :
  served srv aid yr1 ps -> (length ps <= fuel)%nat ->
  cj_fetch_ends srv fuel aid yr1.
Proof.
  intros Hs Hfuel w.
  unfold ConfJour.iter_author_works_year, ConfJour.get_with_retry.
  destruct (paginate_served_ok (fun h c => works_endpoint srv h aid yr1 c)
              (GetWorks aid yr1) ConfJour.BASE_DELAY ConfJour.PAGE_SLEEP
              ConfJour.work_body (fun _ => True)
              (fun a w0 _ => match work_body_db a w0 with
                             | ex_intro _ x (conj H _) => ex_intro _ x H
                             end) "*" ps Hs) with (fuel := fuel) (w := w)
    as (w' & Hrun); [by apply Forall_forall | exact Hfuel |].
  unfold fetch_page in Hrun. by rewrite Hrun.
Qed.

Lemma cj_ends_until fuel aid yr1 ps :
  served_until srv aid yr1 ps -> (length ps < fuel)%nat ->
  cj_fetch_ends srv fuel aid yr1.
Proof.
  intros Hs Hfuel w.
  unfold ConfJour.iter_author_works_year, ConfJour.get_with_retry.
  destruct (paginate_until_raises (fun h c => works_endpoint srv h aid yr1 c)
              (GetWorks aid yr1) ConfJour.BASE_DELAY ConfJour.PAGE_SLEEP
              ConfJour.work_body (fun _ => True)
              (fun a w0 _ => match work_body_db a w0 with
                             | ex_intro _ x (conj H _) => ex_intro _ x H
                             end) "*" ps Hs) with (fuel := fuel) (w := w)
    as (b & s & w' & Hrun); [by apply Forall_forall | exact Hfuel |].
  unfold fetch_page in Hrun. by rewrite Hrun.
Qed.

End GeneralNust.

Section IsolationNust.
Import Eff Fetcher Sql Spec.
Variable srv : server.

Lemma author_works_refused inst yr fuel aid (w : world NustAuthors.state) :
  refused srv aid yr ->
  exists e w',
    NustAuthors.author_works srv inst yr (S fuel) aid w = Ok tt w'
    /\ store w' = store w
    /\ prints_of (trace w') = WorksFetchFailed aid yr e :: prints_of (trace w).
Proof.
  intros Href. unfold NustAuthors.author_works,
    NustAuthors.iter_author_works_2025, NustAuthors.get_with_retry.
  destruct (paginate_refused fuel NustAuthors.BASE_DELAY
              (fun h c => works_endpoint srv h aid yr c) (GetWorks aid yr)
              NustAuthors.SLEEP_BETWEEN (NustAuthors.work_body srv inst) "*" w Href)
    as (b & s & w' & Hrun & Hst & Hpr).
  unfold fetch_page in Hrun. rewrite Hrun.
  eexists _, _. split; [reflexivity|]. split; [exact Hst|].
  cbn [log trace]. by rewrite <- Hpr.
Qed.

End IsolationNust.

Section IsolationClaim.
Import Eff Fetcher Sql Spec.
Variable srv : server.

(** C9 (as amended).  A fetch error raised while the works of one author
    (and year) are listed is caught at the loop around that author: a
    warning naming the author is printed and the loop goes on, in both
    scripts, so that step 2 never ends in a fetch error.  When the first
    page is refused, the author and year leave the store untouched (zero
    works).  Against any service, as long as every listing of works ends
    (in [nust_authors.py]: in success or in a fetch error), step 2 of
    either script completes and loses no work row and no warning; for
    every author (and year) the fetch was isolated: when it failed, the
    warning naming the author is printed and the loop went on from the
    store the fetch had reached; every work of every page the service
    serves has a row at the end; and when the service serves some pages
    and fails on the next, the warning is printed and the works of the
    pages received have their rows all the same.  So does the whole run,
    once the authors are listed (their names not null): in
    [conf_jour_outputs.py] for the authors listed, in [nust_authors.py]
    for the authors listed and those the table held before. *)
Theorem partial_failure_isolation (inst : string) (ys ye yr0 : Z) (fuel : nat) :
  (forall aid yr w b s w1,
     ConfJour.iter_author_works_year srv fuel aid yr ConfJour.work_body w
     = Raise (HTTPError b s) w1 ->
     ConfJour.author_year srv fuel aid yr w
     = Ok tt (log (EvPrint (WorksFetchFailed aid yr (HTTPError b s))) w1))
  /\ (forall aid w b s w1,
        NustAuthors.iter_author_works_2025 srv yr0 fuel aid
          (NustAuthors.work_body srv inst) w
        = Raise (HTTPError b s) w1 ->
        NustAuthors.author_works srv inst yr0 fuel aid w
        = Ok tt (log (EvPrint (WorksFetchFailed aid yr0 (HTTPError b s))) w1))
  /\ (forall ids,
        no_http_error (ConfJour.harvest_works srv ys ye fuel ids)
        /\ no_http_error (NustAuthors.harvest_works srv inst yr0 fuel ids))
  /\ (forall aid yr, refused srv aid yr -> (1 <= fuel)%nat ->
        (forall w, exists e w',
           ConfJour.author_year srv fuel aid yr w = Ok tt w'
           /\ store w' = store w
           /\ prints_of (trace w') = WorksFetchFailed aid yr e :: prints_of (trace w))
        /\ (forall w, exists e w',
              NustAuthors.author_works srv inst yr fuel aid w = Ok tt w'
              /\ store w' = store w
              /\ prints_of (trace w')
                 = WorksFetchFailed aid yr e :: prints_of (trace w)))
  /\ (forall ids w,
        (forall aid yr, aid ∈ ids -> yr ∈ ConfJour.years ys ye ->
           cj_fetch_ends srv fuel aid yr) ->
        exists w',
          ConfJour.harvest_works srv ys ye fuel ids w = Ok tt w'
          /\ grows w w'
          /\ forall aid yr, aid ∈ ids -> yr ∈ ConfJour.years ys ye ->
               cj_harvested srv fuel aid yr w')
  /\ (forall ids w,
        (forall aid, aid ∈ ids -> nust_fetch_settles srv inst yr0 fuel aid) ->
        exists w',
          NustAuthors.harvest_works srv inst yr0 fuel ids w = Ok tt w'
          /\ nust_grows w w'
          /\ forall aid, aid ∈ ids -> nust_harvested srv inst yr0 fuel aid w')
  /\ (forall aps w,
        serves (authors_endpoint srv) "*" aps -> (length aps <= fuel)%nat ->
        Forall (fun a => is_Some (a_display_name a)) (concat (map results aps)) ->
        (forall aid yr, aid ∈ map a_id (concat (map results aps)) ->
           yr ∈ ConfJour.years ys ye -> cj_fetch_ends srv fuel aid yr) ->
        exists w',
          ConfJour.main srv ys ye fuel w = Ok tt w'
          /\ forall aid yr, aid ∈ map a_id (concat (map results aps)) ->
               yr ∈ ConfJour.years ys ye -> cj_harvested srv fuel aid yr w')
  /\ (forall aps w,
        serves (authors_endpoint srv) "*" aps -> (length aps <= fuel)%nat ->
        Forall (fun a => is_Some (a_display_name a)) (concat (map results aps)) ->
        (forall aid, nust_fetch_settles srv inst yr0 fuel aid) ->
        exists w',
          NustAuthors.main srv inst yr0 fuel w = Ok tt w'
          /\ forall aid,
               aid ∈ map a_id (concat (map results aps))
               \/ has_key ar_author_id aid
                    (NustAuthors.authors (NustAuthors.db (store w))) ->
               nust_harvested srv inst yr0 fuel aid w').
Proof.
  split; [|split; [|split; [|split; [|split; [|split; [|split]]]]]].
  - intros aid yr w b s w1 Hrun. unfold ConfJour.author_year. by rewrite Hrun.
  - intros aid w b s w1 Hrun. unfold NustAuthors.author_works. by rewrite Hrun.
  - intros ids. split.
    + unfold ConfJour.harvest_works. apply for_each_no_http_error. intros aid.
      apply for_each_no_http_error. intros yr. unfold ConfJour.author_year.
      apply (catch_no_http_error _ (WorksFetchFailed aid yr)).
    + unfold NustAuthors.harvest_works. apply for_each_no_http_error. intros aid.
      unfold NustAuthors.author_works.
      apply (catch_no_http_error _ (WorksFetchFailed aid yr0)).
  - intros aid yr Href Hfuel. destruct fuel as [|fuel']; [lia|]. split; intros w.
    + apply author_year_refused, Href.
    + apply author_works_refused, Href.
  - intros ids w Hends. by apply cj_harvest_run.
  - intros ids w Hends. by apply nust_harvest_run.
  - intros aps w Hs Hfuel Hnames Hends. by apply cj_main_run.
  - intros aps w Hs Hfuel Hnames Hends. by apply nust_main_run.
Qed.

End IsolationClaim.

Section IsolationRuns.
Import Eff Fetcher Sql Spec Samples.

(** The second page of the works of [A2] fails: the error is caught, and
    the work of the first page is in the store all the same. *)
Lemma partial_failure_isolation_counterexample :
  exists w1 w',
    ConfJour.iter_author_works_year partial_srv 3 "A2" 2024 ConfJour.work_body
      (start cj_empty) = Raise (HTTPError false 404) w1
    /\ ConfJour.author_year partial_srv 3 "A2" 2024 (start cj_empty) = Ok tt w'
    /\ prints_of (trace w') = [WorksFetchFailed "A2" 2024 (HTTPError false 404)]
    /\ map ConfJour.wr_work_id (ConfJour.works (ConfJour.db (store w'))) = ["W5"]
    /\ map ConfJour.fact_key (ConfJour.fact_authorships_works (ConfJour.db (store w')))
       = [("A2", "W5")].
Proof.
  eexists _, _.
  split; [vm_compute; reflexivity|].
  split; [vm_compute; reflexivity|].
  split; [vm_compute; reflexivity|].
  split; vm_compute; reflexivity.
Qed.

Lemma harvest_srv_serves_A1 : served harvest_srv "A1" 2024 [page1; page2].
Proof.
  eapply serves_more with (c' := "c2");
    [intros h; reflexivity | reflexivity | reflexivity |].
  apply serves_last; [intros h; reflexivity | reflexivity].
Qed.

Lemma harvest_srv_refuses_A2 : served_until harvest_srv "A2" 2024 [].
Proof. apply until_refused. intros h. discriminate. Qed.

Lemma harvest_srv_serves_A3 :
  served harvest_srv "A3" 2024 [ {| results := [W4]; next_cursor := None |} ].
Proof. apply serves_last; [intros h; reflexivity | reflexivity]. Qed.

Lemma partial_srv_serves_A2 :
  served_until partial_srv "A2" 2024
    [ {| results := [W5]; next_cursor := Some "c2" |} ].
Proof.
  eapply until_more with (c' := "c2");
    [intros h; reflexivity | reflexivity | reflexivity |].
  apply until_refused. intros h. discriminate.
Qed.

Lemma harvest_srv_ends aid yr :
  aid ∈ ["A1"; "A2"; "A3"] -> yr ∈ ConfJour.years 2024 2024 ->
  cj_fetch_ends harvest_srv 3 aid yr.
Proof.
  intros Haid Hyr. cbn in Hyr. apply list_elem_of_singleton in Hyr. subst yr.
  rewrite !elem_of_cons in Haid.
  destruct Haid as [-> | [-> | [-> | Hnil]]]; [| | |by apply elem_of_nil in Hnil].
  - apply (cj_ends_served harvest_srv 3 "A1" 2024 _ harvest_srv_serves_A1).
    simpl. lia.
  - apply (cj_ends_until harvest_srv 3 "A2" 2024 _ harvest_srv_refuses_A2).
    simpl. lia.
  - apply (cj_ends_served harvest_srv 3 "A3" 2024 _ harvest_srv_serves_A3).
    simpl. lia.
Qed.

Lemma harvest_srv_settles aid :
  aid ∈ ["A1"; "A2"; "A3"] -> nust_fetch_settles harvest_srv "I1" 2024 3 aid.
Proof.
  intros Haid. rewrite !elem_of_cons in Haid.
  destruct Haid as [-> | [-> | [-> | Hnil]]]; [| | |by apply elem_of_nil in Hnil].
  - apply (nust_settles_served harvest_srv "I1" 2024 3 "A1" _
             harvest_srv_serves_A1); [simpl; lia|].
    repeat constructor.
  - apply (nust_settles_until harvest_srv "I1" 2024 3 "A2" _
             harvest_srv_refuses_A2); [simpl; lia|].
    constructor.
  - apply (nust_settles_served harvest_srv "I1" 2024 3 "A3" _
             harvest_srv_serves_A3); [simpl; lia|].
    repeat constructor.
Qed.

Lemma partial_srv_ends aid yr :
  aid ∈ ["A2"] -> yr ∈ ConfJour.years 2024 2024 ->
  cj_fetch_ends partial_srv 3 aid yr.
Proof.
  intros Haid Hyr. cbn in Hyr. apply list_elem_of_singleton in Hyr. subst yr.
  apply list_elem_of_singleton in Haid. subst aid.
  apply (cj_ends_until partial_srv 3 "A2" 2024 _ partial_srv_serves_A2).
  simpl. lia.
Qed.

(** Three authors, the works of the second refused; one author whose
    second page fails; and the three authors again in [nust_authors.py]:
    each run completes, the warning names [A2], and the works of the
    others, and of the page received, have their rows. *)
Lemma partial_failure_isolation_witness :
  (forall aid yr, aid ∈ ["A1"; "A2"; "A3"] -> yr ∈ ConfJour.years 2024 2024 ->
     cj_fetch_ends harvest_srv 3 aid yr)
  /\ (exists w',
        ConfJour.harvest_works harvest_srv 2024 2024 3 ["A1"; "A2"; "A3"]
          (start cj_empty) = Ok tt w'
        /\ (exists e, WorksFetchFailed "A2" 2024 e ∈ prints_of (trace w'))
        /\ cj_stored W1 w' /\ cj_stored W3 w' /\ cj_stored W4 w')
  /\ (forall aid yr, aid ∈ ["A2"] -> yr ∈ ConfJour.years 2024 2024 ->
        cj_fetch_ends partial_srv 3 aid yr)
  /\ (exists w',
        ConfJour.harvest_works partial_srv 2024 2024 3 ["A2"] (start cj_empty)
        = Ok tt w'
        /\ (exists e, WorksFetchFailed "A2" 2024 e ∈ prints_of (trace w'))
        /\ cj_stored W5 w')
  /\ (forall aid, aid ∈ ["A1"; "A2"; "A3"] ->
        nust_fetch_settles harvest_srv "I1" 2024 3 aid)
  /\ (exists w',
        NustAuthors.harvest_works harvest_srv "I1" 2024 3 ["A1"; "A2"; "A3"]
          (start nust_empty) = Ok tt w'
        /\ (exists e, WorksFetchFailed "A2" 2024 e ∈ prints_of (trace w'))
        /\ nust_stored W1 w' /\ nust_stored W3 w' /\ nust_stored W4 w').
Proof.
  assert (H2024 : 2024 ∈ ConfJour.years 2024 2024)
    by (cbn; apply list_elem_of_singleton; reflexivity).
  assert (HA1 : "A1" ∈ ["A1"; "A2"; "A3"]) by (rewrite !elem_of_cons; auto).
  assert (HA2 : "A2" ∈ ["A1"; "A2"; "A3"]) by (rewrite !elem_of_cons; auto).
  assert (HA3 : "A3" ∈ ["A1"; "A2"; "A3"]) by (rewrite !elem_of_cons; auto).
  assert (HW1 : W1 ∈ concat (map results [page1; page2]))
    by (cbn; rewrite !elem_of_cons; auto).
  assert (HW3 : W3 ∈ concat (map results [page1; page2]))
    by (cbn; rewrite !elem_of_cons; auto).
  assert (HW4 : W4 ∈ concat (map results
                               [ {| results := [W4]; next_cursor := None |} ]))
    by (cbn; rewrite !elem_of_cons; auto).
  assert (HW5 : W5 ∈ concat (map results
                               [ {| results := [W5]; next_cursor := Some "c2" |} ]))
    by (cbn; rewrite !elem_of_cons; auto).
  destruct (partial_failure_isolation harvest_srv "I1" 2024 2024 2024 3)
    as (_ & _ & _ & _ & Hcj & Hnust & _).
  destruct (partial_failure_isolation partial_srv "I1" 2024 2024 2024 3)
    as (_ & _ & _ & _ & Hpart & _).
  split; [exact harvest_srv_ends|]. split.
  { destruct (Hcj ["A1"; "A2"; "A3"] (start cj_empty) harvest_srv_ends)
      as (w' & Hrun & _ & Hall).
    exists w'. split; [exact Hrun|].
    destruct (Hall "A1" 2024 HA1 H2024) as (_ & Hs1 & _).
    destruct (Hall "A2" 2024 HA2 H2024) as (_ & _ & Hu2).
    destruct (Hall "A3" 2024 HA3 H2024) as (_ & Hs3 & _).
    split; [exact (proj1 (Hu2 [] harvest_srv_refuses_A2 ltac:(simpl; lia)))|].
    split; [exact (Hs1 _ harvest_srv_serves_A1 ltac:(simpl; lia) W1 HW1)|].
    split; [exact (Hs1 _ harvest_srv_serves_A1 ltac:(simpl; lia) W3 HW3)|].
    exact (Hs3 _ harvest_srv_serves_A3 ltac:(simpl; lia) W4 HW4). }
  split; [exact partial_srv_ends|]. split.
  { destruct (Hpart ["A2"] (start cj_empty) partial_srv_ends)
      as (w' & Hrun & _ & Hall).
    exists w'. split; [exact Hrun|].
    destruct (Hall "A2" 2024 ltac:(apply list_elem_of_singleton; reflexivity) H2024)
      as (_ & _ & Hu).
    destruct (Hu _ partial_srv_serves_A2 ltac:(simpl; lia)) as [Hwarn Hst].
    split; [exact Hwarn | exact (Hst W5 HW5)]. }
  split; [exact harvest_srv_settles|].
  destruct (Hnust ["A1"; "A2"; "A3"] (start nust_empty) harvest_srv_settles)
    as (w' & Hrun & _ & Hall).
  exists w'. split; [exact Hrun|].
  destruct (Hall "A1" HA1) as (_ & Hs1 & _).
  destruct (Hall "A2" HA2) as (_ & _ & Hu2).
  destruct (Hall "A3" HA3) as (_ & Hs3 & _).
  split; [exact (proj1 (Hu2 [] harvest_srv_refuses_A2 ltac:(simpl; lia)))|].
  split; [exact (Hs1 _ harvest_srv_serves_A1 ltac:(simpl; lia) W1 HW1)|].
  split; [exact (Hs1 _ harvest_srv_serves_A1 ltac:(simpl; lia) W3 HW3)|].
  exact (Hs3 _ harvest_srv_serves_A3 ltac:(simpl; lia) W4 HW4).
Defined.

(** The whole run on the three authors: one warning, for [A2], and the
    works of [A1] and [A3] stored. *)
Example harvest_three_authors :
  exists w',
    ConfJour.main harvest_srv 2024 2024 3 (start cj_empty) = Ok tt w'
    /\ prints_of (trace w') = [WorksFetchFailed "A2" 2024 (HTTPError true 503)]
    /\ map ConfJour.wr_work_id (ConfJour.works (ConfJour.db (store w')))
       = ["W1"; "W2"; "W3"; "W4"].
Proof.
  eexists.
  split; [vm_compute; reflexivity|].
  split; vm_compute; reflexivity.
Qed.

End IsolationRuns.

(** ** Further properties: the fetcher and the venue type *)

Section FetcherBounds.
Import Eff Fetcher Spec Props.

(** Every fetch ends after at most [RETRY_MAX + 1] requests; the
    retries-exceeded error comes only after [RETRY_MAX] sleeps. *)
Lemma get_with_retry_ends {D B} (base : float)
    (ep : list request -> response B) (rq : request) (w : world D) :
  exists n, (n <= RETRY_MAX)%nat
    /\ ((status_code (answer ep rq w n) = 200
         /\ get_with_retry base ep rq w
            = Ok (answer ep rq w n) (after_attempts rq base n w))
        \/ (status_code (answer ep rq w n) <> 200
            /\ exists b,
                 (b = true -> n = RETRY_MAX)
                 /\ get_with_retry base ep rq w
                    = Raise (HTTPError b (status_code (answer ep rq w n)))
                        (after_attempts rq base n w))).
Proof.
  destruct (first_settled
              (fun k => transient (status_code (answer ep rq w k))) RETRY_MAX)
    as [(n & Hn & Hf & Hlt) | Hall].
  - exists n. split; [exact Hn|].
    destruct (get_with_retry_cases ep rq base w n Hn Hlt) as (H1 & H2 & _).
    destruct (decide (status_code (answer ep rq w n) = 200)) as [E|Hne].
    + left. auto.
    + right. split; [exact Hne|]. exists false. split; [discriminate | auto].
  - exists RETRY_MAX. split; [lia|].
    destruct (get_with_retry_cases ep rq base w RETRY_MAX ltac:(lia)
                ltac:(intros; apply Hall; lia)) as (_ & _ & H3).
    right. pose proof (Hall RETRY_MAX ltac:(lia)) as Ht.
    split; [by destruct (transient_cases _ Ht)|]. exists true. auto.
Qed.

(** X1.  A fetch always ends, in a 200 response or in an [HTTPError] that
    carries a status other than 200; it never touches the store, makes
    between one and [RETRY_MAX + 1] requests, all the same, and sleeps one
    time less, the delays being [base], [base * 1.6], ... as binary64
    floats; the retries-exceeded error comes only after all [RETRY_MAX]
    sleeps.  For the base delays of the two scripts each delay is longer
    than the one before, and the five delays of a fetch that gives up add
    up to a little more than 9.48576 s and 7.9048 s. *)
Theorem get_with_retry_bounded {D B} (base : float)
    (ep : list request -> response B) (rq : request) (w : world D) :
  (exists n, (n <= RETRY_MAX)%nat
     /\ match get_with_retry base ep rq w with
        | Ok r w' =>
            status_code r = 200
            /\ store w' = store w
            /\ history w' = replicate (S n) rq ++ history w
            /\ sleeps_of (trace w')
               = rev (map (delay_at base) (seq 0 n)) ++ sleeps_of (trace w)
        | Raise e w' =>
            (exists b s, e = HTTPError b s /\ s <> 200
                         /\ (b = true -> n = RETRY_MAX))
            /\ store w' = store w
            /\ history w' = replicate (S n) rq ++ history w
            /\ sleeps_of (trace w')
               = rev (map (delay_at base) (seq 0 n)) ++ sleeps_of (trace w)
        | OutOfFuel => False
        end)
  /\ forallb (fun k => PrimFloat.ltb (delay_at ConfJour.BASE_DELAY k)
                         (delay_at ConfJour.BASE_DELAY (S k)))
       (seq 0 RETRY_MAX) = true
  /\ forallb (fun k => PrimFloat.ltb (delay_at NustAuthors.BASE_DELAY k)
                         (delay_at NustAuthors.BASE_DELAY (S k)))
       (seq 0 RETRY_MAX) = true
  /\ (exists q, total_delay ConfJour.BASE_DELAY RETRY_MAX = Some q
                /\ (948576 # 100000 < q)%Q /\ (q < 948577 # 100000)%Q)
  /\ (exists q, total_delay NustAuthors.BASE_DELAY RETRY_MAX = Some q
                /\ (79048 # 10000 < q)%Q /\ (q < 79049 # 10000)%Q).
Proof.
  assert (Hafter : forall n,
            store (after_attempts rq base n w) = store w
            /\ history (after_attempts rq base n w)
               = replicate (S n) rq ++ history w
            /\ sleeps_of (trace (after_attempts rq base n w))
               = rev (map (delay_at base) (seq 0 n)) ++ sleeps_of (trace w)).
  { intros n. split; [reflexivity|]. split; [apply history_after_attempts|].
    unfold after_attempts. cbn [trace].
    change (sleeps_of (EvRequest rq :: ?t)) with (sleeps_of t).
    by rewrite sleeps_of_app, sleeps_of_retried. }
  split; [|split; [|split; [|split]]].
  - destruct (get_with_retry_ends base ep rq w)
      as (n & Hn & [[H200 ->] | [Hne (b & Hb & ->)]]); exists n;
      (split; [exact Hn|]).
    + split; [exact H200 | apply Hafter].
    + split; [eauto | apply Hafter].
  - vm_compute. reflexivity.
  - vm_compute. reflexivity.
  - eexists. split; [vm_compute; reflexivity|]. split; reflexivity.
  - eexists. split; [vm_compute; reflexivity|]. split; reflexivity.
Qed.

Lemma get_with_retry_bounded_witness :
  exists r w',
    get_with_retry 0.6%float Samples.flaky (GetWorks "A1" 2024 "*")
      (Samples.start tt) = Ok r w'
    /\ status_code r = 200
    /\ length (history w') = 3%nat
    /\ sleeps_of (trace w') = [0.96; 0.6]%float.
Proof.
  destruct (proj1 (get_with_retry_bounded 0.6%float Samples.flaky
                     (GetWorks "A1" 2024 "*") (Samples.start tt)))
    as (n & Hn & H).
  assert (Hrun : exists r w',
            get_with_retry 0.6%float Samples.flaky (GetWorks "A1" 2024 "*")
              (Samples.start tt) = Ok r w'
            /\ length (history w') = 3%nat
            /\ sleeps_of (trace w') = [0.96; 0.6]%float).
  { eexists _, _. split; [vm_compute; reflexivity|]. split; reflexivity. }
  destruct Hrun as (r & w' & Hrun & Hlen & Hsl). rewrite Hrun in H.
  destruct H as (H200 & _). exists r, w'.
  split; [exact Hrun|]. split; [exact H200|]. split; [exact Hlen | exact Hsl].
Defined.

End FetcherBounds.

Section VenueRange.
Import PyStr Venue Props.

(** X2.  Whatever the work record holds, the venue type is one of
    "journal", "conference" and "other", the three values the schema
    allows for [venue_type]. *)
Theorem classify_venue_type_range (w : work) :
  classify_venue_type w ∈ venue_types.
Proof.
  unfold classify_venue_type, venue_types. cbv zeta.
  destruct (bool_decide (source_type w = "journal")) eqn:Ej.
  - apply bool_decide_eq_true in Ej. cbn [orb]. rewrite Ej.
    apply elem_of_cons. by left.
  - destruct (bool_decide (source_type w = "conference")) eqn:Ec; cbn [orb].
    + apply bool_decide_eq_true in Ec. rewrite Ec.
      rewrite !elem_of_cons. right. by left.
    + destruct (_ || _ || _ || _).
      * rewrite !elem_of_cons. right. by left.
      * destruct (_ || _); rewrite !elem_of_cons; [by left | right; right; by left].
Qed.

End VenueRange.

(** ** Further properties: when the topic upsert goes to the network *)

Section TopicNetwork.
Import Eff Fetcher Sql Spec.
Variable srv : server.

Lemma enrich_quiet tid t (w : world NustAuthors.state) :
  (is_Some (t_field t) /\ is_Some (t_domain t))
  \/ is_Some (NustAuthors.topic_cache (store w) !! tid) ->
  exists p, NustAuthors.enrich srv tid t w = Ok p w.
Proof.
  intros Hq. unfold NustAuthors.enrich. case_bool_decide as Hc; [by eexists|].
  destruct Hq as [Hq | [d Hd]]; [done|].
  rewrite (get_topic_details_hit srv tid d w Hd). by eexists.
Qed.

Lemma enrich_asks tid t (w : world NustAuthors.state) :
  ~ (is_Some (t_field t) /\ is_Some (t_domain t)) ->
  NustAuthors.topic_cache (store w) !! tid = None ->
  exists p w1 n,
    NustAuthors.enrich srv tid t w = Ok p w1
    /\ (n <= RETRY_MAX)%nat
    /\ history w1
       = replicate (S n) (GetTopic (PyStr.last_segment "/" tid)) ++ history w.
Proof.
  intros Hc Hmiss. unfold NustAuthors.enrich. rewrite bool_decide_eq_false_2 by exact Hc.
  destruct (get_topic_details_miss srv tid w Hmiss)
    as (n & Hn & [[_ ->] | [_ [b ->]]]).
  - eexists _, _, n. split; [reflexivity|]. split; [exact Hn|].
    unfold history. cbn [trace]. apply history_after_attempts.
  - eexists _, _, n. split; [reflexivity|]. split; [exact Hn|].
    unfold history, log. cbn [trace].
    change (requests_of (EvPrint ?m :: ?t)) with (requests_of t).
    apply history_after_attempts.
Qed.

(** X3.  [upsert_topic] goes to the network exactly when the payload lacks
    field or domain and the topic id is not in the cache: with a complete
    payload or a cached id it makes no request and leaves the cache as it
    is, however it ends; otherwise it makes between one and
    [RETRY_MAX + 1] requests, all for that topic. *)
Theorem upsert_topic_network (t : topic_ref) (tid : string)
    (w : world NustAuthors.state) :
  t_id t = Some tid ->
  match NustAuthors.upsert_topic srv t w with
  | Ok _ w' | Raise _ w' =>
      ((is_Some (t_field t) /\ is_Some (t_domain t))
       \/ is_Some (NustAuthors.topic_cache (store w) !! tid) ->
       history w' = history w
       /\ NustAuthors.topic_cache (store w') = NustAuthors.topic_cache (store w))
      /\ (~ (is_Some (t_field t) /\ is_Some (t_domain t)) ->
          NustAuthors.topic_cache (store w) !! tid = None ->
          exists n, (n <= RETRY_MAX)%nat
            /\ history w'
               = replicate (S n) (GetTopic (PyStr.last_segment "/" tid))
                 ++ history w)
  | OutOfFuel => False
  end.
Proof.
  intros Hid.
  destruct (upsert_topic_stored srv t tid w Hid)
    as (p & w1 & Hen & _ & _ & _ & Hup).
  assert (Hboth : forall w',
            history w' = history w1 ->
            NustAuthors.topic_cache (store w') = NustAuthors.topic_cache (store w1) ->
            ((is_Some (t_field t) /\ is_Some (t_domain t))
             \/ is_Some (NustAuthors.topic_cache (store w) !! tid) ->
             history w' = history w
             /\ NustAuthors.topic_cache (store w')
                = NustAuthors.topic_cache (store w))
            /\ (~ (is_Some (t_field t) /\ is_Some (t_domain t)) ->
                NustAuthors.topic_cache (store w) !! tid = None ->
                exists n, (n <= RETRY_MAX)%nat
                  /\ history w'
                     = replicate (S n) (GetTopic (PyStr.last_segment "/" tid))
                       ++ history w)).
  { intros w' Hh Hc. split.
    - intros Hq. destruct (enrich_quiet tid t w Hq) as [p' Hen'].
      rewrite Hen in Hen'. injection Hen' as _ ->. auto.
    - intros Hinc Hmiss.
      destruct (enrich_asks tid t w Hinc Hmiss) as (p' & w1' & n & Hen' & Hn & Hh').
      rewrite Hen in Hen'. injection Hen' as _ <-.
      exists n. split; [exact Hn | congruence]. }
  destruct (NustAuthors.tp_display_name p); rewrite Hup; by apply Hboth.
Qed.

(** X4.  A topic resolved once is cached under its id, and a later resolve
    of that id, in any world where the entry is still cached, returns the
    same record with no request; no resolve and no topic upsert removes or
    changes a cache entry. *)
Theorem topic_resolved_once (tid : string) (w : world NustAuthors.state)
    (d : NustAuthors.details) (w' : world NustAuthors.state) :
  NustAuthors.get_topic_details srv tid w = Ok d w' ->
  NustAuthors.topic_cache (store w') !! tid = Some d
  /\ (forall x : world NustAuthors.state,
        NustAuthors.topic_cache (store x) !! tid = Some d ->
        NustAuthors.get_topic_details srv tid x = Ok d x)
  /\ (forall tid0 d0, NustAuthors.topic_cache (store w) !! tid0 = Some d0 ->
        NustAuthors.topic_cache (store w') !! tid0 = Some d0)
  /\ (forall t tid0 d0,
        NustAuthors.topic_cache (store w) !! tid0 = Some d0 ->
        match NustAuthors.upsert_topic srv t w with
        | Ok _ w2 | Raise _ w2 =>
            NustAuthors.topic_cache (store w2) !! tid0 = Some d0
        | OutOfFuel => True
        end).
Proof.
  intros Hrun.
  assert (Hkeep : forall tid1 (x : world NustAuthors.state) tid0 d0,
            NustAuthors.topic_cache (store x) !! tid0 = Some d0 ->
            match NustAuthors.get_topic_details srv tid1 x with
            | Ok _ x' | Raise _ x' =>
                NustAuthors.topic_cache (store x') !! tid0 = Some d0
            | OutOfFuel => True
            end).
  { intros tid1 x tid0 d0 H0.
    destruct (NustAuthors.topic_cache (store x) !! tid1) as [d1|] eqn:E.
    - by rewrite (get_topic_details_hit srv tid1 d1 x E).
    - destruct (get_topic_details_miss srv tid1 x E)
        as (n & _ & [[_ ->] | [_ [b ->]]]); [|exact H0].
      cbn [store NustAuthors.topic_cache]. rewrite lookup_insert_ne; [exact H0|].
      intros ->. congruence. }
  assert (Hin : NustAuthors.topic_cache (store w') !! tid = Some d).
  { destruct (NustAuthors.topic_cache (store w) !! tid) as [d1|] eqn:E.
    - rewrite (get_topic_details_hit srv tid d1 w E) in Hrun.
      by injection Hrun as <- <-.
    - destruct (get_topic_details_miss srv tid w E)
        as (n & _ & [[_ Hok] | [_ [b Hbad]]]); rewrite Hrun in *; [|discriminate].
      injection Hok as -> ->. cbn [store NustAuthors.topic_cache].
      apply lookup_insert_eq. }
  split; [exact Hin|].
  split; [intros x Hx; by apply get_topic_details_hit|]. split.
  - intros tid0 d0 H0. pose proof (Hkeep tid w tid0 d0 H0) as Hk.
    by rewrite Hrun in Hk.
  - intros t tid0 d0 H0. unfold NustAuthors.upsert_topic.
    destruct (t_id t) as [tid1|]; [|exact H0].
    unfold bind, NustAuthors.enrich. case_bool_decide.
    + unfold ret, NustAuthors.exec_insert_topic.
      destruct (NustAuthors.insert_topic _ _); exact H0.
    + pose proof (Hkeep tid1 w tid0 d0 H0) as Hk.
      destruct (NustAuthors.get_topic_details srv tid1 w) as [d1 x|[b s|col] x|];
        [| |exact Hk|exact Logic.I];
        unfold NustAuthors.exec_insert_topic;
        destruct (NustAuthors.insert_topic _ _); exact Hk.
Qed.

End TopicNetwork.

Section TopicNetworkRuns.
Import Eff Fetcher Sql Spec.

Lemma upsert_topic_network_witness :
  t_id Samples.T1_full = Some Samples.T1
  /\ exists r w',
       NustAuthors.upsert_topic Samples.harvest_srv Samples.T1_full
         (Samples.start Samples.nust_empty) = Ok r w'
       /\ history w' = [].
Proof.
  split; [reflexivity|].
  pose proof (upsert_topic_network Samples.harvest_srv Samples.T1_full Samples.T1
                (Samples.start Samples.nust_empty) eq_refl) as H.
  assert (Hrun : exists r w',
            NustAuthors.upsert_topic Samples.harvest_srv Samples.T1_full
              (Samples.start Samples.nust_empty) = Ok r w')
    by (eexists _, _; vm_compute; reflexivity).
  destruct Hrun as (r & w' & Hrun). rewrite Hrun in H.
  exists r, w'. split; [exact Hrun|].
  apply (proj1 H). left. split; eexists; reflexivity.
Defined.

Lemma topic_resolved_once_witness :
  exists d w',
    NustAuthors.get_topic_details Samples.recovering_srv Samples.T1
      Samples.after_outage = Ok d w'
    /\ NustAuthors.get_topic_details Samples.recovering_srv Samples.T1 w' = Ok d w'.
Proof.
  assert (Hrun : exists d w',
            NustAuthors.get_topic_details Samples.recovering_srv Samples.T1
              Samples.after_outage = Ok d w')
    by (eexists _, _; vm_compute; reflexivity).
  destruct Hrun as (d & w' & Hrun). exists d, w'. split; [exact Hrun|].
  destruct (topic_resolved_once Samples.recovering_srv Samples.T1
              Samples.after_outage d w' Hrun) as (Hin & Hagain & _).
  exact (Hagain w' Hin).
Defined.

End TopicNetworkRuns.

(** ** Further properties: topic ids and ORCIDs *)

Section SegmentFacts.
Import PyStr Props.

Lemma has_sep_cons sep c s :
  has_sep sep (String c s) = Ascii.eqb sep c || has_sep sep s.
Proof. reflexivity. Qed.

Lemma has_sep_app sep p q :
  has_sep sep (p +:+ q) = has_sep sep p || has_sep sep q.
Proof.
  induction p as [|c p IH]; [reflexivity|].
  rewrite append_cons, !has_sep_cons, IH. by rewrite orb_assoc.
Qed.

Lemma last_segment_cons sep c r :
  last_segment sep (String c r)
  = if has_sep sep r then last_segment sep r
    else if Ascii.eqb c sep then r else String c r.
Proof. reflexivity. Qed.

Lemma last_segment_clean sep s : has_sep sep (last_segment sep s) = false.
Proof.
  induction s as [|c r IH]; [reflexivity|].
  rewrite last_segment_cons. destruct (has_sep sep r) eqn:Er; [exact IH|].
  destruct (Ascii.eqb c sep) eqn:Ec; [exact Er|].
  rewrite has_sep_cons, Er, Ascii.eqb_sym, Ec. reflexivity.
Qed.

Lemma last_segment_none sep s : has_sep sep s = false -> last_segment sep s = s.
Proof.
  destruct s as [|c r]; [reflexivity|].
  rewrite has_sep_cons, last_segment_cons.
  intros [Hc Hr]%orb_false_iff. rewrite Hr, Ascii.eqb_sym, Hc. reflexivity.
Qed.

Lemma last_segment_after sep p q :
  has_sep sep q = false -> last_segment sep (p +:+ String sep q) = q.
Proof.
  intros Hq. induction p as [|c p IH].
  - rewrite append_nil, last_segment_cons, Hq, Ascii.eqb_refl. reflexivity.
  - rewrite append_cons, last_segment_cons, has_sep_app, has_sep_cons,
      Ascii.eqb_refl, orb_true_r. exact IH.
Qed.

(** X5.  The part of a topic id sent to [/topics/]: what follows the last
    slash.  It never contains a slash; an id without a slash is sent
    whole; and an id [p/q] with no slash in [q] is sent as [q]. *)
Theorem last_segment_spec (s : string) :
  has_sep "/" (last_segment "/" s) = false
  /\ (has_sep "/" s = false -> last_segment "/" s = s)
  /\ (forall p q, s = p +:+ String "/" q -> has_sep "/" q = false ->
        last_segment "/" s = q).
Proof.
  split; [apply last_segment_clean|]. split; [apply last_segment_none|].
  intros p q -> Hq. by apply last_segment_after.
Qed.

Example last_segment_openalex :
  last_segment "/" "https://openalex.org/T11636" = "T11636".
Proof. reflexivity. Qed.

End SegmentFacts.

Section OrcidFacts.
Import PyStr Props.

Lemma remove_from_skip old u s :
  remove_from old (String.length u) (u +:+ s) = remove_from old 0 s.
Proof.
  induction u as [|c u IH]; [reflexivity|].
  rewrite append_cons. cbn [String.length remove_from]. exact IH.
Qed.

Lemma prefix_app old s : String.prefix old (old +:+ s) = true.
Proof. apply prefix_spec. by exists s. Qed.

Lemma remove_all_prefix c old s :
  remove_all (String c old) (String c old +:+ s) = remove_all (String c old) s.
Proof.
  unfold remove_all. rewrite append_cons. cbn [remove_from].
  change (String c (old +:+ s)) with (String c old +:+ s).
  rewrite prefix_app. cbn [String.length Nat.pred]. apply remove_from_skip.
Qed.

Lemma prefix_first c old d s :
  String.prefix (String c old) (String d s) = true -> d = c.
Proof. intros [v Hv]%prefix_spec. rewrite append_cons in Hv. congruence. Qed.

Lemma remove_all_none c old s :
  has_sep c s = false -> remove_all (String c old) s = s.
Proof.
  unfold remove_all. induction s as [|d s IH]; [reflexivity|].
  rewrite has_sep_cons. intros [Hd Hs]%orb_false_iff.
  cbn [remove_from].
  destruct (String.prefix (String c old) (String d s)) eqn:E.
  - apply prefix_first in E. subst d. by rewrite Ascii.eqb_refl in Hd.
  - by rewrite IH.
Qed.

(** X6.  ORCID normalisation in [upsert_author]: an ORCID given as
    [https://orcid.org/<id>] is stored as [<id>], one given bare is stored
    as it is (for an id with no letter h, as every ORCID is), and a missing
    or null ORCID is stored as the empty string; the same in both
    scripts. *)
Theorem upsert_author_orcid (a : author) (name bare : string)
    (w1 : world ConfJour.state) (w2 : world NustAuthors.state) :
  a_display_name a = Some name ->
  has_sep "h" bare = false ->
  exists w1' w2' r1 r2,
    ConfJour.upsert_author a w1 = Ok tt w1'
    /\ NustAuthors.upsert_author a w2 = Ok tt w2'
    /\ Sql.select Sql.ar_author_id (a_id a)
         (ConfJour.authors (ConfJour.db (store w1'))) = Some r1
    /\ Sql.select Sql.ar_author_id (a_id a)
         (NustAuthors.authors (NustAuthors.db (store w2'))) = Some r2
    /\ Sql.ar_orcid r1 = Sql.ar_orcid r2
    /\ (a_orcid a = Some (ORCID_PREFIX +:+ bare) -> Sql.ar_orcid r1 = bare)
    /\ (a_orcid a = Some bare -> Sql.ar_orcid r1 = bare)
    /\ (a_orcid a = None -> Sql.ar_orcid r1 = "").
Proof.
  intros Hname Hbare.
  assert (Hsel : forall tbl,
            Sql.select Sql.ar_author_id (a_id a)
              (Sql.upsert Sql.ar_author_id (fun _ new => new) (author_row_of a name) tbl)
            = Some (author_row_of a name)).
  { intros tbl.
    destruct (Sql.select Sql.ar_author_id (a_id a) tbl) as [old|] eqn:E.
    - change (a_id a) with (Sql.ar_author_id (author_row_of a name)) in E |- *.
      by rewrite (upsert_select_old Sql.ar_author_id (fun _ new => new)
                    (author_row_of a name) (fun _ _ => eq_refl) tbl old E).
    - apply select_none in E.
      change (a_id a) with (Sql.ar_author_id (author_row_of a name)) in E |- *.
      by apply upsert_select_new. }
  eexists _, _, (author_row_of a name), (author_row_of a name).
  split; [unfold ConfJour.upsert_author; rewrite Hname; reflexivity|].
  split; [unfold NustAuthors.upsert_author; rewrite Hname; reflexivity|].
  split; [apply Hsel|]. split; [apply Hsel|]. split; [reflexivity|].
  unfold author_row_of, ORCID_PREFIX. cbn [Sql.ar_orcid].
  split; [|split]; intros ->; cbn [or_empty default id].
  - rewrite remove_all_prefix. by apply remove_all_none.
  - by apply remove_all_none.
  - reflexivity.
Qed.

Lemma upsert_author_orcid_witness :
  a_display_name
    {| a_id := "A7"; a_display_name := Some "N. Author";
       a_orcid := Some "https://orcid.org/0000-0002-1825-0097";
       a_works_count := Some 3; a_last_known_institutions := [] |}
  = Some "N. Author"
  /\ has_sep "h" "0000-0002-1825-0097" = false
  /\ exists w' r,
       ConfJour.upsert_author
         {| a_id := "A7"; a_display_name := Some "N. Author";
            a_orcid := Some "https://orcid.org/0000-0002-1825-0097";
            a_works_count := Some 3; a_last_known_institutions := [] |}
         (Samples.start Samples.cj_empty) = Ok tt w'
       /\ Sql.select Sql.ar_author_id "A7"
            (ConfJour.authors (ConfJour.db (store w'))) = Some r
       /\ Sql.ar_orcid r = "0000-0002-1825-0097".
Proof.
  split; [reflexivity | split; [reflexivity |]].
  destruct (upsert_author_orcid
              {| a_id := "A7"; a_display_name := Some "N. Author";
                 a_orcid := Some "https://orcid.org/0000-0002-1825-0097";
                 a_works_count := Some 3; a_last_known_institutions := [] |}
              "N. Author" "0000-0002-1825-0097"
              (Samples.start Samples.cj_empty) (Samples.start Samples.nust_empty)
              eq_refl eq_refl)
    as (w1' & _ & r1 & _ & Hrun & _ & Hsel & _ & _ & Hurl & _).
  exists w1', r1. split; [exact Hrun|]. split; [exact Hsel|].
  apply Hurl. reflexivity.
Defined.

End OrcidFacts.

(** ** Further properties: attribute upserts, the year range, fatal listing *)

Section LastWrite.
Import Sql.
Context {R K : Type} `{EqDecision K} (key : R -> K).

(** An overwrite upsert followed by a lookup. *)
Lemma upsert_overwrite_select (new : R) (tbl : list R) :
  select key (key new) (upsert key (fun _ n => n) new tbl) = Some new.
Proof.
  destruct (select key (key new) tbl) as [old|] eqn:E.
  - by rewrite (upsert_select_old key (fun _ n => n) new (fun _ _ => eq_refl) tbl old E).
  - apply select_none in E. by apply upsert_select_new.
Qed.

Lemma upsert_overwrite_length (new : R) (tbl : list R) :
  length (upsert key (fun _ n => n) new tbl)
  = (length tbl + (if decide (key new ∈ map key tbl) then 0 else 1))%nat.
Proof.
  case_decide as Hk.
  - rewrite <- (length_map key), (upsert_keys_present key (fun _ n => n) new
      (fun _ _ => eq_refl) tbl Hk), length_map. lia.
  - rewrite (upsert_keys_absent key (fun _ n => n) new tbl Hk), length_app.
    reflexivity.
Qed.

Lemma upsert_overwrite_twice (new : R) (tbl : list R) :
  upsert key (fun _ n => n) new (upsert key (fun _ n => n) new tbl)
  = upsert key (fun _ n => n) new tbl.
Proof.
  induction tbl as [|r tbl IH]; cbn [upsert].
  - by rewrite decide_True.
  - destruct (decide (key r = key new)) as [E|Hne]; cbn [upsert].
    + by rewrite decide_True.
    + rewrite decide_False by exact Hne. by rewrite IH.
Qed.

End LastWrite.

Section WorkUpsert.
Import Eff Sql Spec.

(** X7.  [upsert_work] of [conf_jour_outputs.py] is a last-write-wins
    upsert: afterwards the work id looks up the row of this observation
    (title, year, DOI and the venue type of [classify_venue_type]),
    whatever was stored under it; every other work id looks up what it did
    before; the table grows by one row for a new id and by none for a
    known one; uniqueness of the ids is kept; the other tables are
    untouched; and doing it twice is doing it once. *)
Theorem upsert_work_stored (w : work) (d : ConfJour.database) :
  let d' := ConfJour.upsert_work_db w d in
  select ConfJour.wr_work_id (w_id w) (ConfJour.works d')
  = Some {| ConfJour.wr_work_id := w_id w;
            ConfJour.wr_title := w_display_name w;
            ConfJour.wr_publication_year := w_publication_year w;
            ConfJour.wr_doi := w_doi w;
            ConfJour.wr_venue_type := Venue.classify_venue_type w |}
  /\ (forall k, k <> w_id w ->
        select ConfJour.wr_work_id k (ConfJour.works d')
        = select ConfJour.wr_work_id k (ConfJour.works d))
  /\ length (ConfJour.works d')
     = (length (ConfJour.works d)
        + (if decide (w_id w ∈ map ConfJour.wr_work_id (ConfJour.works d))
           then 0 else 1))%nat
  /\ (unique ConfJour.wr_work_id (ConfJour.works d) ->
      unique ConfJour.wr_work_id (ConfJour.works d'))
  /\ ConfJour.authors d' = ConfJour.authors d
  /\ ConfJour.fact_authorships_works d' = ConfJour.fact_authorships_works d
  /\ ConfJour.upsert_work_db w d' = d'.
Proof.
  cbv zeta. unfold ConfJour.upsert_work_db. cbn [ConfJour.works ConfJour.authors
    ConfJour.fact_authorships_works].
  split; [exact (upsert_overwrite_select ConfJour.wr_work_id (ConfJour.work_row_of w) _)|].
  split.
  { intros k Hk. apply upsert_select_other; [intros; reflexivity | exact Hk]. }
  split; [exact (upsert_overwrite_length ConfJour.wr_work_id (ConfJour.work_row_of w) _)|].
  split; [apply upsert_unique; intros; reflexivity|].
  split; [reflexivity|]. split; [reflexivity|].
  by rewrite upsert_overwrite_twice.
Qed.

End WorkUpsert.

Section YearRange.
Import Eff Fetcher Spec.

Lemma years_elem ys ye yr : yr ∈ ConfJour.years ys ye <-> ys <= yr <= ye.
Proof.
  unfold ConfJour.years. rewrite list_elem_of_fmap. split.
  - intros (i & -> & Hi). apply list_elem_of_In, in_seq in Hi. lia.
  - intros Hyr. exists (Z.to_nat (yr - ys)). split; [lia|].
    apply list_elem_of_In, in_seq. lia.
Qed.

(** X8.  The years of step 2 are exactly the integers from [YEAR_START]
    to [YEAR_END], both included, in increasing order and each once; when
    [YEAR_END] is below [YEAR_START] there is none, and step 2 then makes
    no request and changes nothing, whatever the authors. *)
Theorem years_range (srv : server) (ys ye : Z) :
  (forall yr, yr ∈ ConfJour.years ys ye <-> ys <= yr <= ye)
  /\ length (ConfJour.years ys ye) = Z.to_nat (ye + 1 - ys)
  /\ (forall i yr, ConfJour.years ys ye !! i = Some yr -> yr = ys + Z.of_nat i)
  /\ (ye < ys ->
      forall fuel ids w, ConfJour.harvest_works srv ys ye fuel ids w = Ok tt w).
Proof.
  split; [apply years_elem|]. split.
  { unfold ConfJour.years. by rewrite length_map, length_seq. }
  split.
  { intros i yr. unfold ConfJour.years. rewrite list_lookup_fmap.
    destruct (seq 0 _ !! i) as [j|] eqn:E; [|discriminate].
    apply lookup_seq in E as [-> _]. cbn. by intros [= <-]. }
  intros Hlt fuel ids w. unfold ConfJour.harvest_works, ConfJour.years.
  replace (Z.to_nat (ye + 1 - ys)) with 0%nat by lia. cbn [seq map].
  induction ids as [|aid ids IH]; [reflexivity|].
  cbn [for_each]. unfold bind. cbn. exact IH.
Qed.

End YearRange.

Section FatalListing.
Import Eff Fetcher Spec.
Variable srv : server.

Lemma listing_refused {D A} fuel base pause (body : A -> M D unit)
    (ep : list request -> string -> response (page A)) mkrq (w : world D) :
  (forall h, status_code (ep h "*") <> 200) ->
  exists b s n,
    paginate (S fuel) (fetch_page ep mkrq base) pause body "*" w
    = Raise (HTTPError b s) (after_attempts (mkrq "*") base n w)
    /\ (n <= RETRY_MAX)%nat.
Proof.
  intros Href. cbn [paginate]. unfold bind at 1. unfold fetch_page.
  destruct (get_with_retry_outcome (fun h => ep h "*") (mkrq "*") base w)
    as (n & Hn & [[H200 _] | [_ [b ->]]]).
  - exfalso. exact (Href _ H200).
  - eauto.
Qed.

(** X9.  A failure of the author listing is fatal in both scripts: when
    the service never answers the first page of authors with 200, [main]
    ends in an [HTTPError] after between one and [RETRY_MAX + 1] requests,
    all for that page; no works are requested and the database is as it
    was found. *)
Theorem main_listing_fatal (inst : string) (ys ye yr : Z) (fuel : nat)
    (w1 : world ConfJour.state) (w2 : world NustAuthors.state) :
  (forall h, status_code (authors_endpoint srv h "*") <> 200) ->
  (exists b s n w',
     ConfJour.main srv ys ye (S fuel) w1 = Raise (HTTPError b s) w'
     /\ (n <= RETRY_MAX)%nat
     /\ history w' = replicate (S n) (GetAuthors "*") ++ history w1
     /\ ConfJour.db (store w') = ConfJour.db (store w1))
  /\ (exists b s n w',
        NustAuthors.main srv inst yr (S fuel) w2 = Raise (HTTPError b s) w'
        /\ (n <= RETRY_MAX)%nat
        /\ history w' = replicate (S n) (GetAuthors "*") ++ history w2
        /\ NustAuthors.db (store w') = NustAuthors.db (store w2)).
Proof.
  intros Href. split.
  - unfold ConfJour.main. unfold bind at 1. cbn [modify]. unfold bind at 1.
    unfold ConfJour.iter_authors, ConfJour.get_with_retry.
    match goal with |- context [paginate _ _ _ _ _ ?x] =>
      destruct (listing_refused fuel ConfJour.BASE_DELAY ConfJour.PAGE_SLEEP
                  ConfJour.author_body (authors_endpoint srv) GetAuthors x Href)
        as (b & s & n & Hrun & Hn) end.
    unfold fetch_page in Hrun. rewrite Hrun.
    eexists b, s, n, _. split; [reflexivity|]. split; [exact Hn|].
    split; [|reflexivity]. rewrite history_after_attempts. reflexivity.
  - unfold NustAuthors.main. unfold bind at 1. cbn [modify]. unfold bind at 1.
    unfold NustAuthors.iter_authors, NustAuthors.get_with_retry.
    match goal with |- context [paginate _ _ _ _ _ ?x] =>
      destruct (listing_refused fuel NustAuthors.BASE_DELAY NustAuthors.SLEEP_BETWEEN
                  NustAuthors.upsert_author (authors_endpoint srv) GetAuthors x Href)
        as (b & s & n & Hrun & Hn) end.
    unfold fetch_page in Hrun. rewrite Hrun.
    eexists b, s, n, _. split; [reflexivity|]. split; [exact Hn|].
    split; [|reflexivity]. rewrite history_after_attempts. reflexivity.
Qed.

End FatalListing.

Section FatalListingRun.
Import Eff Fetcher Spec.

Lemma main_listing_fatal_witness :
  (forall h, status_code (authors_endpoint Samples2.down_srv h "*") <> 200)
  /\ exists b s w',
       ConfJour.main Samples2.down_srv 2023 2025 1 (Samples.start Samples.cj_empty)
       = Raise (HTTPError b s) w'
       /\ ConfJour.db (store w') = ConfJour.db Samples.cj_empty.
Proof.
  assert (Href : forall h,
            status_code (authors_endpoint Samples2.down_srv h "*") <> 200)
    by (intros h; discriminate).
  split; [exact Href|].
  destruct (proj1 (main_listing_fatal Samples2.down_srv "I1" 2023 2025 2025 0
                     (Samples.start Samples.cj_empty)
                     (Samples.start Samples.nust_empty) Href))
    as (b & s & n & w' & Hrun & _ & _ & Hdb).
  exists b, s, w'. split; [exact Hrun | exact Hdb].
Defined.

End FatalListingRun.

(** ** Further properties: what a whole run keeps *)

Section MainKeeps.
Import Eff Fetcher Sql Spec Props.
Variable srv : server.

Lemma cj_main_keeps (I : ConfJour.state -> Prop) ys ye fuel :
  (forall s, I s -> I {| ConfJour.db := ConfJour.db s; ConfJour.author_ids := [];
                         ConfJour.seen_works := ∅ |}) ->
  (forall a, preserves I (ConfJour.author_body a)) ->
  (forall wk, preserves I (ConfJour.work_body wk)) ->
  preserves I (ConfJour.main srv ys ye fuel).
Proof.
  intros Hreset Hauth Hwork. unfold ConfJour.main.
  apply preserves_bind; [by apply preserves_modify|]. intros _.
  apply preserves_bind.
  { apply preserves_paginate; [|exact Hauth].
    intros c. apply preserves_get_with_retry. }
  intros _ w Hw. generalize (ConfJour.author_ids (store w)). intros ids.
  revert w Hw.
  change (preserves I (ConfJour.harvest_works srv ys ye fuel ids)).
  unfold ConfJour.harvest_works.
  apply preserves_for_each. intros aid. apply preserves_for_each. intros yr.
  unfold ConfJour.author_year.
  apply (preserves_catch _ _ (WorksFetchFailed aid yr)).
  apply preserves_paginate; [|exact Hwork].
  intros c. apply preserves_get_with_retry.
Qed.

Lemma nust_main_keeps (I : NustAuthors.state -> Prop) inst yr fuel :
  (forall s, I s -> I {| NustAuthors.db := NustAuthors.db s;
                         NustAuthors.topic_cache := NustAuthors.topic_cache s;
                         NustAuthors.seen_work_ids := ∅ |}) ->
  (forall a, preserves I (NustAuthors.upsert_author a)) ->
  (forall wk, preserves I (NustAuthors.work_body srv inst wk)) ->
  preserves I (NustAuthors.main srv inst yr fuel).
Proof.
  intros Hreset Hauth Hwork. unfold NustAuthors.main.
  apply preserves_bind; [by apply preserves_modify|]. intros _.
  apply preserves_bind.
  { apply preserves_paginate; [|exact Hauth].
    intros c. apply preserves_get_with_retry. }
  intros _ w Hw.
  generalize (index_order
                (map ar_author_id (NustAuthors.authors (NustAuthors.db (store w))))).
  intros ids. revert w Hw.
  change (preserves I (NustAuthors.harvest_works srv inst yr fuel ids)).
  unfold NustAuthors.harvest_works.
  apply preserves_for_each. intros aid. unfold NustAuthors.author_works.
  apply (preserves_catch _ _ (WorksFetchFailed aid yr)).
  apply preserves_paginate; [|exact Hwork].
  intros c. apply preserves_get_with_retry.
Qed.

(** The loop body of [nust_authors.py], from what its parts keep. *)
Lemma nust_work_body_keeps_gen (I : NustAuthors.state -> Prop) inst wk :
  (forall s, I s -> I (NustAuthors.on_db (nust_links_of inst wk) s)) ->
  (forall tid, preserves I (NustAuthors.get_topic_details srv tid)) ->
  (forall p, preserves I (NustAuthors.exec_insert_topic p)) ->
  (forall s row, I s ->
     I (NustAuthors.on_db
          (fun d => NustAuthors.set_work_topics
                      (insert_or_ignore NustAuthors.work_topic_key row
                         (NustAuthors.work_topics_2025 d)) d) s)) ->
  (forall s x, I s ->
     I {| NustAuthors.db := NustAuthors.db s;
          NustAuthors.topic_cache := NustAuthors.topic_cache s;
          NustAuthors.seen_work_ids := x |}) ->
  preserves I (NustAuthors.work_body srv inst wk).
Proof.
  intros Hlinks Hget Hins Hlink Hseen.
  assert (Hup : forall t, preserves I (NustAuthors.upsert_topic srv t)).
  { intros t. unfold NustAuthors.upsert_topic.
    destruct (t_id t) as [tid|]; [|apply preserves_ret].
    apply preserves_bind.
    - unfold NustAuthors.enrich. case_bool_decide; [apply preserves_ret|].
      intros w Hw. pose proof (Hget tid w Hw) as Ho.
      destruct (NustAuthors.get_topic_details srv tid w) as [d w'|[b s|col] w'|];
        exact Ho.
    - intros p. apply preserves_bind; [apply Hins | intros _; apply preserves_ret]. }
  assert (Hlt : forall wid prim t,
            preserves I (NustAuthors.link_topic srv wid prim t)).
  { intros wid prim t. unfold NustAuthors.link_topic.
    destruct (t_id t); [|apply preserves_ret].
    apply preserves_bind; [apply Hup|]. intros tid.
    apply preserves_modify. intros st Hs. by apply Hlink. }
  intros x Hx. rewrite nust_work_step.
  match goal with |- match ?m ?x1 with _ => _ end =>
    assert (Hm : preserves I m) end.
  { apply preserves_bind.
    - unfold NustAuthors.attach_work_topics. apply preserves_bind.
      + destruct (w_primary_topic wk); [apply Hlt | apply preserves_ret].
      + intros _. apply preserves_for_each. intros t. apply Hlt.
    - intros _. apply preserves_modify. intros st Hs. by apply Hseen. }
  apply Hm. cbn [store]. by apply Hlinks.
Qed.

Lemma fold_insert_or_ignore_unique {R K A} `{EqDecision K} (key : R -> K)
    (f : list R -> A -> list R) (xs : list A) (tbl : list R) :
  (forall t a, unique key t -> unique key (f t a)) ->
  unique key tbl -> unique key (fold_left f xs tbl).
Proof.
  intros Hf. revert tbl. induction xs as [|x xs IH]; intros tbl Hu; [exact Hu|].
  cbn [fold_left]. apply IH. by apply Hf.
Qed.

(** X10.  Both runs keep the uniqueness constraints of their schema: from
    a database in which the primary keys and the [UNIQUE] pairs are
    unique, [main] ends, in success or in error, in a database in which
    they are.  No statement of a run can therefore fail on a uniqueness
    constraint. *)
Theorem main_keeps_schema (inst : string) (ys ye yr : Z) (fuel : nat) :
  (forall w, cj_schema_ok (ConfJour.db (store w)) ->
     match ConfJour.main srv ys ye fuel w with
     | Ok _ w' | Raise _ w' => cj_schema_ok (ConfJour.db (store w'))
     | OutOfFuel => True
     end)
  /\ (forall w, nust_schema_ok (NustAuthors.db (store w)) ->
        match NustAuthors.main srv inst yr fuel w with
        | Ok _ w' | Raise _ w' => nust_schema_ok (NustAuthors.db (store w'))
        | OutOfFuel => True
        end).
Proof.
  split.
  - apply (cj_main_keeps (fun s => cj_schema_ok (ConfJour.db s))).
    + intros st Hs. exact Hs.
    + intros a. unfold ConfJour.author_body.
      apply preserves_bind; [|intros _; by apply preserves_modify].
      unfold ConfJour.upsert_author.
      destruct (a_display_name a); [|apply preserves_raise].
      apply preserves_modify. intros st (Ha & Hw & Hf).
      split; [|by split]. cbn. apply upsert_unique; [intros; reflexivity | exact Ha].
    + intros wk x (Ha & Hw & Hf).
      destruct (work_body_db wk x) as (x' & -> & _ & -> & _).
      split; [exact Ha|]. split.
      * cbn. apply upsert_unique; [intros; reflexivity | exact Hw].
      * cbn. by apply (facts_of_work_unique wk).
  - apply (nust_main_keeps (fun s => nust_schema_ok (NustAuthors.db s))).
    + intros st Hs. exact Hs.
    + intros a. unfold NustAuthors.upsert_author.
      destruct (a_display_name a); [|apply preserves_raise].
      apply preserves_modify. intros st (Ha & Hrest).
      split; [|exact Hrest]. cbn. apply upsert_unique; [intros; reflexivity | exact Ha].
    + intros wk. apply nust_work_body_keeps_gen.
      * intros st (Ha & Hw & Hl & Ht & Hwt). unfold nust_links_of.
        split; [exact Ha|]. split; [|split; [|by split]].
        -- cbn. apply upsert_unique; [intros; reflexivity | exact Hw].
        -- cbn. apply fold_insert_or_ignore_unique; [|exact Hl].
           intros t au Hu. unfold NustAuthors.insert_authorship.
           destruct (PyStr.truthy _); [by apply insert_or_ignore_unique | exact Hu].
      * intros tid. apply nust_get_topic_details_keeps.
      * intros p w (Ha & Hw & Hl & Ht & Hwt). unfold NustAuthors.exec_insert_topic.
        unfold NustAuthors.insert_topic.
        destruct (NustAuthors.tp_display_name p); [|by repeat split].
        cbn. repeat split; try assumption.
        apply upsert_unique; [intros r0 H; exact H | exact Ht].
      * intros st row (Ha & Hw & Hl & Ht & Hwt). cbn. repeat split; try assumption.
        by apply insert_or_ignore_unique.
      * intros st x Hs. exact Hs.
Qed.

(** X11.  The topic cache stays sound through a whole run of
    [nust_authors.py]: when every entry is the normal form of a 200 answer
    of the topics endpoint at the start, that is so at the end, in success
    or in error. *)
Theorem main_keeps_cache_sound (inst : string) (yr : Z) (fuel : nat)
    (w : world NustAuthors.state) :
  cache_sound srv (NustAuthors.topic_cache (store w)) ->
  match NustAuthors.main srv inst yr fuel w with
  | Ok _ w' | Raise _ w' => cache_sound srv (NustAuthors.topic_cache (store w'))
  | OutOfFuel => True
  end.
Proof.
  revert w.
  apply (nust_main_keeps (fun s => cache_sound srv (NustAuthors.topic_cache s))).
  - intros st Hs. exact Hs.
  - intros a. unfold NustAuthors.upsert_author.
    destruct (a_display_name a); [|apply preserves_raise].
    apply preserves_modify. intros st Hs. exact Hs.
  - intros wk. apply nust_work_body_keeps_gen.
    + intros st Hs. exact Hs.
    + intros tid w Hw. exact (get_topic_details_sound srv tid w Hw).
    + intros p w Hw. unfold NustAuthors.exec_insert_topic.
      destruct (NustAuthors.insert_topic _ _); exact Hw.
    + intros st row Hs. exact Hs.
    + intros st x Hs. exact Hs.
Qed.

End MainKeeps.

Section MainKeepsRuns.
Import Eff Sql Spec Props.

(** A first run resolves topic [T2] and caches it; a second run starts
    from that cache. *)
Lemma main_keeps_cache_sound_witness :
  cache_sound Samples2.topics_srv
    (NustAuthors.topic_cache (store (Samples.start Samples.nust_empty)))
  /\ NustAuthors.main Samples2.topics_srv "I1" 2025 3
       (Samples.start Samples.nust_empty) = Ok tt Samples2.after_topics_run
  /\ (NustAuthors.d_field
        <$> NustAuthors.topic_cache (store Samples2.after_topics_run)
            !! Samples2.T2)
     = Some (Some {| lv_id := Some "F3"; lv_name := Some "Engineering" |})
  /\ cache_sound Samples2.topics_srv
       (NustAuthors.topic_cache (store Samples2.after_topics_run))
  /\ exists w2,
       NustAuthors.main Samples2.topics_srv "I1" 2025 3
         Samples2.after_topics_run = Ok tt w2
       /\ cache_sound Samples2.topics_srv (NustAuthors.topic_cache (store w2)).
Proof.
  assert (H0 : cache_sound Samples2.topics_srv
                 (NustAuthors.topic_cache (store (Samples.start Samples.nust_empty)))).
  { intros tid d Hd. cbn in Hd. by rewrite lookup_empty in Hd. }
  assert (Hrun1 : NustAuthors.main Samples2.topics_srv "I1" 2025 3
                    (Samples.start Samples.nust_empty)
                  = Ok tt Samples2.after_topics_run)
    by (vm_compute; reflexivity).
  assert (H1 : cache_sound Samples2.topics_srv
                 (NustAuthors.topic_cache (store Samples2.after_topics_run))).
  { pose proof (main_keeps_cache_sound Samples2.topics_srv "I1" 2025 3
                  (Samples.start Samples.nust_empty) H0) as H.
    by rewrite Hrun1 in H. }
  split; [exact H0|]. split; [exact Hrun1|].
  split; [vm_compute; reflexivity|]. split; [exact H1|].
  assert (Hrun2 : exists w2,
            NustAuthors.main Samples2.topics_srv "I1" 2025 3
              Samples2.after_topics_run = Ok tt w2)
    by (eexists; vm_compute; reflexivity).
  destruct Hrun2 as [w2 Hrun2].
  pose proof (main_keeps_cache_sound Samples2.topics_srv "I1" 2025 3
                Samples2.after_topics_run H1) as H.
  rewrite Hrun2 in H. exists w2. split; [exact Hrun2 | exact H].
Defined.

End MainKeepsRuns.

(** ** Further properties: the work-topic links *)

Section TopicLinks.
Import Eff Fetcher Sql Spec Props.
Variable srv : server.

(** While work [wid] is stored, linking a topic to it keeps the links
    well-founded: the topic row is written before the link. *)
Lemma link_topic_keeps_links wid prim t :
  preserves (fun s => topic_links_ok (NustAuthors.db s)
                      /\ has_key NustAuthors.wr_work_id wid
                           (NustAuthors.works_2025 (NustAuthors.db s)))
    (NustAuthors.link_topic srv wid prim t).
Proof.
  intros w [Hl Hk]. unfold NustAuthors.link_topic.
  destruct (t_id t) as [tid|] eqn:Hid; [|by split].
  unfold bind.
  destruct (upsert_topic_stored srv t tid w Hid)
    as (p & w1 & _ & Hp & Hdb & _ & Hup).
  destruct (NustAuthors.tp_display_name p) as [name|]; rewrite Hup;
    [|rewrite Hdb; by split].
  cbn [modify store NustAuthors.on_db NustAuthors.db]. rewrite Hdb.
  split; [|exact Hk].
  intros r Hr. cbn in Hr |- *.
  apply insert_or_ignore_elem in Hr as [Hr | ->].
  - destruct (Hl r Hr) as [Ht Hw]. split; [|exact Hw].
    apply upsert_keeps; [intros r0 H; exact H | exact Ht].
  - cbn. split; [|exact Hk]. rewrite <- Hp.
    change (NustAuthors.tp_topic_id p)
      with (NustAuthors.tr_topic_id (NustAuthors.topic_row_of p name)).
    apply upsert_has. intros r0 H. exact H.
Qed.

Lemma work_body_keeps_links inst wk :
  preserves (fun s => topic_links_ok (NustAuthors.db s))
    (NustAuthors.work_body srv inst wk).
Proof.
  intros x Hx. rewrite nust_work_step.
  set (J := fun s => topic_links_ok (NustAuthors.db s)
                     /\ has_key NustAuthors.wr_work_id (w_id wk)
                          (NustAuthors.works_2025 (NustAuthors.db s))).
  match goal with |- match ?m ?x1 with _ => _ end =>
    assert (Hm : preserves J m); [|assert (Hx1 : J (store x1))] end.
  { apply preserves_bind.
    - unfold NustAuthors.attach_work_topics. apply preserves_bind.
      + destruct (w_primary_topic wk);
          [apply link_topic_keeps_links | apply preserves_ret].
      + intros _. apply preserves_for_each. intros t.
        apply link_topic_keeps_links.
    - intros _. apply preserves_modify. intros st Hst. exact Hst. }
  { unfold J, nust_links_of. cbn. split.
    - intros r Hr. destruct (Hx r Hr) as [Ht Hw]. split; [exact Ht|].
      apply upsert_keeps; [intros; reflexivity | exact Hw].
    - change (w_id wk)
        with (NustAuthors.wr_work_id (NustAuthors.work_row_of wk)) at 1.
      apply upsert_has. intros; reflexivity. }
  specialize (Hm _ Hx1).
  match goal with |- match ?o with _ => _ end => destruct o as [[] x2|e x2|] end;
    [by destruct Hm | by destruct Hm | exact Logic.I].
Qed.

(** X12.  Work-topic links are referentially sound through a whole run of
    [nust_authors.py]: when every link of the database found names a topic
    of [topics] and a work of [works_2025], so does every link at the end
    of [main], in success or in error; the topic and the work are written
    before the link. *)
Theorem main_keeps_topic_links (inst : string) (yr : Z) (fuel : nat)
    (w : world NustAuthors.state) :
  topic_links_ok (NustAuthors.db (store w)) ->
  match NustAuthors.main srv inst yr fuel w with
  | Ok _ w' | Raise _ w' => topic_links_ok (NustAuthors.db (store w'))
  | OutOfFuel => True
  end.
Proof.
  revert w.
  apply (nust_main_keeps srv (fun s => topic_links_ok (NustAuthors.db s))).
  - intros st Hst. exact Hst.
  - intros a. unfold NustAuthors.upsert_author.
    destruct (a_display_name a); [|apply preserves_raise].
    apply preserves_modify. intros st Hst. exact Hst.
  - intros wk. apply work_body_keeps_links.
Qed.

End TopicLinks.

(** ** Further properties: which authorship rows are written *)

Section FactKeys.
Import Eff Sql Spec Props.

Lemma insert_or_ignore_length {R K} `{EqDecision K} (key : R -> K) new tbl :
  (length (insert_or_ignore key new tbl) <= S (length tbl))%nat.
Proof.
  destruct (insert_or_ignore_cases key new tbl) as [[_ ->] | [_ ->]]; [lia|].
  rewrite length_app. simpl. lia.
Qed.

Lemma facts_of_work_length w aus tbl :
  (length (facts_of_work w aus tbl) <= length tbl + length aus)%nat.
Proof.
  revert tbl. induction aus as [|au aus IH]; intros tbl; [simpl; lia|].
  change (facts_of_work w (au :: aus) tbl)
    with (facts_of_work w aus (ConfJour.insert_fact w tbl au)).
  specialize (IH (ConfJour.insert_fact w tbl au)).
  assert (length (ConfJour.insert_fact w tbl au) <= S (length tbl))%nat.
  { unfold ConfJour.insert_fact. destruct (PyStr.truthy _); [|lia].
    apply insert_or_ignore_length. }
  simpl. lia.
Qed.

(** X13.  [upsert_fact] writes a fact row for exactly the authors the work
    lists with a non-empty id: afterwards a pair (author, work) is in the
    fact table when it was there before or when the work has that id and
    lists that author; an authorship without author, or with an empty
    author id, adds nothing; rows already stored keep their values; at most
    one row per authorship is added, and tables [authors] and [works] are
    not touched. *)
Theorem upsert_fact_keys (w : work) (d : ConfJour.database) (a wid : string) :
  let d' := ConfJour.upsert_fact_db w d in
  (has_key ConfJour.fact_key (a, wid) (ConfJour.fact_authorships_works d')
   <-> has_key ConfJour.fact_key (a, wid) (ConfJour.fact_authorships_works d)
       \/ (w_id w = wid /\ a <> ""
           /\ exists au, au ∈ w_authorships w /\ au_author_id au = Some a))
  /\ (has_key ConfJour.fact_key (a, wid) (ConfJour.fact_authorships_works d) ->
      rows_with ConfJour.fact_key (a, wid) (ConfJour.fact_authorships_works d')
      = rows_with ConfJour.fact_key (a, wid) (ConfJour.fact_authorships_works d))
  /\ (length (ConfJour.fact_authorships_works d')
      <= length (ConfJour.fact_authorships_works d) + length (w_authorships w))%nat
  /\ ConfJour.authors d' = ConfJour.authors d
  /\ ConfJour.works d' = ConfJour.works d.
Proof.
  cbv zeta. unfold ConfJour.upsert_fact_db.
  cbn [ConfJour.fact_authorships_works ConfJour.authors ConfJour.works].
  fold (facts_of_work w (w_authorships w) (ConfJour.fact_authorships_works d)).
  assert (Hobs : observed a wid w = true
                 <-> w_id w = wid /\ a <> ""
                     /\ exists au, au ∈ w_authorships w /\ au_author_id au = Some a).
  { unfold observed, lists_author.
    rewrite andb_true_iff, bool_decide_eq_true, existsb_exists. split.
    - intros [Hid (au & Hin & [Hau Htr]%andb_true_iff)].
      apply bool_decide_eq_true in Hau. split; [exact Hid|]. split.
      + intros ->. discriminate.
      + exists au. split; [by apply list_elem_of_In | exact Hau].
    - intros (Hid & Hne & au & Hin & Hau). split; [exact Hid|].
      exists au. split; [by apply list_elem_of_In|].
      rewrite bool_decide_eq_true_2 by exact Hau. by destruct a. }
  split; [|split; [|split; [|split]]].
  - rewrite <- Hobs.
    destruct (decide ((a, wid) ∈ map ConfJour.fact_key
                                   (ConfJour.fact_authorships_works d))) as [Hk|Hn].
    + split; [by left|]. intros _.
      by destruct (facts_of_work_present (a, wid) w (w_authorships w) _ Hk).
    + pose proof (facts_of_work_absent a wid w (w_authorships w) _ Hn) as H.
      unfold observed.
      destruct (bool_decide (w_id w = wid) && existsb (lists_author a) (w_authorships w)).
      * split; [by right | intros _; by destruct H].
      * split; [done | intros [Hk | [=]]; done].
  - intros Hk. by destruct (facts_of_work_present (a, wid) w (w_authorships w) _ Hk).
  - apply facts_of_work_length.
  - reflexivity.
  - reflexivity.
Qed.

End FactKeys.

Section AuthorshipRows.
Import Eff Sql Spec Props.

Lemma is_nust_spec inst au :
  (NustAuthors.is_nust inst au = 1
   <-> exists i, i ∈ au_institutions au /\ inst_id i = Some inst)
  /\ (NustAuthors.is_nust inst au = 0 \/ NustAuthors.is_nust inst au = 1).
Proof.
  unfold NustAuthors.is_nust.
  destruct (existsb _ (au_institutions au)) eqn:E.
  - split; [|by right]. split; [|done]. intros _.
    apply existsb_exists in E as (i & Hin & Hi).
    apply bool_decide_eq_true in Hi. exists i. split; [by apply list_elem_of_In | exact Hi].
  - split; [|by left]. split; [discriminate|].
    intros (i & Hin & Hi). exfalso.
    assert (existsb (fun i => bool_decide (inst_id i = Some inst))
              (au_institutions au) = true); [|congruence].
    apply existsb_exists. exists i. split; [by apply list_elem_of_In|].
    by apply bool_decide_eq_true.
Qed.

Lemma insert_authorship_rows inst wid aus :
  forall tbl r,
    r ∈ fold_left (NustAuthors.insert_authorship inst wid) aus tbl ->
    r ∈ tbl
    \/ exists au, au ∈ aus /\ PyStr.truthy (au_author_id au) = true
                  /\ r = authorship_row_of inst wid au.
Proof.
  induction aus as [|au aus IH]; intros tbl r Hr; [by left|].
  cbn [fold_left] in Hr. destruct (IH _ _ Hr) as [H1 | (au' & Hin & Htr & ->)].
  - unfold NustAuthors.insert_authorship in H1.
    destruct (PyStr.truthy (au_author_id au)) eqn:Htr.
    + apply insert_or_ignore_elem in H1 as [H1 | ->]; [by left|].
      right. exists au. split; [apply elem_of_cons; by left | by split].
    + by left.
  - right. exists au'. split; [apply elem_of_cons; by right | by split].
Qed.

Lemma insert_authorship_keeps inst wid aus :
  forall tbl r,
    r ∈ tbl -> r ∈ fold_left (NustAuthors.insert_authorship inst wid) aus tbl.
Proof.
  induction aus as [|au aus IH]; intros tbl r Hr; [exact Hr|].
  cbn [fold_left]. apply IH. unfold NustAuthors.insert_authorship.
  destruct (PyStr.truthy _); [|exact Hr].
  match goal with |- _ ∈ insert_or_ignore ?k ?new tbl =>
    destruct (insert_or_ignore_cases k new tbl) as [[_ ->] | [_ ->]] end;
    [exact Hr | apply elem_of_app; by left].
Qed.

(** X14.  [attach_authorships] always succeeds, keeps every link already
    stored, and adds links only for the authorships of the work that carry
    a non-empty author id: each new row names the work, that author and
    the author position, and its NUST flag is 1 when one of the
    authorship's institutions is [NUST_INST_ID] and 0 otherwise. *)
Theorem attach_authorships_rows (inst wid : string) (wk : work)
    (w : world NustAuthors.state) :
  exists w',
    NustAuthors.attach_authorships inst wid wk w = Ok tt w'
    /\ trace w' = trace w
    /\ (forall r, r ∈ NustAuthors.authorships_2025 (NustAuthors.db (store w)) ->
          r ∈ NustAuthors.authorships_2025 (NustAuthors.db (store w')))
    /\ (forall r, r ∈ NustAuthors.authorships_2025 (NustAuthors.db (store w')) ->
          r ∈ NustAuthors.authorships_2025 (NustAuthors.db (store w))
          \/ exists au,
               au ∈ w_authorships wk
               /\ au_author_id au = Some (NustAuthors.as_author_id r)
               /\ NustAuthors.as_author_id r <> ""
               /\ NustAuthors.as_work_id r = wid
               /\ NustAuthors.as_author_position r = au_author_position au
               /\ (NustAuthors.as_is_nust_affiliation r = 1
                   <-> exists i, i ∈ au_institutions au /\ inst_id i = Some inst)
               /\ (NustAuthors.as_is_nust_affiliation r = 0
                   \/ NustAuthors.as_is_nust_affiliation r = 1)).
Proof.
  eexists. split; [reflexivity|]. split; [reflexivity|].
  cbn [store NustAuthors.on_db NustAuthors.db NustAuthors.set_authorships
       NustAuthors.authorships_2025].
  split.
  - intros r Hr. by apply insert_authorship_keeps.
  - intros r Hr.
    apply insert_authorship_rows in Hr as [Hr | (au & Hin & Htr & ->)]; [by left|].
    right. exists au. split; [exact Hin|].
    unfold authorship_row_of.
    cbn [NustAuthors.as_work_id NustAuthors.as_author_id
         NustAuthors.as_author_position NustAuthors.as_is_nust_affiliation].
    destruct (au_author_id au) as [[|c a]|] eqn:Hau; try discriminate.
    cbn [PyStr.or_empty default id]. split; [reflexivity|]. split; [discriminate|].
    split; [reflexivity|]. split; [reflexivity|]. apply is_nust_spec.
Qed.

End AuthorshipRows.

(** ** Further properties: the primary topic of a work *)

Section PrimaryTopic.
Import Eff Fetcher Sql Spec Props.
Variable srv : server.

Lemma insert_or_ignore_select_present {R K} `{EqDecision K} (key : R -> K)
    (new r : R) (k : K) (tbl : list R) :
  select key k tbl = Some r -> select key k (insert_or_ignore key new tbl) = Some r.
Proof.
  intros Hs. destruct (insert_or_ignore_cases key new tbl) as [[_ ->] | [_ ->]];
    [exact Hs|].
  unfold select in *. rewrite rows_with_app.
  destruct (rows_with key k tbl); [discriminate | exact Hs].
Qed.

Lemma insert_or_ignore_select_new {R K} `{EqDecision K} (key : R -> K)
    (new : R) (tbl : list R) :
  ~ has_key key (key new) tbl ->
  select key (key new) (insert_or_ignore key new tbl) = Some new.
Proof.
  intros Hn. rewrite (insert_or_ignore_absent key new tbl Hn).
  unfold select. rewrite rows_with_app, (rows_with_absent key _ tbl Hn).
  unfold rows_with. by rewrite filter_cons_True.
Qed.

(** A link once stored stays as it is through any further linking. *)
Lemma link_topic_keeps_row k row wid prim t :
  preserves (fun s => select NustAuthors.work_topic_key k
                        (NustAuthors.work_topics_2025 (NustAuthors.db s)) = Some row)
    (NustAuthors.link_topic srv wid prim t).
Proof.
  unfold NustAuthors.link_topic. destruct (t_id t); [|apply preserves_ret].
  apply preserves_bind.
  - apply (nust_upsert_topic_keeps srv
             (fun d => select NustAuthors.work_topic_key k
                         (NustAuthors.work_topics_2025 d) = Some row)).
    intros d tbl Hd. exact Hd.
  - intros tid. apply preserves_modify. intros st Hst. cbn.
    by apply insert_or_ignore_select_present.
Qed.

(** X15.  The primary topic of a work keeps its flag: when
    [attach_work_topics] succeeds for a work whose primary topic was not
    yet linked to it, the link of that topic has [is_primary] 1 and the
    score of the primary entry, also when the same topic comes again in
    the list of topics of the work (that later entry is ignored). *)
Theorem primary_topic_flag (wid : string) (wk : work) (pt : topic_ref)
    (tid : string) (w w' : world NustAuthors.state) :
  w_primary_topic wk = Some pt ->
  t_id pt = Some tid ->
  ~ has_key NustAuthors.work_topic_key (wid, tid)
      (NustAuthors.work_topics_2025 (NustAuthors.db (store w))) ->
  NustAuthors.attach_work_topics srv wid wk w = Ok tt w' ->
  select NustAuthors.work_topic_key (wid, tid)
    (NustAuthors.work_topics_2025 (NustAuthors.db (store w')))
  = Some {| NustAuthors.wt_work_id := wid; NustAuthors.wt_topic_id := tid;
            NustAuthors.wt_score := t_score pt; NustAuthors.wt_is_primary := 1 |}.
Proof.
  intros Hpt Hid Hnew Hrun.
  set (row := {| NustAuthors.wt_work_id := wid; NustAuthors.wt_topic_id := tid;
                 NustAuthors.wt_score := t_score pt;
                 NustAuthors.wt_is_primary := 1 |}).
  unfold NustAuthors.attach_work_topics in Hrun. rewrite Hpt in Hrun.
  unfold bind in Hrun.
  destruct (NustAuthors.link_topic srv wid 1 pt w) as [[] w1|e w1|] eqn:Hfirst;
    [|discriminate|discriminate].
  assert (H1 : select NustAuthors.work_topic_key (wid, tid)
                 (NustAuthors.work_topics_2025 (NustAuthors.db (store w1)))
               = Some row).
  { unfold NustAuthors.link_topic in Hfirst. rewrite Hid in Hfirst.
    unfold bind in Hfirst.
    destruct (upsert_topic_stored srv pt tid w Hid)
      as (p & w2 & _ & _ & Hdb & _ & Hup).
    destruct (NustAuthors.tp_display_name p) as [name|]; rewrite Hup in Hfirst;
      [|discriminate].
    injection Hfirst as <-.
    cbn [store NustAuthors.on_db NustAuthors.db NustAuthors.set_topics
         NustAuthors.set_work_topics NustAuthors.work_topics_2025 default id].
    rewrite Hdb.
    change (wid, tid) with (NustAuthors.work_topic_key row).
    apply insert_or_ignore_select_new. exact Hnew. }
  pose proof (preserves_for_each _ (NustAuthors.link_topic srv wid 0) (w_topics wk)
                (fun t => link_topic_keeps_row (wid, tid) row wid 0 t) w1 H1) as Hk.
  by rewrite Hrun in Hk.
Qed.

End PrimaryTopic.

Section PrimaryTopicRun.
Import Eff Sql Spec Props.

Lemma primary_topic_flag_witness :
  w_primary_topic Samples2.W6 = Some Samples2.T1_primary
  /\ t_id Samples2.T1_primary = Some Samples.T1
  /\ exists w',
       NustAuthors.attach_work_topics Samples2.topics_srv "W6" Samples2.W6
         (Samples.start Samples.nust_empty) = Ok tt w'
       /\ select NustAuthors.work_topic_key ("W6", Samples.T1)
            (NustAuthors.work_topics_2025 (NustAuthors.db (store w')))
          = Some {| NustAuthors.wt_work_id := "W6";
                    NustAuthors.wt_topic_id := Samples.T1;
                    NustAuthors.wt_score := Some (9 # 10);
                    NustAuthors.wt_is_primary := 1 |}
       /\ length (NustAuthors.work_topics_2025 (NustAuthors.db (store w'))) = 2%nat.
Proof.
  split; [reflexivity | split; [reflexivity |]].
  assert (Hrun : exists w',
            NustAuthors.attach_work_topics Samples2.topics_srv "W6" Samples2.W6
              (Samples.start Samples.nust_empty) = Ok tt w'
            /\ length (NustAuthors.work_topics_2025 (NustAuthors.db (store w')))
               = 2%nat)
    by (eexists; split; [vm_compute; reflexivity | reflexivity]).
  destruct Hrun as (w' & Hrun & Hlen).
  exists w'. split; [exact Hrun|]. split; [|exact Hlen].
  apply (primary_topic_flag Samples2.topics_srv "W6" Samples2.W6
           Samples2.T1_primary Samples.T1 (Samples.start Samples.nust_empty) w'
           eq_refl eq_refl); [|exact Hrun].
  intros H. by apply elem_of_nil in H.
Defined.

Lemma main_keeps_topic_links_witness :
  topic_links_ok (NustAuthors.db (store (Samples.start Samples.nust_empty)))
  /\ exists w',
       NustAuthors.main Samples2.topics_srv "I1" 2025 3
         (Samples.start Samples.nust_empty) = Ok tt w'
       /\ length (NustAuthors.work_topics_2025 (NustAuthors.db (store w'))) = 2%nat
       /\ topic_links_ok (NustAuthors.db (store w')).
Proof.
  assert (H0 : topic_links_ok
                 (NustAuthors.db (store (Samples.start Samples.nust_empty)))).
  { intros r Hr. by apply elem_of_nil in Hr. }
  split; [exact H0|].
  assert (Hrun : exists w',
            NustAuthors.main Samples2.topics_srv "I1" 2025 3
              (Samples.start Samples.nust_empty) = Ok tt w'
            /\ length (NustAuthors.work_topics_2025 (NustAuthors.db (store w')))
               = 2%nat)
    by (eexists; split; [vm_compute; reflexivity | reflexivity]).
  destruct Hrun as (w' & Hrun & Hlen).
  pose proof (main_keeps_topic_links Samples2.topics_srv "I1" 2025 3
                (Samples.start Samples.nust_empty) H0) as H.
  rewrite Hrun in H. exists w'. split; [exact Hrun|]. split; [exact Hlen | exact H].
Defined.

Lemma main_keeps_schema_witness :
  cj_schema_ok (ConfJour.db (store (Samples.start Samples.cj_empty)))
  /\ exists w',
       ConfJour.main Samples.harvest_srv 2024 2024 3
         (Samples.start Samples.cj_empty) = Ok tt w'
       /\ cj_schema_ok (ConfJour.db (store w')).
Proof.
  assert (H0 : cj_schema_ok (ConfJour.db (store (Samples.start Samples.cj_empty)))).
  { repeat split; apply NoDup_nil_2. }
  split; [exact H0|].
  assert (Hrun : exists w',
            ConfJour.main Samples.harvest_srv 2024 2024 3
              (Samples.start Samples.cj_empty) = Ok tt w')
    by (eexists; vm_compute; reflexivity).
  destruct Hrun as [w' Hrun].
  pose proof (proj1 (main_keeps_schema Samples.harvest_srv "I1" 2024 2024 2024 3)
                (Samples.start Samples.cj_empty) H0) as H.
  rewrite Hrun in H. exists w'. split; [exact Hrun | exact H].
Defined.

End PrimaryTopicRun.

(** ** Further properties: harvesting the same works again *)

Section Replay.
Import Sql Props.
Context {R K : Type} `{EqDecision K} (key : R -> K).

Lemma select_cons (r : R) (tbl : list R) (k : K) :
  select key k (r :: tbl) = if decide (key r = k) then Some r else select key k tbl.
Proof.
  unfold select, rows_with. case_decide as E.
  - by rewrite filter_cons_True.
  - by rewrite filter_cons_False.
Qed.

(** Two tables with the same keys in the same order, unique, and the same
    row under every key are the same table. *)
Lemma table_ext (t1 t2 : list R) :
  unique key t1 -> map key t1 = map key t2 ->
  (forall k, select key k t1 = select key k t2) -> t1 = t2.
Proof.
  revert t2. induction t1 as [|r1 t1 IH]; intros [|r2 t2] Hu Hk Hs;
    try discriminate; [reflexivity|].
  cbn [map] in Hk. injection Hk as Hk1 Hk.
  apply NoDup_cons in Hu as [Hn1 Hu].
  assert (Hr : r1 = r2).
  { specialize (Hs (key r1)). rewrite !select_cons in Hs.
    rewrite decide_True in Hs by reflexivity.
    rewrite decide_True in Hs by (symmetry; exact Hk1). congruence. }
  subst r2. f_equal. apply IH; [exact Hu | exact Hk|].
  intros k. specialize (Hs k). rewrite !select_cons in Hs.
  case_decide as E; [|exact Hs].
  subst k. assert (Hn2 : key r1 ∉ map key t2) by (by rewrite <- Hk).
  apply (select_none key) in Hn1. apply (select_none key) in Hn2. congruence.
Qed.

Lemma upsert_overwrite_select_any (new : R) (tbl : list R) (k : K) :
  select key k (upsert key (fun _ n => n) new tbl)
  = if decide (key new = k) then Some new else select key k tbl.
Proof.
  case_decide as E.
  - subst k. apply upsert_overwrite_select.
  - apply upsert_select_other; [intros; reflexivity | congruence].
Qed.

Lemma upsert_all_select (rs tbl : list R) (k : K) :
  select key k (upsert_all key rs tbl)
  = fold_left (fun acc r => if decide (key r = k) then Some r else acc) rs
      (select key k tbl).
Proof.
  revert tbl. induction rs as [|r rs IH]; intros tbl; [reflexivity|].
  unfold upsert_all in *. cbn [fold_left]. rewrite IH.
  by rewrite upsert_overwrite_select_any.
Qed.

Lemma latest_twice (rs : list R) (k : K) (x : option R) :
  let g := fold_left (fun acc r => if decide (key r = k) then Some r else acc) rs in
  g (g x) = g x.
Proof.
  cbv zeta. induction rs as [|r rs IH] using rev_ind; [reflexivity|].
  rewrite !fold_left_app. cbn [fold_left].
  destruct (decide (key r = k)); [reflexivity | exact IH].
Qed.

Lemma upsert_all_keeps (rs tbl : list R) (k : K) :
  has_key key k tbl -> has_key key k (upsert_all key rs tbl).
Proof.
  revert tbl. induction rs as [|r rs IH]; intros tbl Hk; [exact Hk|].
  unfold upsert_all in *. cbn [fold_left]. apply IH.
  apply upsert_keeps; [intros; reflexivity | exact Hk].
Qed.

Lemma upsert_all_has (rs tbl : list R) (r : R) :
  r ∈ rs -> has_key key (key r) (upsert_all key rs tbl).
Proof.
  revert tbl. induction rs as [|r0 rs IH]; intros tbl Hr.
  - by apply elem_of_nil in Hr.
  - apply elem_of_cons in Hr as [-> | Hr].
    + unfold upsert_all. cbn [fold_left]. apply (upsert_all_keeps rs).
      apply upsert_has. intros; reflexivity.
    + unfold upsert_all in *. cbn [fold_left]. by apply IH.
Qed.

Lemma upsert_all_unique (rs tbl : list R) :
  unique key tbl -> unique key (upsert_all key rs tbl).
Proof.
  revert tbl. induction rs as [|r rs IH]; intros tbl Hu; [exact Hu|].
  unfold upsert_all in *. cbn [fold_left]. apply IH.
  apply upsert_unique; [intros; reflexivity | exact Hu].
Qed.

Lemma upsert_all_keys_present (rs tbl : list R) :
  (forall r, r ∈ rs -> has_key key (key r) tbl) ->
  map key (upsert_all key rs tbl) = map key tbl.
Proof.
  revert tbl. induction rs as [|r rs IH]; intros tbl Hall; [reflexivity|].
  unfold upsert_all in *. cbn [fold_left].
  assert (Hk : map key (upsert key (fun _ n => n) r tbl) = map key tbl).
  { apply upsert_keys_present; [intros; reflexivity|].
    apply Hall. apply elem_of_cons. by left. }
  rewrite IH; [exact Hk|].
  intros r' Hr'. unfold has_key. rewrite Hk. apply Hall. apply elem_of_cons. by right.
Qed.

Lemma upsert_all_twice (rs tbl : list R) :
  unique key tbl ->
  upsert_all key rs (upsert_all key rs tbl) = upsert_all key rs tbl.
Proof.
  intros Hu. symmetry. apply table_ext.
  - by apply upsert_all_unique.
  - symmetry. apply upsert_all_keys_present. intros r Hr. by apply upsert_all_has.
  - intros k. rewrite (upsert_all_select rs (upsert_all key rs tbl)).
    rewrite (upsert_all_select rs tbl). symmetry. apply latest_twice.
Qed.

Lemma insert_all_keeps (rs tbl : list R) (k : K) :
  has_key key k tbl -> has_key key k (insert_all key rs tbl).
Proof.
  revert tbl. induction rs as [|r rs IH]; intros tbl Hk; [exact Hk|].
  unfold insert_all in *. cbn [fold_left]. apply IH.
  by apply insert_or_ignore_keeps.
Qed.

Lemma insert_all_has (rs tbl : list R) (r : R) :
  r ∈ rs -> has_key key (key r) (insert_all key rs tbl).
Proof.
  revert tbl. induction rs as [|r0 rs IH]; intros tbl Hr.
  - by apply elem_of_nil in Hr.
  - apply elem_of_cons in Hr as [-> | Hr].
    + unfold insert_all. cbn [fold_left]. apply (insert_all_keeps rs).
      apply insert_or_ignore_has.
    + unfold insert_all in *. cbn [fold_left]. by apply IH.
Qed.

Lemma insert_all_noop (rs tbl : list R) :
  (forall r, r ∈ rs -> has_key key (key r) tbl) -> insert_all key rs tbl = tbl.
Proof.
  induction rs as [|r rs IH]; intros Hall; [reflexivity|].
  unfold insert_all in *. cbn [fold_left].
  rewrite insert_or_ignore_present by (apply Hall; apply elem_of_cons; by left).
  apply IH. intros r' Hr'. apply Hall. apply elem_of_cons. by right.
Qed.

Lemma insert_all_app (r1 r2 tbl : list R) :
  insert_all key (r1 ++ r2) tbl = insert_all key r2 (insert_all key r1 tbl).
Proof. unfold insert_all. apply fold_left_app. Qed.

End Replay.

Section Idempotence.
Import Eff Sql Spec Props.

Lemma facts_of_work_insert_all w aus tbl :
  facts_of_work w aus tbl
  = insert_all ConfJour.fact_key
      (omap (fun au => if PyStr.truthy (au_author_id au)
                       then Some (fact_of (PyStr.or_empty (au_author_id au)) w)
                       else None) aus) tbl.
Proof.
  revert tbl. induction aus as [|au aus IH]; intros tbl; [reflexivity|].
  change (facts_of_work w (au :: aus) tbl)
    with (facts_of_work w aus (ConfJour.insert_fact w tbl au)).
  rewrite IH. cbn [omap list_omap]. unfold ConfJour.insert_fact.
  destruct (PyStr.truthy (au_author_id au)); reflexivity.
Qed.

Lemma processed_tables ws d :
  ConfJour.authors (processed ws d) = ConfJour.authors d
  /\ ConfJour.works (processed ws d)
     = upsert_all ConfJour.wr_work_id (map ConfJour.work_row_of ws) (ConfJour.works d)
  /\ ConfJour.fact_authorships_works (processed ws d)
     = insert_all ConfJour.fact_key (flat_map rows_of_work ws)
         (ConfJour.fact_authorships_works d).
Proof.
  revert d. induction ws as [|w ws IH]; intros d; [by repeat split|].
  unfold processed in *. cbn [fold_left].
  destruct (IH (ConfJour.upsert_fact_db w (ConfJour.upsert_work_db w d)))
    as (Ha & Hw & Hf).
  rewrite Ha, Hw, Hf. repeat split.
  cbn [flat_map ConfJour.upsert_fact_db ConfJour.upsert_work_db
       ConfJour.fact_authorships_works].
  rewrite insert_all_app. f_equal.
  exact (facts_of_work_insert_all w (w_authorships w) _).
Qed.

(** X16.  Harvesting the same works again changes nothing: when the loop
    body of [conf_jour_outputs.py] has run on a stream of works, from a
    database whose work ids are unique, running it on the same stream once
    more leaves every table as it is (works are overwritten with the same
    values, facts are ignored as duplicates). *)
Theorem processed_idempotent (ws : list work) (d : ConfJour.database)
    (x : world ConfJour.state) :
  unique ConfJour.wr_work_id (ConfJour.works d) ->
  processed ws (processed ws d) = processed ws d
  /\ (ConfJour.db (store x) = d ->
      exists x1 x2,
        for_each ConfJour.work_body ws x = Ok tt x1
        /\ for_each ConfJour.work_body ws x1 = Ok tt x2
        /\ ConfJour.db (store x2) = ConfJour.db (store x1)).
Proof.
  intros Hu.
  assert (Hidem : processed ws (processed ws d) = processed ws d).
  { destruct (processed_tables ws d) as (Ha & Hw & Hf).
    destruct (processed_tables ws (processed ws d)) as (Ha' & Hw' & Hf').
    rewrite Ha in Ha'. rewrite Hw in Hw'. rewrite Hf in Hf'.
    rewrite upsert_all_twice in Hw' by exact Hu.
    rewrite insert_all_noop in Hf'
      by (intros r Hr; by apply insert_all_has).
    rewrite <- Ha in Ha'. rewrite <- Hw in Hw'. rewrite <- Hf in Hf'.
    destruct (processed ws (processed ws d)), (processed ws d).
    cbn in *. congruence. }
  split; [exact Hidem|]. intros <-.
  destruct (for_each_work_body ws x) as (x1 & Hrun1 & _ & Hdb1 & _).
  destruct (for_each_work_body ws x1) as (x2 & Hrun2 & _ & Hdb2 & _).
  exists x1, x2. split; [exact Hrun1|]. split; [exact Hrun2|].
  rewrite Hdb2, Hdb1. exact Hidem.
Qed.

Lemma processed_idempotent_witness :
  unique ConfJour.wr_work_id (ConfJour.works Samples.cj_db_empty)
  /\ processed [Samples.W1; Samples.W2; Samples.W2_later; Samples.W2]
       (processed [Samples.W1; Samples.W2; Samples.W2_later; Samples.W2]
          Samples.cj_db_empty)
     = processed [Samples.W1; Samples.W2; Samples.W2_later; Samples.W2]
         Samples.cj_db_empty.
Proof.
  assert (Hu : unique ConfJour.wr_work_id (ConfJour.works Samples.cj_db_empty))
    by apply NoDup_nil_2.
  split; [exact Hu|].
  exact (proj1 (processed_idempotent
                  [Samples.W1; Samples.W2; Samples.W2_later; Samples.W2]
                  Samples.cj_db_empty (Samples.start Samples.cj_empty) Hu)).
Defined.

End Idempotence.

(** ** Further properties: the exported counts *)

Section GroupCounts.
Context {A G : Type} `{EqDecision G} (g : A -> G).






End GroupCounts.

Section ViewFacts.
Import Sql CountsView.

Lemma joined_elem d a f y :
  (a, f, y) ∈ joined d
  <-> f ∈ ConfJour.fact_authorships_works d /\ ConfJour.fr_year f = Some y
      /\ a ∈ ConfJour.authors d /\ ar_author_id a = ConfJour.fr_author_id f.
Proof.
  unfold joined. rewrite list_elem_of_In, in_flat_map. split.
  - intros (f' & Hf' & Hin). destruct (ConfJour.fr_year f') as [y'|] eqn:Ey;
      [|destruct Hin].
    apply list_elem_of_In, list_elem_of_fmap in Hin as (a' & [= -> -> ->] & Ha).
    apply list_elem_of_filter in Ha as [Hid Ha].
    split; [by apply list_elem_of_In|]. auto.
  - intros (Hf & Hy & Ha & Hid). exists f. split; [by apply list_elem_of_In|].
    rewrite Hy. apply list_elem_of_In, list_elem_of_fmap. exists a.
    split; [reflexivity|]. apply list_elem_of_filter. auto.
Qed.




Lemma rows_with_unique {R K : Type} `{EqDecision K} (key : R -> K)
    (r0 : R) (tbl : list R) :
  unique key tbl -> r0 ∈ tbl -> filter (fun r => key r = key r0) tbl = [r0].
Proof.
  unfold unique. induction tbl as [|r tbl IH]; intros Hu Hin;
    [by apply elem_of_nil in Hin|].
  cbn [map] in Hu. apply NoDup_cons in Hu as [Hr Hu].
  apply elem_of_cons in Hin as [<- | Hin].
  - rewrite filter_cons_True by reflexivity. f_equal.
    apply (rows_with_absent key). exact Hr.
  - rewrite filter_cons_False; [by apply IH|].
    intros E. apply Hr. rewrite E. apply list_elem_of_fmap. eauto.
Qed.

Lemma in_group_unique d a0 y :
  unique ar_author_id (ConfJour.authors d) -> a0 ∈ ConfJour.authors d ->
  in_group d (ar_author_id a0, ar_display_name a0, y)
  = map (fun f => (a0, f, y))
      (filter (fun f => ConfJour.fr_author_id f = ar_author_id a0
                        /\ ConfJour.fr_year f = Some y)
         (ConfJour.fact_authorships_works d)).
Proof.
  intros Hu Ha. unfold in_group, joined.
  induction (ConfJour.fact_authorships_works d) as [|f fs IH]; [reflexivity|].
  cbn [flat_map]. rewrite filter_app, IH. clear IH.
  destruct (decide (ConfJour.fr_author_id f = ar_author_id a0
                    /\ ConfJour.fr_year f = Some y)) as [[Hid Hy] | Hn].
  - rewrite filter_cons_True by exact (conj Hid Hy). rewrite Hy, Hid.
    rewrite (rows_with_unique ar_author_id a0 _ Hu Ha). cbn [map].
    rewrite filter_cons_True by reflexivity. reflexivity.
  - rewrite filter_cons_False by exact Hn.
    match goal with |- filter ?P ?l ++ _ = _ => assert (E : filter P l = []) end;
      [|by rewrite E].
    match goal with |- ?fl = [] => destruct fl as [|j js] eqn:Efl end;
      [reflexivity | exfalso].
    assert (Hj : j ∈ j :: js) by (apply elem_of_cons; by left).
    rewrite <- Efl in Hj. clear Efl. apply list_elem_of_filter in Hj as [Hg Hj].
    destruct (ConfJour.fr_year f) as [y'|] eqn:Ey; [|by apply elem_of_nil in Hj].
    apply list_elem_of_fmap in Hj as (a & -> & Hin).
    apply list_elem_of_filter in Hin as [Hid _].
    unfold group_of in Hg. cbn in Hg. injection Hg as Hi _ Hyy.
    apply Hn. split; [by rewrite <- Hid | by rewrite Hyy].
Qed.

Lemma filter_map_length {A B} (h : A -> B) (P : B -> Prop)
    `{forall b, Decision (P b)} (l : list A) :
  length (filter P (map h l)) = length (filter (fun a => P (h a)) l).
Proof.
  induction l as [|a l IH]; [reflexivity|]. cbn [map].
  destruct (decide (P (h a))) as [Hp|Hp].
  - rewrite (filter_cons_True P) by exact Hp.
    rewrite (filter_cons_True (fun a => P (h a))) by exact Hp. simpl. by rewrite IH.
  - rewrite (filter_cons_False P) by exact Hp.
    rewrite (filter_cons_False (fun a => P (h a))) by exact Hp. exact IH.
Qed.

(** X18.  While author ids are unique in [authors], as the primary key has
    them, a row of the view counts exactly the facts of its author and its
    year, each once: the total is their number, and the journal and the
    conference count are the numbers of those among them with that venue
    type. *)
Theorem view_row_counts (d : ConfJour.database)
    (Hu : unique ar_author_id (ConfJour.authors d)) :
  forall r, r ∈ v_counts_per_person_year d ->
    let mine :=
      filter (fun f => ConfJour.fr_author_id f = cr_author_id r
                       /\ ConfJour.fr_year f = Some (cr_year r))
        (ConfJour.fact_authorships_works d) in
    cr_total_outputs r = length mine
    /\ cr_journal_count r
       = length (filter (fun f => ConfJour.fr_venue_type f = "journal") mine)
    /\ cr_conference_count r
       = length (filter (fun f => ConfJour.fr_venue_type f = "conference") mine).
Proof.
  intros r Hr. unfold v_counts_per_person_year in Hr.
  apply list_elem_of_fmap in Hr as (g & -> & Hg).
  apply elem_of_remove_dups, list_elem_of_fmap in Hg as ([[a f] y] & -> & Hj).
  apply joined_elem in Hj as (_ & _ & Ha & _).
  change (group_of (a, f, y)) with (ar_author_id a, ar_display_name a, y).
  cbv zeta.
  cbn [count_row_of cr_author_id cr_year cr_total_outputs
       cr_journal_count cr_conference_count fst snd].
  unfold count_venue. rewrite (in_group_unique d a y Hu Ha).
  split; [apply length_map|].
  split; apply (filter_map_length (fun f0 => (a, f0, y))).
Qed.

Lemma view_row_counts_witness :
  unique ar_author_id (ConfJour.authors Samples2.harvested)
  /\ map (fun r => (cr_author_id r, cr_year r, cr_journal_count r,
                    cr_conference_count r, cr_total_outputs r))
       (snd (export_counts_csv Samples2.harvested))
     = [("A1", 2024, 1%nat, 2%nat, 3%nat); ("A3", 2024, 0%nat, 0%nat, 1%nat)]
  /\ exists r,
       r ∈ v_counts_per_person_year Samples2.harvested
       /\ cr_author_id r = "A1" /\ cr_year r = 2024
       /\ cr_total_outputs r
          = length (filter (fun f => ConfJour.fr_author_id f = cr_author_id r
                                     /\ ConfJour.fr_year f = Some (cr_year r))
                      (ConfJour.fact_authorships_works Samples2.harvested)).
Proof.
  assert (Hu : unique ar_author_id (ConfJour.authors Samples2.harvested)).
  { unfold unique. refine (bool_decide_unpack _ _). vm_compute. exact Logic.I. }
  split; [exact Hu|]. split; [vm_compute; reflexivity|].
  assert (Hv : exists r rest,
            v_counts_per_person_year Samples2.harvested = r :: rest
            /\ cr_author_id r = "A1" /\ cr_year r = 2024).
  { eexists. eexists. split; [vm_compute; reflexivity|].
    split; vm_compute; reflexivity. }
  destruct Hv as (r & rest & Hv & Hid & Hy).
  assert (Hr : r ∈ v_counts_per_person_year Samples2.harvested)
    by (rewrite Hv; apply elem_of_cons; by left).
  exists r. split; [exact Hr|]. split; [exact Hid|]. split; [exact Hy|].
  exact (proj1 (view_row_counts Samples2.harvested Hu r Hr)).
Defined.

End ViewFacts.

(** ** Further properties: sample runs *)

Section FurtherRuns.
Import Sql Spec Props PyStr.

Lemma last_segment_spec_witness :
  has_sep "/" "T1" = false
  /\ last_segment "/" Samples.T1 = "T1"
  /\ has_sep "/" (last_segment "/" Samples.T1) = false.
Proof.
  split; [reflexivity|].
  destruct (last_segment_spec Samples.T1) as (H1 & _ & H3).
  split; [|exact H1].
  apply (H3 "https://openalex.org" "T1"); reflexivity.
Defined.

Lemma upsert_work_stored_witness :
  unique ConfJour.wr_work_id (ConfJour.works Samples.cj_db_empty)
  /\ unique ConfJour.wr_work_id
       (ConfJour.works (ConfJour.upsert_work_db Samples.W2 Samples.cj_db_empty))
  /\ select ConfJour.wr_work_id "W2"
       (ConfJour.works (ConfJour.upsert_work_db Samples.W2 Samples.cj_db_empty))
     = Some {| ConfJour.wr_work_id := "W2";
               ConfJour.wr_title := Some "W2";
               ConfJour.wr_publication_year := Some 2024;
               ConfJour.wr_doi := None;
               ConfJour.wr_venue_type := "conference" |}.
Proof.
  assert (H0 : unique ConfJour.wr_work_id (ConfJour.works Samples.cj_db_empty))
    by apply NoDup_nil_2.
  destruct (upsert_work_stored Samples.W2 Samples.cj_db_empty)
    as (Hsel & _ & _ & Hu & _).
  split; [exact H0|]. split; [exact (Hu H0)|]. exact Hsel.
Defined.

Lemma years_range_witness :
  2023 <= 2024 <= 2025
  /\ 2024 ∈ ConfJour.years 2023 2025
  /\ ConfJour.years 2023 2025 !! 2%nat = Some 2025
  /\ 2024 < 2025
  /\ ConfJour.harvest_works Samples.harvest_srv 2025 2024 3 ["A1"; "A2"]
       (Samples.start Samples.cj_empty)
     = Ok tt (Samples.start Samples.cj_empty).
Proof.
  destruct (years_range Samples.harvest_srv 2023 2025) as (Hin & _ & _ & _).
  destruct (years_range Samples.harvest_srv 2025 2024) as (_ & _ & _ & Hnone).
  split; [lia|]. split; [apply Hin; lia|]. split; [reflexivity|].
  split; [lia|]. apply Hnone. lia.
Defined.

Lemma upsert_fact_keys_witness :
  has_key ConfJour.fact_key ("A9", "W2")
    (ConfJour.fact_authorships_works
       (ConfJour.upsert_fact_db Samples.W2 Samples.cj_db_empty))
  /\ ~ has_key ConfJour.fact_key ("A9", "W2")
         (ConfJour.fact_authorships_works Samples.cj_db_empty).
Proof.
  split.
  - apply (proj1 (upsert_fact_keys Samples.W2 Samples.cj_db_empty "A9" "W2")).
    right. split; [reflexivity|]. split; [discriminate|].
    exists (Samples.by_author "A9"). split; [|reflexivity].
    cbn. rewrite !elem_of_cons. right. by left.
  - unfold has_key. cbn. apply not_elem_of_nil.
Defined.

Lemma attach_authorships_rows_witness :
  exists w',
    NustAuthors.attach_authorships "I1" "W2" Samples.W2
      (Samples.start Samples.nust_empty) = Ok tt w'
    /\ map (fun r => (NustAuthors.as_author_id r, NustAuthors.as_work_id r,
                      NustAuthors.as_is_nust_affiliation r))
         (NustAuthors.authorships_2025 (NustAuthors.db (store w')))
       = [("A1", "W2", 0); ("A9", "W2", 0)].
Proof.
  destruct (attach_authorships_rows "I1" "W2" Samples.W2
              (Samples.start Samples.nust_empty)) as (w' & Hrun & _).
  exists w'. split; [exact Hrun|].
  assert (E : exists w0,
            NustAuthors.attach_authorships "I1" "W2" Samples.W2
              (Samples.start Samples.nust_empty) = Ok tt w0
            /\ map (fun r => (NustAuthors.as_author_id r, NustAuthors.as_work_id r,
                              NustAuthors.as_is_nust_affiliation r))
                 (NustAuthors.authorships_2025 (NustAuthors.db (store w0)))
               = [("A1", "W2", 0); ("A9", "W2", 0)]).
  { eexists. split; vm_compute; reflexivity. }
  destruct E as (w0 & Hrun0 & Hrows). rewrite Hrun in Hrun0.
  injection Hrun0 as <-. exact Hrows.
Defined.

End FurtherRuns.

(** ** Further properties: whose works are fetched *)

Section StoredAuthors.
Import Eff Fetcher Sql Spec.
Variable srv : server.

Lemma listing_empty {D A} fuel base pause (body : A -> M D unit)
    (ep : list request -> string -> response (page A)) mkrq (w : world D) :
  (forall h, ep h "*"
             = {| status_code := 200;
                  json := {| results := []; next_cursor := None |} |}) ->
  paginate (S fuel) (fetch_page ep mkrq base) pause body "*" w
  = Ok tt (log (EvRequest (mkrq "*")) w).
Proof.
  intros Hep. cbn [paginate]. unfold bind at 1.
  rewrite (fetch_page_200 ep mkrq base "*" _ w Hep). reflexivity.
Qed.

(** X19.  Whose works are fetched.  [conf_jour_outputs.py] fetches works
    for the authors the listing of this run returned, [nust_authors.py]
    for every row of table [authors], also rows an earlier run stored:
    when the listing answers with one empty page, the first makes that one
    request and ends with the database as found, whatever authors it
    holds; the second goes on to the works of every stored author and,
    those being refused, prints one warning for each and ends in success
    with the database as found. *)
Theorem stored_authors_harvested (inst : string) (ys ye yr : Z) (fuel : nat)
    (w1 : world ConfJour.state) (w2 : world NustAuthors.state) :
  (forall h, authors_endpoint srv h "*"
             = {| status_code := 200;
                  json := {| results := []; next_cursor := None |} |}) ->
  (forall a, a ∈ NustAuthors.authors (NustAuthors.db (store w2)) ->
     refused srv (ar_author_id a) yr) ->
  (exists w1',
     ConfJour.main srv ys ye (S fuel) w1 = Ok tt w1'
     /\ history w1' = GetAuthors "*" :: history w1
     /\ prints_of (trace w1') = prints_of (trace w1)
     /\ ConfJour.db (store w1') = ConfJour.db (store w1))
  /\ (exists w2',
        NustAuthors.main srv inst yr (S fuel) w2 = Ok tt w2'
        /\ NustAuthors.db (store w2') = NustAuthors.db (store w2)
        /\ forall a, a ∈ NustAuthors.authors (NustAuthors.db (store w2)) ->
             exists e,
               WorksFetchFailed (ar_author_id a) yr e ∈ prints_of (trace w2')).
Proof.
  intros Hep Href. split.
  - unfold ConfJour.main. unfold bind at 1. cbn [modify]. unfold bind at 1.
    unfold ConfJour.iter_authors, ConfJour.get_with_retry.
    match goal with |- context [paginate _ _ _ _ _ ?x] =>
      pose proof (listing_empty fuel ConfJour.BASE_DELAY ConfJour.PAGE_SLEEP
                    ConfJour.author_body (authors_endpoint srv) GetAuthors x Hep)
        as Hrun end.
    unfold fetch_page in Hrun. rewrite Hrun.
    eexists. split; [reflexivity|]. repeat split.
  - unfold NustAuthors.main. unfold bind at 1. cbn [modify]. unfold bind at 1.
    unfold NustAuthors.iter_authors, NustAuthors.get_with_retry.
    match goal with |- context [paginate _ _ _ _ _ ?x] =>
      pose proof (listing_empty fuel NustAuthors.BASE_DELAY
                    NustAuthors.SLEEP_BETWEEN NustAuthors.upsert_author
                    (authors_endpoint srv) GetAuthors x Hep) as Hrun;
      set (w0 := x) in * end.
    unfold fetch_page in Hrun. rewrite Hrun.
    set (wa := log (EvRequest (GetAuthors "*")) w0).
    assert (Hdb : NustAuthors.db (store wa) = NustAuthors.db (store w2))
      by reflexivity.
    cbv beta. rewrite Hdb. unfold NustAuthors.harvest_works.
    set (R := fun w w' : world NustAuthors.state =>
                store w' = store w
                /\ forall m, m ∈ prints_of (trace w) -> m ∈ prints_of (trace w')).
    destruct (for_each_chain R (NustAuthors.author_works srv inst yr (S fuel))
                (index_order
                   (map ar_author_id
                      (NustAuthors.authors (NustAuthors.db (store w2))))))
      with (w := wa) as (w' & Hfor & [Hst _] & Hall).
    + intros w. split; [reflexivity | auto].
    + intros x1 x2 x3 [E1 P1] [E2 P2]. split; [congruence | auto].
    + intros aid Haid w. apply index_order_elem_inv in Haid.
      apply list_elem_of_fmap in Haid as (a & -> & Ha).
      destruct (author_works_refused srv inst yr fuel (ar_author_id a) w
                  (Href a Ha)) as (e & w' & Hr & Hs & Hp).
      exists w'. split; [exact Hr|]. split; [exact Hs|].
      intros m Hm. rewrite Hp. apply elem_of_cons. by right.
    + exists w'. split; [exact Hfor|]. split; [by rewrite Hst|].
      intros a Ha.
      destruct (Hall (ar_author_id a)) as (wx & wy & Hstep & _ & [_ Hpr]).
      { apply index_order_elem, list_elem_of_fmap. eauto. }
      destruct (author_works_refused srv inst yr fuel (ar_author_id a) wx
                  (Href a Ha)) as (e & wz & Hr & _ & Hp).
      rewrite Hr in Hstep. injection Hstep as <-.
      exists e. apply Hpr. rewrite Hp. apply elem_of_cons. by left.
Qed.

End StoredAuthors.

Section StoredAuthorsRun.
Import Eff Fetcher Sql Spec.

Lemma stored_authors_harvested_witness :
  (exists w1',
     ConfJour.main Samples2.quiet_srv 2025 2025 1
       (Samples.start Samples2.cj_after_run) = Ok tt w1'
     /\ history w1' = [GetAuthors "*"])
  /\ (exists w2' e,
        NustAuthors.main Samples2.quiet_srv "I1" 2025 1
          (Samples.start Samples2.nust_after_run) = Ok tt w2'
        /\ WorksFetchFailed "A7" 2025 e ∈ prints_of (trace w2')).
Proof.
  assert (Hep : forall h, authors_endpoint Samples2.quiet_srv h "*"
                          = {| status_code := 200;
                               json := {| results := []; next_cursor := None |} |})
    by reflexivity.
  assert (Href : forall a,
            a ∈ NustAuthors.authors
                  (NustAuthors.db (store (Samples.start Samples2.nust_after_run))) ->
            refused Samples2.quiet_srv (ar_author_id a) 2025)
    by (intros a _ h; discriminate).
  destruct (stored_authors_harvested Samples2.quiet_srv "I1" 2025 2025 2025 0
              (Samples.start Samples2.cj_after_run)
              (Samples.start Samples2.nust_after_run) Hep Href)
    as ((w1' & Hrun1 & Hh & _) & (w2' & Hrun2 & _ & Hpr)).
  split.
  - exists w1'. split; [exact Hrun1 | exact Hh].
  - destruct (Hpr (Samples2.stored_author "A7")) as (e & He).
    { apply elem_of_cons. by left. }
    exists w2', e. split; [exact Hrun2 | exact He].
Defined.

(** Authors stored in the order [A3], [A1], [A2] are walked in the order
    of their ids: the warnings, newest first, name [A3], [A2], [A1]. *)
Example stored_authors_in_index_order :
  exists w',
    NustAuthors.main Samples2.quiet_srv "I1" 2025 1
      (Samples.start Samples2.nust_after_runs) = Ok tt w'
    /\ prints_of (trace w')
       = [WorksFetchFailed "A3" 2025 (HTTPError true 503);
          WorksFetchFailed "A2" 2025 (HTTPError true 503);
          WorksFetchFailed "A1" 2025 (HTTPError true 503)].
Proof. eexists. split; vm_compute; reflexivity. Qed.

End StoredAuthorsRun.
